(** * fuse-cpp-ramfs: the inode table and the VFS callbacks

    A shallow embedding of [src/fuse_cpp_ramfs.cpp].  The callbacks are the
    static member functions of [FuseRamFs]; they are written here in a small
    state monad over the static data of the class ([Inodes], [DeletedInodes],
    [m_stbuf]) that also records the replies sent through the request handle
    and stops at the first undefined behaviour of the C++ program (a
    [vector] indexed past its end, a null [Inode *] dereferenced).

    The classes [Inode], [File], [Directory], [SymLink] and [SpecialInode]
    are declared in the headers that [fuse_cpp_ramfs.cpp] includes
    ([inode.hpp], [file.hpp], [directory.hpp], [symlink.hpp],
    [special_inode.hpp]), and the constants and the two counter updates of
    [FuseRamFs] in [fuse_cpp_ramfs.hpp].  Their member functions are modelled
    from the specification and every such definition says so in its comment.
    [FuseDestroy], which deletes every object and leaves the table dangling,
    is not modelled. *)

From Stdlib Require Import NArith ZArith Lia String Ascii List Bool.
From Stdlib Require Import Strings.Byte.
From stdpp Require Import base list strings.

Open Scope N_scope.

(** ** Unsigned 64-bit arithmetic

    [fuse_ino_t], [nlink_t], [size_t], [fsblkcnt_t] and [fsfilcnt_t] are
    unsigned 64-bit integers on the target; they are numbers of type [N] and
    the operations that can leave the range wrap around explicitly. *)

Definition two64 : N := 2 ^ 64.

Definition add64 (a b : N) : N := (a + b) mod two64.

Definition sub64 (a b : N) : N := (a + (two64 - b mod two64)) mod two64.

(** Unary minus on a [size_t], as in [-blocks_freed]. *)
Definition neg64 (a : N) : N := sub64 0 a.

(** ** Error numbers (Linux values) *)

Definition ENOENT : N := 2.
Definition ENOMEM : N := 12.
Definition EACCES : N := 13.
Definition EEXIST : N := 17.
Definition ENOTDIR : N := 20.
Definition EISDIR : N := 21.
Definition EINVAL : N := 22.
Definition ENOSPC : N := 28.
Definition ENOTEMPTY : N := 39.
Definition ENODATA : N := 61.

(** ** File-type bits of [st_mode] (sys/stat.h) *)

Definition S_IFMT : N := 61440.   (* 0170000 *)
Definition S_IFDIR : N := 16384.  (* 0040000 *)
Definition S_IFREG : N := 32768.  (* 0100000 *)
Definition S_IFLNK : N := 40960.  (* 0120000 *)

Definition S_ISDIR (mode : N) : bool := N.land mode S_IFMT =? S_IFDIR.
Definition S_ISREG (mode : N) : bool := N.land mode S_IFMT =? S_IFREG.

(** ** [std::map<string, V>]

    The children of a directory are a [map<string, fuse_ino_t>] (see the
    iterator type in [FuseReadDir]); so are the extended attributes.  The map
    is the list of its bindings in increasing key order, which is the order
    its iterators walk. *)

Module StdMap.

Definition t (V : Type) : Type := list (string * V).

Definition empty {V} : t V := [].

Fixpoint find {V} (k : string) (m : t V) : option V :=
  match m with
  | [] => None
  | (k', v) :: m' => if String.eqb k k' then Some v else find k m'
  end.

(** [m[k] = v] *)
Fixpoint assign {V} (k : string) (v : V) (m : t V) : t V :=
  match m with
  | [] => [(k, v)]
  | (k', v') :: m' =>
      match String.compare k k' with
      | Lt => (k, v) :: m
      | Eq => (k, v) :: m'
      | Gt => (k', v') :: assign k v m'
      end
  end.

(** [m.insert({k, v})]: an existing binding is kept. *)
Definition insert {V} (k : string) (v : V) (m : t V) : t V :=
  match find k m with
  | Some _ => m
  | None => assign k v m
  end.

(** [m.erase(k)] *)
Fixpoint erase {V} (k : string) (m : t V) : t V :=
  match m with
  | [] => []
  | (k', v) :: m' => if String.eqb k k' then erase k m' else (k', v) :: erase k m'
  end.

Definition size {V} (m : t V) : N := N.of_nat (length m).

End StdMap.

(** ** Inodes *)

Definition BufBlockSize : N := 4096.

(** The value a directory lookup returns for a name that is not bound: all
    ones in a [fuse_ino_t]. *)
Definition INO_NOTFOUND : N := two64 - 1.

(** The four classes derived from [Inode]; [dynamic_cast] tests which one an
    object is. *)
Inductive Body : Type :=
| File (m_buf : list byte)
| Directory (m_children : StdMap.t N)
| SymLink (m_link : string)
| SpecialInode.

(** The attribute block handed out by [GetAttr]. *)
Record stat : Type := mkStat {
  st_ino : N;
  st_mode : N;
  st_nlink : N;
  st_uid : N;
  st_gid : N;
  st_size : N;
  st_blocks : N
}.

(** An inode object: the variant's own state, the attributes every variant
    shares, the kernel's lookup count and the extended attributes.  The
    timestamps are left out: they are wall-clock readings. *)
Record Inode : Type := mkInode {
  body : Body;
  i_ino : N;
  i_mode : N;
  i_nlink : N;
  i_uid : N;
  i_gid : N;
  i_size : N;
  m_nlookup : N;
  m_xattr : StdMap.t (list byte)
}.

Definition with_body (b : Body) (i : Inode) : Inode :=
  mkInode b (i_ino i) (i_mode i) (i_nlink i) (i_uid i) (i_gid i) (i_size i)
          (m_nlookup i) (m_xattr i).

Definition with_nlink (n : N) (i : Inode) : Inode :=
  mkInode (body i) (i_ino i) (i_mode i) n (i_uid i) (i_gid i) (i_size i)
          (m_nlookup i) (m_xattr i).

Definition with_nlookup (n : N) (i : Inode) : Inode :=
  mkInode (body i) (i_ino i) (i_mode i) (i_nlink i) (i_uid i) (i_gid i) (i_size i)
          n (m_xattr i).

Definition with_mode (m : N) (i : Inode) : Inode :=
  mkInode (body i) (i_ino i) m (i_nlink i) (i_uid i) (i_gid i) (i_size i)
          (m_nlookup i) (m_xattr i).

Definition with_uid (u : N) (i : Inode) : Inode :=
  mkInode (body i) (i_ino i) (i_mode i) (i_nlink i) u (i_gid i) (i_size i)
          (m_nlookup i) (m_xattr i).

Definition with_gid (g : N) (i : Inode) : Inode :=
  mkInode (body i) (i_ino i) (i_mode i) (i_nlink i) (i_uid i) g (i_size i)
          (m_nlookup i) (m_xattr i).

Definition with_size (s : N) (i : Inode) : Inode :=
  mkInode (body i) (i_ino i) (i_mode i) (i_nlink i) (i_uid i) (i_gid i) s
          (m_nlookup i) (m_xattr i).

Definition with_xattr (x : StdMap.t (list byte)) (i : Inode) : Inode :=
  mkInode (body i) (i_ino i) (i_mode i) (i_nlink i) (i_uid i) (i_gid i) (i_size i)
          (m_nlookup i) x.

(** Modelled from the spec: the constructors [new File()], [new Directory()],
    [new SymLink(link)] and [new SpecialInode(...)], which are not in the
    sources.  A fresh object has an empty body (a symbolic link has its
    target) and nothing else set; [Initialize] fills in the attributes. *)
Definition new_object (b : Body) : Inode :=
  mkInode b 0 0 0 0 0 0 0 StdMap.empty.

Definition new_File : Inode := new_object (File []).
Definition new_Directory : Inode := new_object (Directory StdMap.empty).
Definition new_SymLink (link : string) : Inode := new_object (SymLink link).
Definition new_SpecialInode : Inode := new_object SpecialInode.

Definition ceil_div (a b : N) : N := (a + b - 1) / b.

(** Modelled from the spec: [Inode::UsedBlocks], not in the sources.  "UsedBlocks
    = ceil(size/blocksize)" for a file; the specification names no block
    usage for the other variants, which have no block sequence. *)
Definition UsedBlocks (i : Inode) : N :=
  match body i with
  | File buf => ceil_div (N.of_nat (length buf)) BufBlockSize
  | _ => 0
  end.

(** Modelled from the spec: [Inode::Initialize], not in the sources.  "The
    inode is initialized with mode, link count, owner, zero lookup count";
    "zero size (except for symlinks whose size is the target length)". *)
Definition Initialize (ino mode nlink gid uid : N) (i : Inode) : Inode :=
  mkInode (body i) ino mode nlink uid gid
          (match body i with
           | SymLink link => N.of_nat (String.length link)
           | _ => 0
           end)
          0 (m_xattr i).

(** Modelled from the spec: [Inode::GetAttr], not in the sources: the
    attribute block of the inode. *)
Definition GetAttr (i : Inode) : stat :=
  mkStat (i_ino i) (i_mode i) (i_nlink i) (i_uid i) (i_gid i) (i_size i) (UsedBlocks i).

(** Modelled from the spec: [Inode::HasNoLinks], [Inode::AddHardLink] and
    [Inode::RemoveHardLink], not in the sources: the test for a zero
    hard-link count, and the count plus and minus one in an [nlink_t]. *)
Definition HasNoLinks (i : Inode) : bool := i_nlink i =? 0.

Definition AddHardLink_obj (i : Inode) : Inode := with_nlink (add64 (i_nlink i) 1) i.

Definition RemoveHardLink_obj (i : Inode) : Inode := with_nlink (sub64 (i_nlink i) 1) i.

(** Modelled from the spec: [Inode::Forgotten], not in the sources: "when
    [the lookup count] reaches zero". *)
Definition Forgotten (i : Inode) : bool := m_nlookup i =? 0.

(** What [dynamic_cast<Directory *>], [dynamic_cast<File *>] and
    [dynamic_cast<SymLink *>] answer for a pointer, null included. *)
Definition is_Directory (p : option Inode) : bool :=
  match p with
  | Some i => match body i with Directory _ => true | _ => false end
  | None => false
  end.

Definition is_File (p : option Inode) : bool :=
  match p with
  | Some i => match body i with File _ => true | _ => false end
  | None => false
  end.

Definition is_SymLink (p : option Inode) : bool :=
  match p with
  | Some i => match body i with SymLink _ => true | _ => false end
  | None => false
  end.

(** [inode == nullptr || inode->HasNoLinks()] *)
Definition null_or_unlinked (p : option Inode) : bool :=
  match p with
  | None => true
  | Some i => HasNoLinks i
  end.

(** Modelled from the spec: [Directory::Children], not in the sources: the
    name-to-number mapping of a directory (empty for another variant). *)
Definition Children (i : Inode) : StdMap.t N :=
  match body i with
  | Directory c => c
  | _ => StdMap.empty
  end.

(** Modelled from the spec: [Directory::ChildInodeNumberWithName], not in the
    sources: "map lookup", with the not-found sentinel for an absent name. *)
Definition ChildInodeNumberWithName (name : string) (i : Inode) : N :=
  match StdMap.find name (Children i) with
  | Some n => n
  | None => INO_NOTFOUND
  end.

Definition with_children (c : StdMap.t N) (i : Inode) : Inode :=
  match body i with
  | Directory _ => with_body (Directory c) i
  | _ => i
  end.

(** Modelled from the spec: [Directory::AddChild], [Directory::UpdateChild]
    and [Directory::RemoveChild], not in the sources.  "AddChild — inserts;
    caller ensures name absent"; "UpdateChild — rebinds an existing name or
    inserts"; "RemoveChild — removes the name".  Only [UpdateChild] rebinds,
    so [AddChild] is the [insert] of the map, which keeps a binding that is
    already there. *)
Definition AddChild_obj (name : string) (n : N) (i : Inode) : Inode :=
  with_children (StdMap.insert name n (Children i)) i.

Definition UpdateChild_obj (name : string) (n : N) (i : Inode) : Inode :=
  with_children (StdMap.assign name n (Children i)) i.

Definition RemoveChild_obj (name : string) (i : Inode) : Inode :=
  with_children (StdMap.erase name (Children i)) i.

(** ** The static data of [FuseRamFs] *)

(** [struct statvfs], the fields the constructor sets. *)
Record statvfs : Type := mkStatvfs {
  f_bsize : N;
  f_frsize : N;
  f_blocks : N;
  f_bfree : N;
  f_bavail : N;
  f_files : N;
  f_ffree : N;
  f_favail : N;
  f_fsid : N;
  f_flag : N;
  f_namemax : N
}.

(** A [map<string, fuse_ino_t>::const_iterator]: the key of the node it
    points to, or [None] for [end()]. *)
Definition iterator : Type := option string.

(** [Inodes] holds pointers: [Some i] is a pointer to the object [i], [None]
    is [nullptr].  An object is reachable only through its slot, so the slot
    number stands for the pointer.  [DeletedInodes] is the queue, front
    first.  [m_iterators] is the part of the heap that holds the iterators
    [FuseReadDir] allocates with [new] and never frees; the pointer to cell
    [k] is the number [k + 1], and [0] is [NULL]. *)
Record FuseRamFs : Type := mkFs {
  Inodes : list (option Inode);
  DeletedInodes : list N;
  m_reclaimingInodes : bool;
  m_stbuf : statvfs;
  m_iterators : list iterator
}.

Definition with_Inodes (t : list (option Inode)) (fs : FuseRamFs) : FuseRamFs :=
  mkFs t (DeletedInodes fs) (m_reclaimingInodes fs) (m_stbuf fs) (m_iterators fs).

Definition with_DeletedInodes (q : list N) (fs : FuseRamFs) : FuseRamFs :=
  mkFs (Inodes fs) q (m_reclaimingInodes fs) (m_stbuf fs) (m_iterators fs).

Definition with_reclaiming (b : bool) (fs : FuseRamFs) : FuseRamFs :=
  mkFs (Inodes fs) (DeletedInodes fs) b (m_stbuf fs) (m_iterators fs).

Definition with_stbuf (s : statvfs) (fs : FuseRamFs) : FuseRamFs :=
  mkFs (Inodes fs) (DeletedInodes fs) (m_reclaimingInodes fs) s (m_iterators fs).

Definition with_iterators (h : list iterator) (fs : FuseRamFs) : FuseRamFs :=
  mkFs (Inodes fs) (DeletedInodes fs) (m_reclaimingInodes fs) (m_stbuf fs) h.

(** The caller's credentials, [fuse_req_ctx(req)]. *)
Record fuse_ctx : Type := mkCtx { ctx_uid : N; ctx_gid : N }.

(** One entry of a directory buffer, as [fuse_add_direntry] lays it out. *)
Record dirent : Type := mkDirent {
  d_name : string;
  d_attr : stat;
  d_off : N
}.

(** The replies of the low-level interface. *)
Inductive Reply : Type :=
| reply_err (e : N)
| reply_none
| reply_entry (a : stat)
| reply_create (a : stat)
| reply_attr (a : stat)
| reply_open
| reply_readlink (link : string)
| reply_buf (data : list byte)
| reply_dirbuf (entries : list dirent) (bytes : N)
| reply_write (count : N)
| reply_statfs (s : statvfs)
| reply_xattr (count : N).

(** ** The monad of the callbacks *)

(** Where the C++ program has undefined behaviour or never returns. *)
Inductive Fault : Type :=
| OutOfBounds      (* Inodes[n] with n >= Inodes.size() *)
| NullPointer      (* a member function called through nullptr *)
| InvalidIterator  (* an iterator that is not in the map, or --begin() *)
| Diverges.        (* a loop that never ends *)

Inductive Result (A : Type) : Type :=
| Ok (a : A) (fs : FuseRamFs) (sent : list Reply)
| Crash (f : Fault) (fs : FuseRamFs) (sent : list Reply).

Arguments Ok {A} a fs sent.
Arguments Crash {A} f fs sent.

Definition M (A : Type) : Type := FuseRamFs -> list Reply -> Result A.

Definition ret {A} (a : A) : M A := fun fs sent => Ok a fs sent.

Definition bind {A B} (c : M A) (k : A -> M B) : M B :=
  fun fs sent =>
    match c fs sent with
    | Ok a fs' sent' => k a fs' sent'
    | Crash f fs' sent' => Crash f fs' sent'
    end.

Declare Scope fuse_scope.
Delimit Scope fuse_scope with fuse.
Bind Scope fuse_scope with M.

Notation "x <- c ;; k" := (bind c (fun x => k))
  (at level 100, c at next level, k at level 200, right associativity) : fuse_scope.
Notation "c ;; k" := (bind c (fun _ => k))
  (at level 100, k at level 200, right associativity) : fuse_scope.

Open Scope fuse_scope.

(** A callback run on a state, with no reply sent yet. *)
Definition run {A} (c : M A) (fs : FuseRamFs) : Result A := c fs [].

Definition crash {A} (f : Fault) : M A := fun fs sent => Crash f fs sent.

Definition get_fs : M FuseRamFs := fun fs sent => Ok fs fs sent.

Definition modify_fs (f : FuseRamFs -> FuseRamFs) : M unit :=
  fun fs sent => Ok tt (f fs) sent.

(** Any of the [fuse_reply_*] functions. *)
Definition fuse_reply (r : Reply) : M unit :=
  fun fs sent => Ok tt fs (sent ++ [r]).

Definition fuse_reply_err (e : N) : M unit := fuse_reply (reply_err e).

(** [Inodes.size()] *)
Definition Inodes_size : M N :=
  fun fs sent => Ok (N.of_nat (length (Inodes fs))) fs sent.

(** [Inodes[n]], read. *)
Definition Inodes_at (n : N) : M (option Inode) :=
  fun fs sent =>
    match Inodes fs !! N.to_nat n with
    | Some p => Ok p fs sent
    | None => Crash OutOfBounds fs sent
    end.

(** [Inodes[n] = p] *)
Definition Inodes_store (n : N) (p : option Inode) : M unit :=
  fun fs sent =>
    match Inodes fs !! N.to_nat n with
    | Some _ => Ok tt (with_Inodes (<[N.to_nat n := p]> (Inodes fs)) fs) sent
    | None => Crash OutOfBounds fs sent
    end.

(** [Inodes.push_back(p)] *)
Definition Inodes_push_back (p : option Inode) : M unit :=
  modify_fs (fun fs => with_Inodes (Inodes fs ++ [p]) fs).

(** The object behind the pointer read from slot [this]. *)
Definition deref (this : N) : M Inode :=
  p <- Inodes_at this ;;
  match p with
  | Some i => ret i
  | None => crash NullPointer
  end.

(** A member function that updates the object behind the pointer read from
    slot [this]. *)
Definition method (this : N) (f : Inode -> Inode) : M unit :=
  i <- deref this ;;
  Inodes_store this (Some (f i)).

Definition AddHardLink (this : N) : M unit := method this AddHardLink_obj.
Definition RemoveHardLink (this : N) : M unit := method this RemoveHardLink_obj.
Definition AddChild (this : N) (name : string) (n : N) : M unit :=
  method this (AddChild_obj name n).
Definition UpdateChild (this : N) (name : string) (n : N) : M unit :=
  method this (UpdateChild_obj name n).
Definition RemoveChild (this : N) (name : string) : M unit :=
  method this (RemoveChild_obj name).

(** Modelled from the spec: [FuseRamFs::UpdateUsedBlocks] and
    [FuseRamFs::UpdateUsedInodes], declared in the header, which is not in
    the sources.  They debit the free-block and the free-inode counter by
    their argument (a negative argument credits), together with the copy of
    each counter for unprivileged callers, which the constructor and
    [FuseInit] set along with it. *)
Definition debit_blocks (blocksAdded : N) (s : statvfs) : statvfs :=
  mkStatvfs (f_bsize s) (f_frsize s) (f_blocks s)
            (sub64 (f_bfree s) blocksAdded) (sub64 (f_bavail s) blocksAdded)
            (f_files s) (f_ffree s) (f_favail s)
            (f_fsid s) (f_flag s) (f_namemax s).

Definition debit_inodes (inodesAdded : N) (s : statvfs) : statvfs :=
  mkStatvfs (f_bsize s) (f_frsize s) (f_blocks s)
            (f_bfree s) (f_bavail s)
            (f_files s) (sub64 (f_ffree s) inodesAdded) (sub64 (f_favail s) inodesAdded)
            (f_fsid s) (f_flag s) (f_namemax s).

Definition UpdateUsedBlocks (blocksAdded : N) : M unit :=
  modify_fs (fun fs => with_stbuf (debit_blocks blocksAdded (m_stbuf fs)) fs).

Definition UpdateUsedInodes (inodesAdded : N) : M unit :=
  modify_fs (fun fs => with_stbuf (debit_inodes inodesAdded (m_stbuf fs)) fs).

(** ** Registration *)

(** [FuseRamFs::RegisterInode].  [inode_p] is the object just made with
    [new]; it enters the table before it is initialized. *)
Definition RegisterInode (inode_p : Inode) (mode nlink gid uid : N) : M N :=
  fs <- get_fs ;;
  ino <- match DeletedInodes fs with
         | [] =>
             Inodes_push_back (Some inode_p) ;;
             sz <- Inodes_size ;;
             UpdateUsedInodes 1 ;;
             ret (sz - 1)
         | front :: rest =>
             modify_fs (with_DeletedInodes rest) ;;
             Inodes_store front (Some inode_p) ;;
             ret front
         end ;;
  method ino (Initialize ino mode nlink gid uid) ;;
  i <- deref ino ;;
  UpdateUsedBlocks (UsedBlocks i) ;;
  ret ino.

(** ** The replying member functions of the inode classes *)

(** Modelled from the spec: [Inode::ReplyEntry] and [Inode::ReplyCreate], not
    in the sources.  The lookup count is "incremented whenever the kernel
    receives an entry reply that references the inode (lookup, mknod, mkdir,
    symlink, link, create)". *)
Definition ReplyEntry (this : N) : M unit :=
  method this (fun i => with_nlookup (add64 (m_nlookup i) 1) i) ;;
  i <- deref this ;;
  fuse_reply (reply_entry (GetAttr i)).

Definition ReplyCreate (this : N) : M unit :=
  method this (fun i => with_nlookup (add64 (m_nlookup i) 1) i) ;;
  i <- deref this ;;
  fuse_reply (reply_create (GetAttr i)).

(** Modelled from the spec: [Inode::Forget], not in the sources: the lookup
    count, an unsigned 64-bit counter, is "decremented by the forget(n)
    callback by exactly n"; the callback itself sends nothing ("there's no
    reply here. That was done in the steps above"). *)
Definition Forget (this : N) (nlookup : N) : M unit :=
  method this (fun i => with_nlookup (sub64 (m_nlookup i) nlookup) i) ;;
  fuse_reply reply_none.

(** Modelled from the spec: [Inode::ReplyAttr], not in the sources. *)
Definition ReplyAttr (this : N) : M unit :=
  i <- deref this ;;
  fuse_reply (reply_attr (GetAttr i)).

Definition resize (n : nat) (buf : list byte) : list byte :=
  take n buf ++ replicate (n - length buf) x00.

(** Modelled from the spec: the truncation of a file, not in the sources.
    "Shrinking size truncates the file's block sequence; growing size extends
    with zero-filled blocks", and the free-block counter follows the blocks
    in use. *)
Definition Truncate (this : N) (size : N) : M unit :=
  i <- deref this ;;
  match body i with
  | File buf =>
      let i' := with_size size (with_body (File (resize (N.to_nat size) buf)) i) in
      Inodes_store this (Some i') ;;
      UpdateUsedBlocks (sub64 (UsedBlocks i') (UsedBlocks i))
  | _ => ret tt
  end.

Definition FUSE_SET_ATTR_MODE : N := 1.
Definition FUSE_SET_ATTR_UID : N := 2.
Definition FUSE_SET_ATTR_GID : N := 4.
Definition FUSE_SET_ATTR_SIZE : N := 8.

Definition has_flag (to_set flag : N) : bool := negb (N.land to_set flag =? 0).

(** Modelled from the spec: [Inode::ReplySetAttr], not in the sources.  "A
    bitmask determines which fields apply (mode, uid, gid, size, atime, mtime,
    ctime)"; the timestamps are not modelled. *)
Definition ReplySetAttr (this : N) (attr : stat) (to_set : N) : M unit :=
  (if has_flag to_set FUSE_SET_ATTR_MODE then method this (with_mode (st_mode attr)) else ret tt) ;;
  (if has_flag to_set FUSE_SET_ATTR_UID then method this (with_uid (st_uid attr)) else ret tt) ;;
  (if has_flag to_set FUSE_SET_ATTR_GID then method this (with_gid (st_gid attr)) else ret tt) ;;
  (if has_flag to_set FUSE_SET_ATTR_SIZE then Truncate this (st_size attr) else ret tt) ;;
  ReplyAttr this.

Definition F_OK : N := 0.

(** The permission bits of [mode] that apply to the caller. *)
Definition permission_bits (i : Inode) (gid uid : N) : N :=
  if uid =? i_uid i then N.land (N.shiftr (i_mode i) 6) 7
  else if gid =? i_gid i then N.land (N.shiftr (i_mode i) 3) 7
  else N.land (i_mode i) 7.

(** Modelled from the spec: [Inode::ReplyAccess], not in the sources.
    "Standard UNIX permission bits consulted against mode and ownership;
    F_OK requires only existence." *)
Definition ReplyAccess (this : N) (mask gid uid : N) : M unit :=
  i <- deref this ;;
  if mask =? F_OK then fuse_reply_err 0
  else if N.land mask (permission_bits i gid uid) =? mask then fuse_reply_err 0
  else fuse_reply_err EACCES.

(** Modelled from the spec: [Inode::ReadAndReply], not in the sources.
    "Reads return the byte slice [off, min(off+len, size)); a read fully past
    size returns an empty buffer."  The specification has file bodies only;
    a directory answers EISDIR and the other variants EINVAL. *)
Definition ReadAndReply (this : N) (size off : N) : M unit :=
  i <- deref this ;;
  match body i with
  | File buf => fuse_reply (reply_buf (take (N.to_nat size) (drop (N.to_nat off) buf)))
  | Directory _ => fuse_reply_err EISDIR
  | _ => fuse_reply_err EINVAL
  end.

(** Modelled from the spec: [Inode::WriteAndReply], not in the sources.
    "Writes at offset off with length len extend the block sequence as
    needed, zero-filling any hole between the old size and off.  size becomes
    max(size, off+len)"; "writes check the global free-block counter before
    extending a file and fail with ENOSPC if it would go negative".  [buf]
    holds the [size] bytes to write. *)
Definition WriteAndReply (this : N) (buf : list byte) (size off : N) : M unit :=
  i <- deref this ;;
  match body i with
  | File old =>
      let bytes := resize (N.to_nat size) buf in
      let newSize := N.max (N.of_nat (length old)) (off + size) in
      let whole := resize (N.to_nat newSize) old in
      let new := take (N.to_nat off) whole ++ bytes ++ drop (N.to_nat (off + size)) whole in
      let i' := with_size newSize (with_body (File new) i) in
      let added := UsedBlocks i' - UsedBlocks i in
      fs <- get_fs ;;
      if f_bfree (m_stbuf fs) <? added then fuse_reply_err ENOSPC
      else
        Inodes_store this (Some i') ;;
        UpdateUsedBlocks added ;;
        fuse_reply (reply_write size)
  | Directory _ => fuse_reply_err EISDIR
  | _ => fuse_reply_err EINVAL
  end.

Definition XATTR_CREATE : N := 1.
Definition XATTR_REPLACE : N := 2.

(** Modelled from the spec: [Inode::SetXAttrAndReply], not in the sources.
    "setxattr(name, value, flags) respects create/replace flags (XATTR_CREATE
    requires absent, XATTR_REPLACE requires present)." *)
Definition SetXAttrAndReply (this : N) (name : string) (value : list byte)
    (size flags position : N) : M unit :=
  i <- deref this ;;
  match StdMap.find name (m_xattr i) with
  | Some _ =>
      if has_flag flags XATTR_CREATE then fuse_reply_err EEXIST
      else
        Inodes_store this
          (Some (with_xattr (StdMap.assign name (resize (N.to_nat size) value) (m_xattr i)) i)) ;;
        fuse_reply_err 0
  | None =>
      if has_flag flags XATTR_REPLACE then fuse_reply_err ENODATA
      else
        Inodes_store this
          (Some (with_xattr (StdMap.assign name (resize (N.to_nat size) value) (m_xattr i)) i)) ;;
        fuse_reply_err 0
  end.

(** Modelled from the spec: [Inode::GetXAttrAndReply], not in the sources.
    "getxattr(name, size) returns the value (if size==0, returns only the
    size to the caller)"; an absent name is ENODATA. *)
Definition GetXAttrAndReply (this : N) (name : string) (size position : N) : M unit :=
  i <- deref this ;;
  match StdMap.find name (m_xattr i) with
  | None => fuse_reply_err ENODATA
  | Some value =>
      if size =? 0 then fuse_reply (reply_xattr (N.of_nat (length value)))
      else fuse_reply (reply_buf value)
  end.

(** Modelled from the spec: [Inode::ListXAttrAndReply], not in the sources.
    "listxattr(size) returns a NUL-separated concatenation." *)
Definition ListXAttrAndReply (this : N) (size : N) : M unit :=
  i <- deref this ;;
  fuse_reply (reply_buf
    (concat (map (fun kv => list_byte_of_string (fst kv) ++ [x00]) (m_xattr i)))).

(** Modelled from the spec: [Inode::RemoveXAttrAndReply], not in the sources.
    "removexattr(name) fails with ENODATA/ENOATTR when absent." *)
Definition RemoveXAttrAndReply (this : N) (name : string) : M unit :=
  i <- deref this ;;
  match StdMap.find name (m_xattr i) with
  | None => fuse_reply_err ENODATA
  | Some _ =>
      Inodes_store this (Some (with_xattr (StdMap.erase name (m_xattr i)) i)) ;;
      fuse_reply_err 0
  end.

(** Modelled from the spec: [SymLink::Link], not in the sources: "an
    immutable target path string captured at creation". *)
Definition Link (i : Inode) : string :=
  match body i with
  | SymLink link => link
  | _ => EmptyString
  end.

(** ** The callbacks *)

(** [dir->ChildInodeNumberWithName(name)] for the directory behind a pointer
    that [dynamic_cast] has accepted. *)
Definition child_number (dir : option Inode) (name : string) : N :=
  match dir with
  | Some d => ChildInodeNumberWithName name d
  | None => INO_NOTFOUND
  end.

Definition children_of (dir : option Inode) : StdMap.t N :=
  match dir with
  | Some d => Children d
  | None => StdMap.empty
  end.

(** The constructor [FuseRamFs::FuseRamFs()] on the zero-initialized static
    data; the four capacity constants come from the header. *)
Definition FuseRamFs_new (kTotalBlocks kTotalInodes kFilesystemId kMaxFilenameLength : N)
    : FuseRamFs :=
  mkFs [] [] false
       (mkStatvfs BufBlockSize BufBlockSize
                  kTotalBlocks kTotalBlocks kTotalBlocks
                  kTotalInodes kTotalInodes kTotalInodes
                  kFilesystemId 0 kMaxFilenameLength)
       [].

(** [FuseRamFs::FuseInit]; [gid] and [uid] are what [getgid()] and [getuid()]
    return. *)
Definition FuseInit (gid uid : N) : M unit :=
  modify_fs (with_reclaiming false) ;;
  modify_fs (fun fs =>
    let s := m_stbuf fs in
    with_stbuf (mkStatvfs (f_bsize s) (f_frsize s) (f_blocks s)
                          (f_blocks s) (f_blocks s)
                          (f_files s) (f_files s) (f_files s)
                          (f_fsid s) 0 (f_namemax s)) fs) ;;
  RegisterInode new_SpecialInode 0 0 gid uid ;;
  rootno <- RegisterInode new_Directory (N.lor S_IFDIR 511) 3 gid uid ;;
  AddChild rootno "." rootno ;;
  AddChild rootno ".." rootno.

(** [FuseRamFs::FuseLookup] *)
Definition FuseLookup (parent : N) (name : string) : M unit :=
  sz <- Inodes_size ;;
  if sz <=? parent then fuse_reply_err ENOENT
  else
    parentInode <- Inodes_at parent ;;
    if negb (is_Directory parentInode) then fuse_reply_err ENOTDIR
    else
      let ino := child_number parentInode name in
      if ino =? INO_NOTFOUND then fuse_reply_err ENOENT
      else
        inode <- Inodes_at ino ;;
        if null_or_unlinked inode then fuse_reply_err ENOENT
        else ReplyEntry ino.

(** [FuseRamFs::FuseGetAttr].  The first test replies and does not return. *)
Definition FuseGetAttr (ino : N) : M unit :=
  sz <- Inodes_size ;;
  (if sz <=? ino then fuse_reply_err ENOENT else ret tt) ;;
  inode <- Inodes_at ino ;;
  if null_or_unlinked inode then fuse_reply_err ENOENT
  else ReplyAttr ino.

(** [FuseRamFs::FuseSetAttr].  The first test replies and does not return. *)
Definition FuseSetAttr (ino : N) (attr : stat) (to_set : N) : M unit :=
  sz <- Inodes_size ;;
  (if sz <=? ino then fuse_reply_err ENOENT else ret tt) ;;
  inode <- Inodes_at ino ;;
  if null_or_unlinked inode then fuse_reply_err ENOENT
  else ReplySetAttr ino attr to_set.

(** [FuseRamFs::FuseOpenDir] *)
Definition FuseOpenDir (ino : N) : M unit :=
  sz <- Inodes_size ;;
  if sz <=? ino then fuse_reply_err ENOENT
  else
    inode <- Inodes_at ino ;;
    if null_or_unlinked inode then fuse_reply_err ENOENT
    else if is_File inode then fuse_reply_err ENOTDIR
    else fuse_reply reply_open.

(** [FuseRamFs::FuseReleaseDir] *)
Definition FuseReleaseDir (ino : N) : M unit :=
  sz <- Inodes_size ;;
  if sz <=? ino then fuse_reply_err ENOENT
  else
    inode <- Inodes_at ino ;;
    if null_or_unlinked inode then fuse_reply_err ENOENT
    else if is_File inode then fuse_reply_err ENOTDIR
    else fuse_reply_err 0.

(** [FuseRamFs::FuseOpen] *)
Definition FuseOpen (ino : N) : M unit :=
  sz <- Inodes_size ;;
  if sz <=? ino then fuse_reply_err ENOENT
  else
    inode <- Inodes_at ino ;;
    if null_or_unlinked inode then fuse_reply_err ENOENT
    else if is_Directory inode then fuse_reply_err EISDIR
    else fuse_reply reply_open.

(** [FuseRamFs::FuseRelease] *)
Definition FuseRelease (ino : N) : M unit :=
  sz <- Inodes_size ;;
  if sz <=? ino then fuse_reply_err ENOENT
  else
    inode_p <- Inodes_at ino ;;
    if null_or_unlinked inode_p then fuse_reply_err ENOENT
    else if is_Directory inode_p then fuse_reply_err EISDIR
    else fuse_reply_err 0.

(** [FuseRamFs::FuseFsync] *)
Definition FuseFsync (ino : N) : M unit :=
  sz <- Inodes_size ;;
  if sz <=? ino then fuse_reply_err ENOENT
  else fuse_reply_err 0.

(** [FuseRamFs::FuseFsyncDir] *)
Definition FuseFsyncDir (ino : N) : M unit :=
  sz <- Inodes_size ;;
  if sz <=? ino then fuse_reply_err ENOENT
  else
    inode_p <- Inodes_at ino ;;
    if negb (is_Directory inode_p) then fuse_reply_err ENOTDIR
    else fuse_reply_err 0.

(** [FuseRamFs::FuseMknod] *)
Definition FuseMknod (req : fuse_ctx) (parent : N) (name : string) (mode rdev : N) : M unit :=
  sz <- Inodes_size ;;
  if sz <=? parent then fuse_reply_err ENOENT
  else
    parentInode <- Inodes_at parent ;;
    if null_or_unlinked parentInode then fuse_reply_err ENOENT
    else if negb (is_Directory parentInode) then fuse_reply_err EISDIR
    else if S_ISDIR mode then
      AddHardLink parent ;;
      ino <- RegisterInode new_Directory mode 2 (ctx_gid req) (ctx_uid req) ;;
      AddChild parent name ino ;;
      ReplyEntry ino
    else if S_ISREG mode then
      ino <- RegisterInode new_File mode 1 (ctx_gid req) (ctx_uid req) ;;
      AddChild parent name ino ;;
      ReplyEntry ino
    else fuse_reply_err ENOENT.

(** [FuseRamFs::FuseMkdir] *)
Definition FuseMkdir (req : fuse_ctx) (parent : N) (name : string) (mode : N) : M unit :=
  sz <- Inodes_size ;;
  if sz <=? parent then fuse_reply_err ENOENT
  else
    parentInode <- Inodes_at parent ;;
    if negb (is_Directory parentInode) then fuse_reply_err ENOTDIR
    else if negb (child_number parentInode name =? INO_NOTFOUND) then fuse_reply_err EEXIST
    else
      ino <- RegisterInode new_Directory (N.lor mode S_IFDIR) 2 (ctx_gid req) (ctx_uid req) ;;
      AddChild ino "." ino ;;
      AddChild ino ".." parent ;;
      AddHardLink parent ;;
      AddChild parent name ino ;;
      ReplyEntry ino.

(** [FuseRamFs::FuseUnlink].  [ino == -1] compares with all ones. *)
Definition FuseUnlink (parent : N) (name : string) : M unit :=
  numInodes <- Inodes_size ;;
  if numInodes <=? parent then fuse_reply_err ENOENT
  else
    parentInode <- Inodes_at parent ;;
    if null_or_unlinked parentInode then fuse_reply_err ENOENT
    else if negb (is_Directory parentInode) then fuse_reply_err ENOTDIR
    else
      let ino := child_number parentInode name in
      if ino =? INO_NOTFOUND then fuse_reply_err ENOENT
      else
        RemoveChild parent name ;;
        _ <- Inodes_at ino ;;
        RemoveHardLink ino ;;
        fuse_reply_err 0.

(** [while (!dir_p->HasNoLinks()) dir_p->RemoveHardLink();]: the loop body
    runs once for each link the directory has. *)
Definition RemoveAllHardLinks_obj (i : Inode) : Inode :=
  N.iter (i_nlink i) (fun j => if HasNoLinks j then j else RemoveHardLink_obj j) i.

(** [FuseRamFs::FuseRmdir] *)
Definition FuseRmdir (parent : N) (name : string) : M unit :=
  sz <- Inodes_size ;;
  if sz <=? parent then fuse_reply_err ENOENT
  else
    parentInode <- Inodes_at parent ;;
    if null_or_unlinked parentInode then fuse_reply_err ENOENT
    else if negb (is_Directory parentInode) then fuse_reply_err ENOTDIR
    else
      let ino := child_number parentInode name in
      if ino =? INO_NOTFOUND then fuse_reply_err ENOENT
      else if ino =? parent then fuse_reply_err EINVAL
      else
        inode_p <- Inodes_at ino ;;
        if null_or_unlinked inode_p then fuse_reply_err ENOENT
        else if negb (is_Directory inode_p) then fuse_reply_err ENOTDIR
        else if 2 <? StdMap.size (children_of inode_p) then fuse_reply_err ENOTEMPTY
        else
          RemoveChild parent name ;;
          RemoveHardLink parent ;;
          method ino RemoveAllHardLinks_obj ;;
          fuse_reply_err 0.

(** [FuseRamFs::FuseForget].  There is no test of [ino] against the size of
    the table, and nothing is sent for an empty slot. *)
Definition FuseForget (ino : N) (nlookup : N) : M unit :=
  inode_p <- Inodes_at ino ;;
  match inode_p with
  | None => ret tt
  | Some _ =>
      Forget ino nlookup ;;
      i <- deref ino ;;
      if Forgotten i then
        if HasNoLinks i then
          let blocks_freed := UsedBlocks i in
          Inodes_store ino None ;;
          UpdateUsedInodes (neg64 blocks_freed) ;;
          modify_fs (fun fs => with_DeletedInodes (DeletedInodes fs ++ [ino]) fs)
        else ret tt
      else ret tt
  end.

(** [FuseRamFs::FuseWrite]; [buf] is [None] for a null pointer. *)
Definition FuseWrite (ino : N) (buf : option (list byte)) (size off : N) : M unit :=
  match buf with
  | None => fuse_reply_err EINVAL
  | Some bytes =>
      sz <- Inodes_size ;;
      if sz <=? ino then fuse_reply_err ENOENT
      else
        inode_p <- Inodes_at ino ;;
        if null_or_unlinked inode_p then fuse_reply_err ENOENT
        else WriteAndReply ino bytes size off
  end.

(** [FuseRamFs::FuseFlush] *)
Definition FuseFlush (ino : N) : M unit :=
  sz <- Inodes_size ;;
  if sz <=? ino then fuse_reply_err ENOENT
  else fuse_reply_err 0.

(** [FuseRamFs::FuseRead] *)
Definition FuseRead (ino : N) (size off : N) : M unit :=
  sz <- Inodes_size ;;
  if sz <=? ino then fuse_reply_err ENOENT
  else
    inode_p <- Inodes_at ino ;;
    if null_or_unlinked inode_p then fuse_reply_err ENOENT
    else ReadAndReply ino size off.

(** [FuseRamFs::FuseRename].  The inode whose link is removed when the new
    name exists is read from [Inodes[parent]]. *)
Definition FuseRename (parent : N) (name : string) (newparent : N) (newname : string)
    : M unit :=
  sz <- Inodes_size ;;
  if sz <=? parent then fuse_reply_err ENOENT
  else
    parentInode <- Inodes_at parent ;;
    if null_or_unlinked parentInode then fuse_reply_err ENOENT
    else if negb (is_Directory parentInode) then fuse_reply_err ENOTDIR
    else
      let ino := child_number parentInode name in
      if ino =? INO_NOTFOUND then fuse_reply_err ENOENT
      else if sz <=? newparent then fuse_reply_err ENOENT
      else
        newParentInode <- Inodes_at newparent ;;
        if null_or_unlinked newParentInode then fuse_reply_err ENOENT
        else if negb (is_Directory newParentInode) then fuse_reply_err ENOTDIR
        else
          let existingIno := child_number newParentInode newname in
          (if negb (existingIno =? INO_NOTFOUND) then
             _ <- Inodes_at parent ;;
             RemoveHardLink parent
           else ret tt) ;;
          UpdateChild newparent newname ino ;;
          UpdateChild parent name 0 ;;
          fuse_reply_err 0.

(** [FuseRamFs::FuseLink].  The test for an existing name replies and does
    not return. *)
Definition FuseLink (ino newparent : N) (newname : string) : M unit :=
  sz <- Inodes_size ;;
  if sz <=? newparent then fuse_reply_err ENOENT
  else
    inode_p <- Inodes_at newparent ;;
    if null_or_unlinked inode_p then fuse_reply_err ENOENT
    else if negb (is_Directory inode_p) then fuse_reply_err ENOTDIR
    else if sz <=? ino then fuse_reply_err ENOENT
    else
      let newParentDir_p := inode_p in
      inode_p <- Inodes_at ino ;;
      if null_or_unlinked inode_p then fuse_reply_err ENOENT
      else
        let existingIno := child_number newParentDir_p newname in
        (if negb (existingIno =? INO_NOTFOUND) && (0 <? existingIno)
         then fuse_reply_err EEXIST else ret tt) ;;
        AddChild newparent newname ino ;;
        AddHardLink ino ;;
        ReplyEntry ino.

(** [FuseRamFs::FuseSymlink] *)
Definition FuseSymlink (req : fuse_ctx) (link : string) (parent : N) (name : string)
    : M unit :=
  sz <- Inodes_size ;;
  if sz <=? parent then fuse_reply_err ENOENT
  else
    parent_p <- Inodes_at parent ;;
    if null_or_unlinked parent_p then fuse_reply_err ENOENT
    else if negb (is_Directory parent_p) then fuse_reply_err ENOTDIR
    else
      ino <- RegisterInode (new_SymLink link) (N.lor S_IFLNK 493) 1
                           (ctx_gid req) (ctx_uid req) ;;
      AddChild parent name ino ;;
      ReplyEntry ino.

(** [FuseRamFs::FuseReadLink] *)
Definition FuseReadLink (ino : N) : M unit :=
  sz <- Inodes_size ;;
  if sz <=? ino then fuse_reply_err ENOENT
  else
    inode_p <- Inodes_at ino ;;
    if null_or_unlinked inode_p then fuse_reply_err ENOENT
    else if negb (is_SymLink inode_p) then fuse_reply_err EINVAL
    else
      link_p <- deref ino ;;
      fuse_reply (reply_readlink (Link link_p)).

(** [FuseRamFs::FuseStatfs] *)
Definition FuseStatfs (ino : N) : M unit :=
  fs <- get_fs ;;
  fuse_reply (reply_statfs (m_stbuf fs)).

(** [FuseRamFs::FuseSetXAttr], not on Apple: [position] is 0. *)
Definition FuseSetXAttr (ino : N) (name : string) (value : list byte) (size flags : N)
    : M unit :=
  sz <- Inodes_size ;;
  if sz <=? ino then fuse_reply_err ENOENT
  else
    inode_p <- Inodes_at ino ;;
    if null_or_unlinked inode_p then fuse_reply_err ENOENT
    else SetXAttrAndReply ino name value size flags 0.

(** [FuseRamFs::FuseGetXAttr], not on Apple: [position] is 0. *)
Definition FuseGetXAttr (ino : N) (name : string) (size : N) : M unit :=
  sz <- Inodes_size ;;
  if sz <=? ino then fuse_reply_err ENOENT
  else
    inode_p <- Inodes_at ino ;;
    if null_or_unlinked inode_p then fuse_reply_err ENOENT
    else GetXAttrAndReply ino name size 0.

(** [FuseRamFs::FuseListXAttr] *)
Definition FuseListXAttr (ino : N) (size : N) : M unit :=
  sz <- Inodes_size ;;
  if sz <=? ino then fuse_reply_err ENOENT
  else
    inode_p <- Inodes_at ino ;;
    if null_or_unlinked inode_p then fuse_reply_err ENOENT
    else ListXAttrAndReply ino size.

(** [FuseRamFs::FuseRemoveXAttr] *)
Definition FuseRemoveXAttr (ino : N) (name : string) : M unit :=
  sz <- Inodes_size ;;
  if sz <=? ino then fuse_reply_err ENOENT
  else
    inode_p <- Inodes_at ino ;;
    if null_or_unlinked inode_p then fuse_reply_err ENOENT
    else RemoveXAttrAndReply ino name.

(** [FuseRamFs::FuseAccess] *)
Definition FuseAccess (req : fuse_ctx) (ino : N) (mask : N) : M unit :=
  sz <- Inodes_size ;;
  if sz <=? ino then fuse_reply_err ENOENT
  else
    inode_p <- Inodes_at ino ;;
    if null_or_unlinked inode_p then fuse_reply_err ENOENT
    else ReplyAccess ino mask (ctx_gid req) (ctx_uid req).

(** [FuseRamFs::FuseCreate] *)
Definition FuseCreate (req : fuse_ctx) (parent : N) (name : string) (mode : N) : M unit :=
  sz <- Inodes_size ;;
  if sz <=? parent then fuse_reply_err ENOENT
  else
    parent_p <- Inodes_at parent ;;
    if null_or_unlinked parent_p then fuse_reply_err ENOENT
    else if negb (is_Directory parent_p) then fuse_reply_err ENOTDIR
    else
      ino <- RegisterInode new_File mode 1 (ctx_gid req) (ctx_uid req) ;;
      AddChild parent name ino ;;
      ReplyCreate ino.

(** [FuseRamFs::FuseGetLock]: past the test of [ino], nothing is sent. *)
Definition FuseGetLock (ino : N) : M unit :=
  sz <- Inodes_size ;;
  if sz <=? ino then fuse_reply_err ENOENT
  else
    _ <- Inodes_at ino ;;
    ret tt.

(** *** Reading a directory *)

(** [fuse_add_direntry] returns the padded length of the entry, whether it
    fitted or not: the 24 bytes before the name, the name, rounded up to a
    multiple of 8. *)
Definition fuse_dirent_size (name : string) : N :=
  (24 + N.of_nat (String.length name) + 7) / 8 * 8.

(** The bindings from the node of an iterator on, with the key of the node
    before it (what [--] moves to); [None] when the key is not in the map. *)
Fixpoint seek {V} (k : string) (prev : iterator) (m : StdMap.t V)
    : option (iterator * StdMap.t V) :=
  match m with
  | [] => None
  | (k', v) :: m' =>
      if String.eqb k k' then Some (prev, m) else seek k (Some k') m'
  end.

(** [Children().begin()] *)
Definition begin {V} (m : StdMap.t V) : iterator :=
  match m with
  | [] => None
  | (k, _) :: _ => Some k
  end.

(** The [while] loop of [FuseReadDir].  [rest] is what is left of the
    children from the iterator on and [prev] the key before it; the result is
    the iterator, [bytesAdded] and the entries in the buffer when the loop is
    left.  A child whose slot is empty makes the loop [continue] without
    moving the iterator. *)
Fixpoint ReadDir_loop (table : list (option Inode)) (kReadDirEntriesPerResponse bufSize : N)
    (cookie : N) (prev : iterator) (rest : StdMap.t N)
    (entriesAdded bytesAdded : N) (buf : list dirent)
    : Fault + (iterator * N * list dirent) :=
  match rest with
  | [] => inr (None, bytesAdded, buf)
  | (name, child_ino) :: rest' =>
      if negb (entriesAdded <? kReadDirEntriesPerResponse) then inr (Some name, bytesAdded, buf)
      else
        match table !! N.to_nat child_ino with
        | None => inl OutOfBounds
        | Some None => inl Diverges
        | Some (Some childInode) =>
            let stbuf :=
              mkStat child_ino (i_mode childInode) (i_nlink childInode)
                     (i_uid childInode) (i_gid childInode) (i_size childInode)
                     (UsedBlocks childInode) in
            let oldSize := bytesAdded in
            let bytesAdded := bytesAdded + fuse_dirent_size name in
            if bufSize <? bytesAdded then
              match prev with
              | None => inl InvalidIterator
              | Some p => inr (Some p, oldSize, buf)
              end
            else
              ReadDir_loop table kReadDirEntriesPerResponse bufSize cookie
                           (Some name) rest' (entriesAdded + 1) bytesAdded
                           (buf ++ [mkDirent name stbuf cookie])
        end
  end.

(** [FuseRamFs::FuseReadDir].  [off] is the pointer to the iterator of an
    earlier call, or 0; the two limits come from the header.  [malloc] is
    taken to succeed. *)
Definition FuseReadDir (kReadDirBufSize kReadDirEntriesPerResponse : N)
    (ino : N) (size : N) (off : N) : M unit :=
  numInodes <- Inodes_size ;;
  if numInodes <=? ino then fuse_reply_err ENOENT
  else
    inode <- Inodes_at ino ;;
    if null_or_unlinked inode then fuse_reply_err ENOENT
    else if negb (is_Directory inode) then fuse_reply_err ENOTDIR
    else
      fs <- get_fs ;;
      let children := children_of inode in
      (* the iterator behind [off], when [off] is not null *)
      match (if off =? 0 then Some None
             else option_map Some (m_iterators fs !! N.to_nat (off - 1))) with
      | None => crash InvalidIterator
      | Some (Some None) => fuse_reply (reply_buf [])
      | Some old =>
          let bufSize := if kReadDirBufSize <? size then kReadDirBufSize else size in
          (* [childIterator], and the iterator it points to *)
          let childIterator := if off =? 0 then N.of_nat (length (m_iterators fs)) + 1 else off in
          let it := match old with Some it => it | None => begin children end in
          (if off =? 0
           then modify_fs (fun fs => with_iterators (m_iterators fs ++ [it]) fs)
           else ret tt) ;;
          match (match it with
                 | None => Some (None, [])
                 | Some k => seek k None children
                 end) with
          | None => crash InvalidIterator
          | Some (prev, rest) =>
              match ReadDir_loop (Inodes fs) kReadDirEntriesPerResponse bufSize
                                 childIterator prev rest 0 0 [] with
              | inl f => crash f
              | inr (it', bytesAdded, buf) =>
                  modify_fs (fun fs =>
                    with_iterators (<[N.to_nat (childIterator - 1) := it']> (m_iterators fs)) fs) ;;
                  fuse_reply (reply_dirbuf buf bytesAdded)
              end
          end
      end.

(** ** A session: callbacks one after the other *)

(** The state after a callback, whatever it sent; [None] once the program
    has gone wrong. *)
Definition state_after {A} (r : Result A) : option FuseRamFs :=
  match r with
  | Ok _ fs _ => Some fs
  | Crash _ _ _ => None
  end.

(** The replies of a callback. *)
Definition replies {A} (r : Result A) : list Reply :=
  match r with
  | Ok _ _ sent => sent
  | Crash _ _ sent => sent
  end.

(** Runs the callbacks of a list in turn, each with a fresh request. *)
Fixpoint session (calls : list (M unit)) (fs : FuseRamFs) : option FuseRamFs :=
  match calls with
  | [] => Some fs
  | c :: calls' =>
      match run c fs with
      | Ok _ fs' _ => session calls' fs'
      | Crash _ _ _ => None
      end
  end.

(** The inode in slot [n] of the table, if the slot exists and is not empty. *)
Definition inode_at (fs : FuseRamFs) (n : N) : option Inode :=
  match Inodes fs !! N.to_nat n with
  | Some p => p
  | None => None
  end.

(** The state with the object in slot [n] replaced. *)
Definition store (fs : FuseRamFs) (n : N) (i : Inode) : FuseRamFs :=
  with_Inodes (<[N.to_nat n := Some i]> (Inodes fs)) fs.

(** ** The callbacks that test their inode for links *)

(** The requests whose callback reads the inode it is given from the table and
    tests it with [inode == nullptr || inode->HasNoLinks()] before anything
    else looks at it.  The inode number is not part of the request: it is
    the inode of the requests on one inode, the parent directory of [mknod],
    [unlink], [rmdir], [symlink] and [create], the old parent of [rename] and
    the new parent of [link]. *)
Inductive Request : Type :=
| Req_getattr
| Req_setattr (attr : stat) (to_set : N)
| Req_opendir
| Req_releasedir
| Req_readdir (kReadDirBufSize kReadDirEntriesPerResponse size off : N)
| Req_open
| Req_release
| Req_read (size off : N)
| Req_write (buf : list byte) (size off : N)
| Req_readlink
| Req_setxattr (name : string) (value : list byte) (size flags : N)
| Req_getxattr (name : string) (size : N)
| Req_listxattr (size : N)
| Req_removexattr (name : string)
| Req_access (req : fuse_ctx) (mask : N)
| Req_mknod (req : fuse_ctx) (name : string) (mode rdev : N)
| Req_unlink (name : string)
| Req_rmdir (name : string)
| Req_rename (name : string) (newparent : N) (newname : string)
| Req_link (ino : N) (newname : string)
| Req_symlink (req : fuse_ctx) (link : string) (name : string)
| Req_create (req : fuse_ctx) (name : string) (mode : N).

(** The callback of a request on the inode [ino]. *)
Definition callback (r : Request) (ino : N) : M unit :=
  match r with
  | Req_getattr => FuseGetAttr ino
  | Req_setattr attr to_set => FuseSetAttr ino attr to_set
  | Req_opendir => FuseOpenDir ino
  | Req_releasedir => FuseReleaseDir ino
  | Req_readdir bufsz entries size off => FuseReadDir bufsz entries ino size off
  | Req_open => FuseOpen ino
  | Req_release => FuseRelease ino
  | Req_read size off => FuseRead ino size off
  | Req_write buf size off => FuseWrite ino (Some buf) size off
  | Req_readlink => FuseReadLink ino
  | Req_setxattr name value size flags => FuseSetXAttr ino name value size flags
  | Req_getxattr name size => FuseGetXAttr ino name size
  | Req_listxattr size => FuseListXAttr ino size
  | Req_removexattr name => FuseRemoveXAttr ino name
  | Req_access req mask => FuseAccess req ino mask
  | Req_mknod req name mode rdev => FuseMknod req ino name mode rdev
  | Req_unlink name => FuseUnlink ino name
  | Req_rmdir name => FuseRmdir ino name
  | Req_rename name newparent newname => FuseRename ino name newparent newname
  | Req_link target newname => FuseLink target ino newname
  | Req_symlink req link name => FuseSymlink req link ino name
  | Req_create req name mode => FuseCreate req ino name mode
  end.

(** What registration as a symbolic link sets, and [FuseSymlink] keeps. *)
Definition is_new_symlink (req : fuse_ctx) (link : string) (ino : N) (i : Inode) : Prop :=
  body i = SymLink link /\ i_ino i = ino /\
  i_mode i = N.lor S_IFLNK 493 /\ i_nlink i = 1 /\
  i_uid i = ctx_uid req /\ i_gid i = ctx_gid req.

(** ** Example states *)

Module Examples.

(** The file system as constructed, with room for 1000 blocks and 100
    inodes, and a caller. *)
Definition fresh : FuseRamFs := FuseRamFs_new 1000 100 7 255.
Definition caller : fuse_ctx := mkCtx 10 20.

(** Mode of a regular file, [S_IFREG | 0644]. *)
Definition reg : N := N.lor S_IFREG 420.

Definition after (calls : list (M unit)) : FuseRamFs :=
  match session calls fresh with
  | Some fs => fs
  | None => fresh
  end.

(** Just mounted: the special inode in slot 0 and the root in slot 1. *)
Definition mounted : FuseRamFs := after [FuseInit 5 6].

(** Files "a" (inode 2) and "b" (inode 3) in the root. *)
Definition two_files : FuseRamFs :=
  after [FuseInit 5 6; FuseCreate caller 1 "a" reg; FuseCreate caller 1 "b" reg].

(** "a" renamed over "b". *)
Definition renamed : FuseRamFs :=
  after [FuseInit 5 6; FuseCreate caller 1 "a" reg; FuseCreate caller 1 "b" reg;
         FuseRename 1 "a" 1 "b"].

(** A file "f" (inode 2) created and unlinked, the kernel still holding
    its one reference. *)
Definition unlinked : FuseRamFs :=
  after [FuseInit 5 6; FuseCreate caller 1 "f" reg; FuseUnlink 1 "f"].

(** The same file with one byte written at offset 4096 (two blocks) before
    it is unlinked. *)
Definition unlinked_two_blocks : FuseRamFs :=
  after [FuseInit 5 6; FuseCreate caller 1 "f" reg;
         FuseWrite 2 (Some [x41]) 1 4096; FuseUnlink 1 "f"].

(** The unlinked file forgotten: slot 2 is empty and queued for reuse. *)
Definition released : FuseRamFs :=
  after [FuseInit 5 6; FuseCreate caller 1 "f" reg; FuseUnlink 1 "f"; FuseForget 2 1].

(** A directory "d" (inode 2) made with [mkdir], holding a file "x". *)
Definition dir_with_file : FuseRamFs :=
  after [FuseInit 5 6; FuseMkdir caller 1 "d" 493; FuseCreate caller 2 "x" reg].

(** A directory "d" (inode 2) made with [mknod], holding a file "x". *)
Definition mknod_dir_with_file : FuseRamFs :=
  after [FuseInit 5 6; FuseMknod caller 1 "d" (N.lor S_IFDIR 493) 0;
         FuseMknod caller 2 "x" reg 0].

(** A symbolic link "s" to "/tmp/x" made in the root, and the entry that
    answers the request. *)
Definition symlinked : FuseRamFs :=
  after [FuseInit 5 6; FuseSymlink caller "/tmp/x" 1 "s"].

Definition symlink_entry : stat := mkStat 2 (N.lor S_IFLNK 493) 1 10 20 6 0.

End Examples.

(** ** Every callback on an inode *)

(** A request to any of the callbacks that take an inode number, with the
    number left out: the inode of the requests on one inode, the parent
    directory of [lookup], [mknod], [mkdir], [unlink], [rmdir], [symlink] and
    [create], the old parent of [rename] and the new parent of [link].  The
    buffer of [write] may be null. *)
Inductive Op : Type :=
| Op_lookup (name : string)
| Op_forget (nlookup : N)
| Op_getattr
| Op_setattr (attr : stat) (to_set : N)
| Op_readlink
| Op_mknod (req : fuse_ctx) (name : string) (mode rdev : N)
| Op_mkdir (req : fuse_ctx) (name : string) (mode : N)
| Op_unlink (name : string)
| Op_rmdir (name : string)
| Op_symlink (req : fuse_ctx) (link : string) (name : string)
| Op_rename (name : string) (newparent : N) (newname : string)
| Op_link (target : N) (newname : string)
| Op_open
| Op_read (size off : N)
| Op_write (buf : option (list byte)) (size off : N)
| Op_flush
| Op_release
| Op_fsync
| Op_opendir
| Op_readdir (kReadDirBufSize kReadDirEntriesPerResponse size off : N)
| Op_releasedir
| Op_fsyncdir
| Op_statfs
| Op_setxattr (name : string) (value : list byte) (size flags : N)
| Op_getxattr (name : string) (size : N)
| Op_listxattr (size : N)
| Op_removexattr (name : string)
| Op_access (req : fuse_ctx) (mask : N)
| Op_create (req : fuse_ctx) (name : string) (mode : N)
| Op_getlk.

(** The callback of a request, as [FuseOps] maps it. *)
Definition perform (o : Op) (ino : N) : M unit :=
  match o with
  | Op_lookup name => FuseLookup ino name
  | Op_forget nlookup => FuseForget ino nlookup
  | Op_getattr => FuseGetAttr ino
  | Op_setattr attr to_set => FuseSetAttr ino attr to_set
  | Op_readlink => FuseReadLink ino
  | Op_mknod req name mode rdev => FuseMknod req ino name mode rdev
  | Op_mkdir req name mode => FuseMkdir req ino name mode
  | Op_unlink name => FuseUnlink ino name
  | Op_rmdir name => FuseRmdir ino name
  | Op_symlink req link name => FuseSymlink req link ino name
  | Op_rename name newparent newname => FuseRename ino name newparent newname
  | Op_link target newname => FuseLink target ino newname
  | Op_open => FuseOpen ino
  | Op_read size off => FuseRead ino size off
  | Op_write buf size off => FuseWrite ino buf size off
  | Op_flush => FuseFlush ino
  | Op_release => FuseRelease ino
  | Op_fsync => FuseFsync ino
  | Op_opendir => FuseOpenDir ino
  | Op_readdir bufsz entries size off => FuseReadDir bufsz entries ino size off
  | Op_releasedir => FuseReleaseDir ino
  | Op_fsyncdir => FuseFsyncDir ino
  | Op_statfs => FuseStatfs ino
  | Op_setxattr name value size flags => FuseSetXAttr ino name value size flags
  | Op_getxattr name size => FuseGetXAttr ino name size
  | Op_listxattr size => FuseListXAttr ino size
  | Op_removexattr name => FuseRemoveXAttr ino name
  | Op_access req mask => FuseAccess req ino mask
  | Op_create req name mode => FuseCreate req ino name mode
  | Op_getlk => FuseGetLock ino
  end.

(** The requests whose callback starts with [if (ino >= Inodes.size())],
    replies ENOENT there and returns.  [forget] and [statfs] have no such
    test, [getattr] and [setattr] do not return after it, and [write] tests
    its buffer first. *)
Definition tests_bound (o : Op) : bool :=
  match o with
  | Op_forget _ | Op_getattr | Op_setattr _ _ | Op_statfs | Op_write None _ _ => false
  | _ => true
  end.

(** What each callback sends when the slot of its inode holds [nullptr]. *)
Definition replies_on_empty_slot (o : Op) (fs : FuseRamFs) : list Reply :=
  match o with
  | Op_forget _ | Op_getlk => []
  | Op_flush | Op_fsync => [reply_err 0]
  | Op_statfs => [reply_statfs (m_stbuf fs)]
  | Op_lookup _ | Op_mkdir _ _ _ | Op_fsyncdir => [reply_err ENOTDIR]
  | Op_write None _ _ => [reply_err EINVAL]
  | _ => [reply_err ENOENT]
  end.

(** The error of the callbacks that need a directory, when the inode has
    links and is not one; [None] for the other callbacks. *)
Definition errno_on_non_directory (o : Op) : option N :=
  match o with
  | Op_mknod _ _ _ _ => Some EISDIR
  | Op_lookup _ | Op_mkdir _ _ _ | Op_unlink _ | Op_rmdir _ | Op_symlink _ _ _
  | Op_rename _ _ _ | Op_link _ _ | Op_readdir _ _ _ _ | Op_fsyncdir
  | Op_create _ _ _ => Some ENOTDIR
  | _ => None
  end.

(** ** The queue and the empty slots *)

(** [DeletedInodes] holds each number once, and a number is in it exactly when
    its slot of the table holds [nullptr]. *)
Definition slots_queued (fs : FuseRamFs) : Prop :=
  NoDup (DeletedInodes fs) /\
  forall n, n ∈ DeletedInodes fs <-> Inodes fs !! N.to_nat n = Some None.

(** The number the next registration gives out. *)
Definition next_ino (fs : FuseRamFs) : N :=
  match DeletedInodes fs with
  | [] => N.of_nat (length (Inodes fs))
  | front :: _ => front
  end.

(** A predicate on states that a computation keeps, when it returns. *)
Definition preserves {A} (P : FuseRamFs -> Prop) (c : M A) : Prop :=
  forall fs sent a fs' sent', P fs -> c fs sent = Ok a fs' sent' -> P fs'.

(** The statistics block as [FuseInit] resets it. *)
Definition reset_stbuf (s : statvfs) : statvfs :=
  mkStatvfs (f_bsize s) (f_frsize s) (f_blocks s) (f_blocks s) (f_blocks s)
            (f_files s) (f_files s) (f_files s) (f_fsid s) 0 (f_namemax s).

(** The state with slot [n] emptied and queued. *)
Definition release (fs : FuseRamFs) (n : N) : FuseRamFs :=
  with_DeletedInodes (DeletedInodes fs ++ [n])
    (with_Inodes (<[N.to_nat n := None]> (Inodes fs)) fs).

(** ** Sessions of callbacks *)

(** A call of the transport: the initialization, or a callback on an inode. *)
Inductive Call : Type :=
| Call_init (gid uid : N)
| Call_on (o : Op) (ino : N).

Definition call (c : Call) : M unit :=
  match c with
  | Call_init gid uid => FuseInit gid uid
  | Call_on o ino => perform o ino
  end.

(** The constants of the statistics block. *)
Definition capacity (fs : FuseRamFs) : N * N * N * N * N * N :=
  let s := m_stbuf fs in
  (f_bsize s, f_frsize s, f_blocks s, f_files s, f_fsid s, f_namemax s).

(** The bytes that directory entries with these names take in a buffer. *)
Definition dirents_size (names : list string) : N :=
  fold_right (fun name acc => fuse_dirent_size name + acc) 0 names.

(** An entry of a directory buffer made for the binding of [name] to [c]:
    the attributes of the inode in slot [c] with [st_ino] set to [c], and the
    pointer to the iterator as offset. *)
Definition entry_for (table : list (option Inode)) (cookie : N)
    (binding : string * N) (e : dirent) : Prop :=
  d_name e = fst binding /\ d_off e = cookie /\
  exists i, table !! N.to_nat (snd binding) = Some (Some i) /\
            d_attr e = mkStat (snd binding) (i_mode i) (i_nlink i) (i_uid i) (i_gid i)
                              (i_size i) (UsedBlocks i).

Module MoreExamples.

(** A session that creates, unlinks and forgets a file. *)
Definition create_unlink_forget : list Call :=
  [Call_init 5 6; Call_on (Op_create Examples.caller "f" Examples.reg) 1;
   Call_on (Op_unlink "f") 1; Call_on (Op_forget 1) 2].

(** The root directory of the mounted file system, and with the files "a"
    and "b". *)
Definition root : Inode :=
  mkInode (Directory [(".", 1); ("..", 1)]%string) 1 (N.lor S_IFDIR 511) 3 6 5 0 0 [].

Definition root_ab : Inode :=
  mkInode (Directory [(".", 1); ("..", 1); ("a", 2); ("b", 3)]%string) 1
          (N.lor S_IFDIR 511) 3 6 5 0 0 [].

(** A regular file of the caller in slot [n], looked up once. *)
Definition file (n : N) : Inode := mkInode (File []) n Examples.reg 1 10 20 0 1 [].

(** A directory "d" (inode 2) made with [mkdir] in the root, the root then,
    and the directory. *)
Definition with_dir : FuseRamFs :=
  Examples.after [FuseInit 5 6; FuseMkdir Examples.caller 1 "d" 493].

Definition root_d : Inode :=
  mkInode (Directory [(".", 1); ("..", 1); ("d", 2)]%string) 1
          (N.lor S_IFDIR 511) 4 6 5 0 0 [].

Definition dir_d : Inode :=
  mkInode (Directory [(".", 2); ("..", 1)]%string) 2 (N.lor 493 S_IFDIR) 2 10 20 0 1 [].

(** The entries of the root with the files "a" and "b", as the first
    [readdir] lays them out, and the state after it. *)
Definition listing : list dirent :=
  [mkDirent "." (mkStat 1 (N.lor S_IFDIR 511) 3 6 5 0 0) 1;
   mkDirent ".." (mkStat 1 (N.lor S_IFDIR 511) 3 6 5 0 0) 1;
   mkDirent "a" (mkStat 2 Examples.reg 1 10 20 0 0) 1;
   mkDirent "b" (mkStat 3 Examples.reg 1 10 20 0 0) 1].

Definition listed : FuseRamFs := with_iterators [None] Examples.two_files.

(** A directory "d" (inode 2) that is also linked as "e", removed with
    [rmdir] and forgotten: "e" names the empty slot 2. *)
Definition dangling : FuseRamFs :=
  Examples.after [FuseInit 5 6; FuseMkdir Examples.caller 1 "d" 493; FuseLink 2 1 "e";
                  FuseRmdir 1 "d"; FuseForget 2 2].

Definition root_e : Inode :=
  mkInode (Directory [(".", 1); ("..", 1); ("e", 2)]%string) 1
          (N.lor S_IFDIR 511) 3 6 5 0 0 [].

End MoreExamples.

(** * Properties *)

(** ** The map *)

Lemma compare_same (k : string) : String.compare k k = Eq.
Proof.
  pose proof (String.compare_antisym k k) as A.
  destruct (String.compare k k); [reflexivity | discriminate | discriminate].
Qed.

Lemma find_assign_eq {V} (k : string) (v : V) (m : StdMap.t V) :
  StdMap.find k (StdMap.assign k v m) = Some v.
Proof.
  induction m as [|[k' v'] m IH]; cbn.
  - now rewrite String.eqb_refl.
  - destruct (String.compare k k') eqn:C; cbn.
    + now rewrite String.eqb_refl.
    + now rewrite String.eqb_refl.
    + destruct (String.eqb k k') eqn:E; [|exact IH].
      apply String.eqb_eq in E. subst k'.
      rewrite compare_same in C. discriminate.
Qed.


Lemma find_erase_ne {V} (k k' : string) (m : StdMap.t V) :
  k <> k' -> StdMap.find k' (StdMap.erase k m) = StdMap.find k' m.
Proof.
  intros Hne. induction m as [|[k0 v0] m IH]; cbn; [reflexivity|].
  destruct (String.eqb k k0) eqn:E; cbn.
  - apply String.eqb_eq in E. subst k0.
    destruct (String.eqb k' k) eqn:E'; [|exact IH].
    apply String.eqb_eq in E'. congruence.
  - now rewrite IH.
Qed.

Lemma length_erase_le {V} (k : string) (m : StdMap.t V) :
  (length (StdMap.erase k m) <= length m)%nat.
Proof.
  induction m as [|[k0 v0] m IH]; cbn; [lia|].
  destruct (String.eqb k k0); cbn; lia.
Qed.

Lemma length_erase_found {V} (k : string) (m : StdMap.t V) :
  StdMap.find k m <> None -> (length (StdMap.erase k m) < length m)%nat.
Proof.
  induction m as [|[k0 v0] m IH]; cbn; [congruence|].
  destruct (String.eqb k k0); cbn.
  - intros _. pose proof (length_erase_le k m). lia.
  - intros H. specialize (IH H). lia.
Qed.

(** A map with three different keys has more than two bindings. *)
Lemma three_keys {V} (k1 k2 k3 : string) (m : StdMap.t V) :
  k1 <> k2 -> k1 <> k3 -> k2 <> k3 ->
  StdMap.find k1 m <> None -> StdMap.find k2 m <> None -> StdMap.find k3 m <> None ->
  2 < StdMap.size m.
Proof.
  intros H12 H13 H23 F1 F2 F3.
  pose proof (length_erase_found k1 m F1) as L1.
  rewrite <- (find_erase_ne k1 k2) in F2 by assumption.
  rewrite <- (find_erase_ne k1 k3) in F3 by assumption.
  pose proof (length_erase_found k2 _ F2) as L2.
  rewrite <- (find_erase_ne k2 k3) in F3 by assumption.
  pose proof (length_erase_found k3 _ F3) as L3.
  unfold StdMap.size. lia.
Qed.

(** ** The monad on a table whose slots are known *)

Lemma Inodes_at_Some fs sent n p :
  Inodes fs !! N.to_nat n = Some p -> Inodes_at n fs sent = Ok p fs sent.
Proof. intros H. unfold Inodes_at. now rewrite H. Qed.

Lemma deref_Some fs sent n i :
  Inodes fs !! N.to_nat n = Some (Some i) -> deref n fs sent = Ok i fs sent.
Proof. intros H. unfold deref, bind. now rewrite (Inodes_at_Some _ _ _ _ H). Qed.

Lemma method_Some fs sent n i f :
  Inodes fs !! N.to_nat n = Some (Some i) ->
  method n f fs sent = Ok tt (with_Inodes (<[N.to_nat n := Some (f i)]> (Inodes fs)) fs) sent.
Proof.
  intros H. unfold method, bind. rewrite (deref_Some _ _ _ _ H).
  unfold Inodes_store. now rewrite H.
Qed.

Lemma in_table fs n i :
  inode_at fs n = Some i ->
  Inodes fs !! N.to_nat n = Some (Some i) /\
  (N.of_nat (length (Inodes fs)) <=? n) = false.
Proof.
  unfold inode_at. destruct (Inodes fs !! N.to_nat n) as [[j|]|] eqn:E; try discriminate.
  intros [= ->]. split; [reflexivity|].
  apply lookup_lt_Some in E. apply N.leb_gt. lia.
Qed.

Lemma method_run fs sent n f i :
  inode_at fs n = Some i -> method n f fs sent = Ok tt (store fs n (f i)) sent.
Proof. intros H. apply in_table in H as [E _]. now apply method_Some. Qed.

Lemma deref_run fs sent n i :
  inode_at fs n = Some i -> deref n fs sent = Ok i fs sent.
Proof. intros H. apply in_table in H as [E _]. now apply deref_Some. Qed.

Lemma bind_run {A B} (c : M A) (k : A -> M B) fs sent a fs' sent' :
  c fs sent = Ok a fs' sent' -> bind c k fs sent = k a fs' sent'.
Proof. intros H. unfold bind. now rewrite H. Qed.

Lemma inode_at_store_eq fs n i j :
  inode_at fs n = Some i -> inode_at (store fs n j) n = Some j.
Proof.
  intros H. apply in_table in H as [E _]. unfold inode_at, store. cbn [Inodes with_Inodes].
  rewrite list_lookup_insert_eq by (eapply lookup_lt_Some; eauto). reflexivity.
Qed.

Lemma inode_at_store_ne fs n m j :
  m <> n -> inode_at (store fs n j) m = inode_at fs m.
Proof.
  intros H. unfold inode_at, store. cbn [Inodes with_Inodes].
  rewrite list_lookup_insert_ne by lia. reflexivity.
Qed.

Lemma push_back_index {A} (l : list A) (x : A) :
  N.of_nat (length (l ++ [x])) - 1 = N.of_nat (length l).
Proof. rewrite length_app. cbn [length]. lia. Qed.

Lemma lookup_push_back {A} (l : list A) (x : A) :
  (l ++ [x]) !! N.to_nat (N.of_nat (length l)) = Some x.
Proof.
  rewrite Nat2N.id, lookup_app_r by lia. now rewrite Nat.sub_diag.
Qed.

Lemma insert_push_back {A} (l : list A) (x y : A) :
  <[N.to_nat (N.of_nat (length l)) := y]> (l ++ [x]) = l ++ [y].
Proof.
  rewrite Nat2N.id. replace (length l) with (length l + 0)%nat at 1 by lia.
  now rewrite insert_app_r.
Qed.

(** ** What a run that did not go wrong has done *)

(** A member function called through a slot either goes wrong or updates
    exactly that slot. *)
Lemma method_inv fs sent n f fs' sent' :
  method n f fs sent = Ok tt fs' sent' ->
  exists i, Inodes fs !! N.to_nat n = Some (Some i) /\
            fs' = with_Inodes (<[N.to_nat n := Some (f i)]> (Inodes fs)) fs /\
            sent' = sent.
Proof.
  unfold method, deref, bind, Inodes_at, Inodes_store, ret, crash.
  destruct (Inodes fs !! N.to_nat n) as [[i|]|] eqn:E; try discriminate.
  rewrite E. intros [= <- <-]. now exists i.
Qed.

Lemma method_length fs sent n f fs' sent' :
  method n f fs sent = Ok tt fs' sent' -> length (Inodes fs') = length (Inodes fs).
Proof.
  intros H. apply method_inv in H as (i & _ & -> & _). cbn. apply length_insert.
Qed.

Lemma method_other fs sent n f fs' sent' m :
  method n f fs sent = Ok tt fs' sent' -> m <> n -> inode_at fs' m = inode_at fs m.
Proof.
  intros H Hne. apply method_inv in H as (i & _ & -> & _).
  unfold inode_at. cbn. rewrite list_lookup_insert_ne by lia. reflexivity.
Qed.

Lemma method_same fs sent n f fs' sent' :
  method n f fs sent = Ok tt fs' sent' ->
  exists i, inode_at fs n = Some i /\ inode_at fs' n = Some (f i).
Proof.
  intros H. apply method_inv in H as (i & E & -> & _).
  exists i. unfold inode_at. cbn. rewrite E.
  rewrite list_lookup_insert_eq by (eapply lookup_lt_Some; eauto). auto.
Qed.

(** A property of the inode in a slot that the member function keeps. *)
Lemma method_keeps (Q : Inode -> Prop) fs sent n f fs' sent' m i :
  method n f fs sent = Ok tt fs' sent' ->
  (forall j, Q j -> Q (f j)) ->
  inode_at fs m = Some i -> Q i ->
  exists i', inode_at fs' m = Some i' /\ Q i'.
Proof.
  intros H Hf Hm HQ. destruct (N.eq_dec m n) as [->|Hne].
  - destruct (method_same _ _ _ _ _ _ H) as (j & Hj & Hj').
    rewrite Hm in Hj. injection Hj as <-. eauto.
  - rewrite <- (method_other _ _ _ _ _ _ _ H Hne) in Hm. eauto.
Qed.

Lemma deref_inv fs sent n i fs' sent' :
  deref n fs sent = Ok i fs' sent' -> fs' = fs /\ sent' = sent /\ inode_at fs n = Some i.
Proof.
  unfold deref, bind, Inodes_at, ret, crash, inode_at.
  destruct (Inodes fs !! N.to_nat n) as [[j|]|]; try discriminate.
  intros [= <- <- <-]. auto.
Qed.

Lemma live_is_Some (o : option Inode) :
  null_or_unlinked o = false -> exists d, o = Some d /\ i_nlink d <> 0.
Proof.
  destruct o as [d|]; [|discriminate]. cbn. unfold HasNoLinks.
  intros H. exists d. split; [reflexivity|]. now apply N.eqb_neq.
Qed.

(** ** Tactics to run a callback *)

(** Unfolds the operations of the monad and computes what is known. *)
Ltac mred :=
  cbv beta iota zeta delta [run bind ret crash get_fs modify_fs fuse_reply fuse_reply_err
    Inodes_size Inodes_at Inodes_store Inodes_push_back deref method
    UpdateUsedInodes UpdateUsedBlocks
    Inodes DeletedInodes m_stbuf m_reclaimingInodes m_iterators
    with_Inodes with_stbuf with_DeletedInodes with_reclaiming with_iterators].

Ltac unfold_register := unfold RegisterInode; mred.

(** The scrutinee the value of a nest of matches waits for. *)
Ltac head_scrutinee t :=
  lazymatch t with
  | match ?x with _ => _ end => head_scrutinee x
  | (match ?x with _ => _ end) _ => head_scrutinee x
  | (match ?x with _ => _ end) _ _ => head_scrutinee x
  | _ => t
  end.

(** Unfolds the sequencing and the parts of the monad that only read. *)
Ltac mred_light :=
  cbv beta iota zeta delta [run bind ret crash get_fs modify_fs fuse_reply fuse_reply_err
    Inodes_size Inodes_at
    Inodes DeletedInodes m_stbuf m_reclaimingInodes m_iterators
    with_Inodes with_stbuf with_DeletedInodes with_reclaiming with_iterators];
  cbn [app].

(** One step of a run that is known to end with given replies: a case
    analysis on what the run waits for. *)
Ltac run_step E :=
  lazymatch goal with
  | |- ?lhs = _ -> _ =>
      let x := head_scrutinee lhs in
      first [ match goal with H : x = _ |- _ => rewrite H end
            | destruct x eqn:E ];
      mred_light; try (intros [=]; fail);
      repeat match goal with u : unit |- _ => destruct u end
  end.

Ltac unfold_callbacks :=
  unfold FuseGetAttr, FuseSetAttr, FuseOpenDir, FuseReleaseDir, FuseReadDir, FuseOpen,
    FuseRelease, FuseRead, FuseWrite, FuseReadLink, FuseSetXAttr, FuseGetXAttr,
    FuseListXAttr, FuseRemoveXAttr, FuseAccess, FuseMknod, FuseUnlink, FuseRmdir,
    FuseRename, FuseLink, FuseSymlink, FuseCreate, FuseFlush, FuseFsync, FuseStatfs.

(** ** Registration *)

(** With an empty queue the object goes to the end of the table. *)
Lemma RegisterInode_append fs sent inode_p mode nlink gid uid :
  DeletedInodes fs = [] ->
  RegisterInode inode_p mode nlink gid uid fs sent =
  let ino := N.of_nat (length (Inodes fs)) in
  let i := Initialize ino mode nlink gid uid inode_p in
  Ok ino
     (mkFs (Inodes fs ++ [Some i]) [] (m_reclaimingInodes fs)
           (debit_blocks (UsedBlocks i) (debit_inodes 1 (m_stbuf fs)))
           (m_iterators fs))
     sent.
Proof.
  destruct fs as [table q rc s its]. cbn [DeletedInodes]. intros ->.
  unfold_register.
  rewrite push_back_index, lookup_push_back, insert_push_back, !lookup_push_back.
  reflexivity.
Qed.

(** With a queued slot that is in the table the object goes to that slot. *)
Lemma RegisterInode_reuse fs sent inode_p mode nlink gid uid front rest :
  DeletedInodes fs = front :: rest ->
  (N.to_nat front < length (Inodes fs))%nat ->
  RegisterInode inode_p mode nlink gid uid fs sent =
  let i := Initialize front mode nlink gid uid inode_p in
  Ok front
     (mkFs (<[N.to_nat front := Some i]> (Inodes fs)) rest (m_reclaimingInodes fs)
           (debit_blocks (UsedBlocks i) (m_stbuf fs))
           (m_iterators fs))
     sent.
Proof.
  destruct fs as [table q rc s its]. cbn [DeletedInodes Inodes]. intros -> Hlt.
  destruct (lookup_lt_is_Some_2 table _ Hlt) as [p Hp].
  unfold_register.
  rewrite Hp. cbn [Inodes].
  repeat first [ rewrite list_lookup_insert_eq by (rewrite ?length_insert; lia)
               | rewrite list_insert_insert_eq ].
  reflexivity.
Qed.

(** A queued number that is not a slot of the table makes the store go out
    of bounds. *)
Lemma RegisterInode_stale fs sent inode_p mode nlink gid uid front rest :
  DeletedInodes fs = front :: rest ->
  (length (Inodes fs) <= N.to_nat front)%nat ->
  exists fs', RegisterInode inode_p mode nlink gid uid fs sent = Crash OutOfBounds fs' sent.
Proof.
  destruct fs as [table q rc s its]. cbn [DeletedInodes Inodes]. intros -> Hge.
  unfold_register.
  rewrite (lookup_ge_None_2 table _ Hge). eauto.
Qed.

Lemma RegisterInode_inv fs sent inode_p mode nlink gid uid ino fs' sent' :
  RegisterInode inode_p mode nlink gid uid fs sent = Ok ino fs' sent' ->
  sent' = sent /\
  inode_at fs' ino = Some (Initialize ino mode nlink gid uid inode_p).
Proof.
  destruct (DeletedInodes fs) as [|front rest] eqn:E.
  - rewrite (RegisterInode_append _ _ _ _ _ _ _ E). cbv zeta. intros [= <- <- <-].
    split; [reflexivity|]. unfold inode_at. cbn [Inodes]. now rewrite lookup_push_back.
  - destruct (Nat.lt_ge_cases (N.to_nat front) (length (Inodes fs))) as [Hlt|Hge].
    + rewrite (RegisterInode_reuse _ _ _ _ _ _ _ _ _ E Hlt). cbv zeta. intros [= <- <- <-].
      split; [reflexivity|]. unfold inode_at. cbn [Inodes].
      now rewrite list_lookup_insert_eq by lia.
    + destruct (RegisterInode_stale _ sent inode_p mode nlink gid uid _ _ E Hge) as [fs1 ->].
      discriminate.
Qed.

(** C8.  Registration takes the head of [DeletedInodes] when there is one
    (a slot of the table): the head is popped and the new inode is stored in
    that slot; otherwise it appends a slot, whose number is the length the
    table had.  In both cases the inode has the given mode, link count and
    owner, and a lookup count of zero. *)
Theorem RegisterInode_allocates fs inode_p mode nlink gid uid :
  (forall front rest, DeletedInodes fs = front :: rest ->
                      (N.to_nat front < length (Inodes fs))%nat) ->
  exists ino fs' i,
    run (RegisterInode inode_p mode nlink gid uid) fs = Ok ino fs' [] /\
    match DeletedInodes fs with
    | front :: rest =>
        ino = front /\ DeletedInodes fs' = rest /\
        Inodes fs' = <[N.to_nat front := Some i]> (Inodes fs)
    | [] =>
        ino = N.of_nat (length (Inodes fs)) /\ DeletedInodes fs' = [] /\
        Inodes fs' = Inodes fs ++ [Some i]
    end /\
    inode_at fs' ino = Some i /\
    body i = body inode_p /\
    i_mode i = mode /\ i_nlink i = nlink /\ i_uid i = uid /\ i_gid i = gid /\
    m_nlookup i = 0.
Proof.
  intros Hq. unfold run.
  destruct (DeletedInodes fs) as [|front rest] eqn:E.
  - rewrite (RegisterInode_append _ _ _ _ _ _ _ E). cbv zeta.
    eexists _, _, _. split; [reflexivity|].
    split; [repeat split|].
    unfold inode_at. cbn [Inodes]. rewrite lookup_push_back.
    repeat split.
  - specialize (Hq _ _ eq_refl).
    rewrite (RegisterInode_reuse _ _ _ _ _ _ _ _ _ E Hq). cbv zeta.
    eexists _, _, _. split; [reflexivity|].
    split; [repeat split|].
    unfold inode_at. cbn [Inodes]. rewrite list_lookup_insert_eq by lia.
    repeat split.
Qed.

Lemma RegisterInode_allocates_witness :
  exists ino fs' i,
    run (RegisterInode new_File Examples.reg 1 20 10) Examples.released = Ok ino fs' [] /\
    match DeletedInodes Examples.released with
    | front :: rest =>
        ino = front /\ DeletedInodes fs' = rest /\
        Inodes fs' = <[N.to_nat front := Some i]> (Inodes Examples.released)
    | [] =>
        ino = N.of_nat (length (Inodes Examples.released)) /\ DeletedInodes fs' = [] /\
        Inodes fs' = Inodes Examples.released ++ [Some i]
    end /\
    inode_at fs' ino = Some i /\
    body i = body new_File /\
    i_mode i = Examples.reg /\ i_nlink i = 1 /\ i_uid i = 10 /\ i_gid i = 20 /\
    m_nlookup i = 0.
Proof.
  apply (RegisterInode_allocates Examples.released new_File Examples.reg 1 20 10).
  intros front rest H. vm_compute in H. injection H as <- <-. vm_compute. lia.
Defined.

(** C10.  Registration debits the free-inode counter by one only when it
    appends a slot; when it reuses a queued slot the counter is left as it
    is.  Either way the free-block counter is debited by the blocks the new
    inode uses, and the totals, the identifier, the name limit and the other
    constants of the statistics block do not change. *)
Theorem RegisterInode_counters fs inode_p mode nlink gid uid :
  (forall front rest, DeletedInodes fs = front :: rest ->
                      (N.to_nat front < length (Inodes fs))%nat) ->
  exists ino fs' i,
    run (RegisterInode inode_p mode nlink gid uid) fs = Ok ino fs' [] /\
    inode_at fs' ino = Some i /\
    f_ffree (m_stbuf fs') =
      match DeletedInodes fs with
      | _ :: _ => f_ffree (m_stbuf fs)
      | [] => sub64 (f_ffree (m_stbuf fs)) 1
      end /\
    f_bfree (m_stbuf fs') = sub64 (f_bfree (m_stbuf fs)) (UsedBlocks i) /\
    f_blocks (m_stbuf fs') = f_blocks (m_stbuf fs) /\
    f_files (m_stbuf fs') = f_files (m_stbuf fs) /\
    f_fsid (m_stbuf fs') = f_fsid (m_stbuf fs) /\
    f_namemax (m_stbuf fs') = f_namemax (m_stbuf fs) /\
    f_bsize (m_stbuf fs') = f_bsize (m_stbuf fs) /\
    f_frsize (m_stbuf fs') = f_frsize (m_stbuf fs) /\
    f_flag (m_stbuf fs') = f_flag (m_stbuf fs).
Proof.
  intros Hq. unfold run.
  destruct (DeletedInodes fs) as [|front rest] eqn:E.
  - rewrite (RegisterInode_append _ _ _ _ _ _ _ E). cbv zeta.
    eexists _, _, _. split; [reflexivity|].
    unfold inode_at. cbn [Inodes]. rewrite lookup_push_back.
    repeat split.
  - specialize (Hq _ _ eq_refl).
    rewrite (RegisterInode_reuse _ _ _ _ _ _ _ _ _ E Hq). cbv zeta.
    eexists _, _, _. split; [reflexivity|].
    unfold inode_at. cbn [Inodes]. rewrite list_lookup_insert_eq by lia.
    repeat split.
Qed.

Lemma RegisterInode_counters_witness :
  exists ino fs' i,
    run (RegisterInode new_File Examples.reg 1 20 10) Examples.released = Ok ino fs' [] /\
    inode_at fs' ino = Some i /\
    f_ffree (m_stbuf fs') =
      match DeletedInodes Examples.released with
      | _ :: _ => f_ffree (m_stbuf Examples.released)
      | [] => sub64 (f_ffree (m_stbuf Examples.released)) 1
      end /\
    f_bfree (m_stbuf fs') = sub64 (f_bfree (m_stbuf Examples.released)) (UsedBlocks i) /\
    f_blocks (m_stbuf fs') = f_blocks (m_stbuf Examples.released) /\
    f_files (m_stbuf fs') = f_files (m_stbuf Examples.released) /\
    f_fsid (m_stbuf fs') = f_fsid (m_stbuf Examples.released) /\
    f_namemax (m_stbuf fs') = f_namemax (m_stbuf Examples.released) /\
    f_bsize (m_stbuf fs') = f_bsize (m_stbuf Examples.released) /\
    f_frsize (m_stbuf fs') = f_frsize (m_stbuf Examples.released) /\
    f_flag (m_stbuf fs') = f_flag (m_stbuf Examples.released).
Proof.
  apply (RegisterInode_counters Examples.released new_File Examples.reg 1 20 10).
  intros front rest H. vm_compute in H. injection H as <- <-. vm_compute. lia.
Defined.

(** ** Rename over an existing name *)

Lemma i_nlink_UpdateChild_obj name n i : i_nlink (UpdateChild_obj name n i) = i_nlink i.
Proof. unfold UpdateChild_obj, with_children. now destruct (body i). Qed.

Lemma FuseRename_over_existing fs parent name newparent newname d d' ino e t :
  inode_at fs parent = Some d -> i_nlink d <> 0 -> is_Directory (Some d) = true ->
  ChildInodeNumberWithName name d = ino -> ino <> INO_NOTFOUND ->
  inode_at fs newparent = Some d' -> i_nlink d' <> 0 -> is_Directory (Some d') = true ->
  ChildInodeNumberWithName newname d' = e -> e <> INO_NOTFOUND ->
  e <> parent -> inode_at fs e = Some t ->
  exists fs',
    run (FuseRename parent name newparent newname) fs = Ok tt fs' [reply_err 0] /\
    option_map i_nlink (inode_at fs' e) = Some (i_nlink t) /\
    option_map i_nlink (inode_at fs' parent) = Some (sub64 (i_nlink d) 1).
Proof.
  intros Hd Ld Dd Hino Hfound Hd' Ld' Dd' He Hex Hep Ht.
  pose proof (in_table _ _ _ Hd) as [Ed Sd]. pose proof (in_table _ _ _ Hd') as [Ed' Sd'].
  unfold FuseRename, run.
  unfold bind at 1. unfold Inodes_size at 1. rewrite Sd.
  unfold bind at 1. unfold Inodes_at at 1. rewrite Ed.
  unfold null_or_unlinked at 1. unfold HasNoLinks.
  rewrite (proj2 (N.eqb_neq _ _) Ld), Dd. cbn [negb].
  unfold child_number at 1. rewrite Hino.
  rewrite (proj2 (N.eqb_neq _ _) Hfound), Sd'. cbv zeta.
  unfold bind at 1. unfold Inodes_at at 1. rewrite Ed'.
  unfold null_or_unlinked at 1. unfold HasNoLinks.
  rewrite (proj2 (N.eqb_neq _ _) Ld'), Dd'. cbn [negb].
  unfold child_number. rewrite He, Hino.
  rewrite (proj2 (N.eqb_neq _ _) Hex). cbn [negb].
  unfold RemoveHardLink, UpdateChild.
  erewrite bind_run.
  2:{ erewrite bind_run by (apply Inodes_at_Some; exact Ed). apply method_run. exact Hd. }
  set (fs1 := store fs parent (RemoveHardLink_obj d)).
  assert (P1 : inode_at fs1 parent = Some (RemoveHardLink_obj d))
    by (apply (inode_at_store_eq _ _ _ _ Hd)).
  assert (T1 : inode_at fs1 e = Some t)
    by (unfold fs1; now rewrite inode_at_store_ne).
  assert (N1 : exists n1, inode_at fs1 newparent = Some n1).
  { destruct (N.eq_dec newparent parent) as [->|Hneq]; [eauto|].
    unfold fs1. rewrite inode_at_store_ne by assumption. eauto. }
  destruct N1 as (n1 & N1).
  erewrite bind_run by (apply method_run; exact N1).
  set (fs2 := store fs1 newparent (UpdateChild_obj newname ino n1)).
  assert (P2 : exists p2, inode_at fs2 parent = Some p2 /\ i_nlink p2 = sub64 (i_nlink d) 1).
  { destruct (N.eq_dec parent newparent) as [<-|Hneq].
    - rewrite P1 in N1. injection N1 as <-.
      unfold fs2. rewrite (inode_at_store_eq _ _ _ _ P1).
      eexists. split; [reflexivity|]. now rewrite i_nlink_UpdateChild_obj.
    - unfold fs2. rewrite inode_at_store_ne by assumption. eauto. }
  assert (T2 : exists t2, inode_at fs2 e = Some t2 /\ i_nlink t2 = i_nlink t).
  { destruct (N.eq_dec e newparent) as [->|Hneq].
    - rewrite T1 in N1. injection N1 as <-.
      unfold fs2. rewrite (inode_at_store_eq _ _ _ _ T1).
      eexists. split; [reflexivity|]. now rewrite i_nlink_UpdateChild_obj.
    - unfold fs2. rewrite inode_at_store_ne by assumption. eauto. }
  destruct P2 as (p2 & P2 & L2). destruct T2 as (t2 & T2 & LT2).
  erewrite bind_run by (apply method_run; exact P2).
  unfold fuse_reply_err, fuse_reply. cbn [app].
  eexists. split; [reflexivity|]. split.
  - rewrite inode_at_store_ne by assumption. rewrite T2. cbn. now rewrite LT2.
  - rewrite (inode_at_store_eq _ _ _ _ P2). cbn.
    now rewrite i_nlink_UpdateChild_obj, L2.
Qed.

(** C1.  In the scenario create "a", create "b", rename "a" over "b", the
    rename succeeds and "b" named inode 3 before it; the link count of inode
    3 is 1 before and 1 after, so it does not reach zero, and the link that
    is removed is one of the parent directory, whose count goes from 3 to 2. *)
Theorem FuseRename_over_existing_unlinks_the_parent :
  exists fs',
    run (FuseRename 1 "a" 1 "b") Examples.two_files = Ok tt fs' [reply_err 0] /\
    child_number (inode_at Examples.two_files 1) "b" = 3 /\
    child_number (inode_at fs' 1) "b" = 2 /\
    option_map i_nlink (inode_at Examples.two_files 3) = Some 1 /\
    option_map i_nlink (inode_at fs' 3) = Some 1 /\
    option_map i_nlink (inode_at Examples.two_files 1) = Some 3 /\
    option_map i_nlink (inode_at fs' 1) = Some 2.
Proof. eexists. vm_compute. repeat split. Qed.

(** ** Rename and the old name *)

Lemma Children_UpdateChild_obj name n j :
  is_Directory (Some j) = true ->
  Children (UpdateChild_obj name n j) = StdMap.assign name n (Children j).
Proof.
  unfold is_Directory, UpdateChild_obj, with_children, Children.
  destruct (body j) eqn:B; try discriminate. intros _. cbn. reflexivity.
Qed.

Lemma UpdateChild_obj_keeps_dir name n j :
  is_Directory (Some j) = true -> is_Directory (Some (UpdateChild_obj name n j)) = true.
Proof.
  unfold is_Directory, UpdateChild_obj, with_children.
  destruct (body j) eqn:B; try discriminate. intros _. cbn. reflexivity.
Qed.

Lemma RemoveHardLink_obj_keeps_dir j :
  is_Directory (Some j) = true -> is_Directory (Some (RemoveHardLink_obj j)) = true.
Proof. intros H. exact H. Qed.

(** Looking up a name that is bound to inode 0, when slot 0 holds nothing
    with a link. *)
Lemma FuseLookup_unused fs parent name dir :
  inode_at fs parent = Some dir ->
  is_Directory (Some dir) = true ->
  ChildInodeNumberWithName name dir = 0 ->
  null_or_unlinked (inode_at fs 0) = true ->
  run (FuseLookup parent name) fs = Ok tt fs [reply_err ENOENT].
Proof.
  intros Hp Hd Hc H0. apply in_table in Hp as [Ep Sp].
  unfold inode_at in H0.
  destruct fs as [table q rc s its]. cbn [Inodes] in *.
  destruct (table !! N.to_nat 0) as [p0|] eqn:E0.
  2:{ apply lookup_ge_None_1 in E0. apply lookup_lt_Some in Ep. lia. }
  unfold FuseLookup. mred. rewrite Sp, Ep. mred. rewrite Hd. cbn [negb].
  unfold child_number. rewrite Hc.
  change (0 =? INO_NOTFOUND) with false. mred.
  rewrite E0. mred. rewrite H0. reflexivity.
Qed.

(** The last two steps of a rename that succeeds: the new name is bound, then
    the old name is bound to 0 in the directory in slot [parent]. *)
Lemma rename_tail fs sent parent name newparent newname ino fs' sent' d :
  (UpdateChild newparent newname ino ;; UpdateChild parent name 0 ;; fuse_reply_err 0)
    fs sent = Ok tt fs' sent' ->
  inode_at fs parent = Some d -> is_Directory (Some d) = true ->
  sent' = sent ++ [reply_err 0] /\
  (forall m, m <> parent -> m <> newparent -> inode_at fs' m = inode_at fs m) /\
  exists dir, inode_at fs' parent = Some dir /\ is_Directory (Some dir) = true /\
              StdMap.find name (Children dir) = Some 0.
Proof.
  unfold UpdateChild. mred_light. intros H Hp Hd. revert H.
  run_step H1.
  destruct (method_keeps (fun j => is_Directory (Some j) = true) _ _ _ _ _ _ _ _ H1
              (UpdateChild_obj_keeps_dir newname ino) Hp Hd) as (d1 & Hp1 & Hd1).
  run_step H2.
  destruct (method_same _ _ _ _ _ _ H2) as (j & Hj & Hj').
  rewrite Hp1 in Hj. injection Hj as <-.
  intros [= <- <-].
  pose proof (method_inv _ _ _ _ _ _ H1) as (_ & _ & _ & ->).
  pose proof (method_inv _ _ _ _ _ _ H2) as (_ & _ & _ & ->).
  split; [reflexivity|]. split.
  - intros m Hm Hm'.
    rewrite (method_other _ _ _ _ _ _ _ H2 Hm), (method_other _ _ _ _ _ _ _ H1 Hm').
    reflexivity.
  - exists (UpdateChild_obj name 0 d1). split; [exact Hj'|]. split.
    + now apply UpdateChild_obj_keeps_dir.
    + rewrite Children_UpdateChild_obj by assumption. apply find_assign_eq.
Qed.

(** C5, amended.  After a rename that succeeds, the old name is still in the
    directory of the old parent, bound to inode number 0; and as long as slot
    0 holds no inode with links (it holds the special inode, which has none),
    a lookup of the old name in the old parent replies ENOENT and changes
    nothing. *)
Theorem FuseRename_marks_the_old_name_unused fs parent name newparent newname fs' :
  run (FuseRename parent name newparent newname) fs = Ok tt fs' [reply_err 0] ->
  (exists dir, inode_at fs' parent = Some dir /\
               StdMap.find name (Children dir) = Some 0) /\
  (null_or_unlinked (inode_at fs 0) = true ->
   run (FuseLookup parent name) fs' = Ok tt fs' [reply_err ENOENT]).
Proof.
  unfold FuseRename, run.
  unfold bind at 1. unfold Inodes_size at 1.
  destruct (N.of_nat (length (Inodes fs)) <=? parent) eqn:Hsz; [intros [=]|].
  unfold bind at 1. unfold Inodes_at at 1.
  destruct (Inodes fs !! N.to_nat parent) as [o|] eqn:Ep; [|intros [=]].
  destruct (null_or_unlinked o) eqn:Hl; [intros [=]|].
  destruct (negb (is_Directory o)) eqn:Hd; [intros [=]|].
  destruct (child_number o name =? INO_NOTFOUND) eqn:Hino; [intros [=]|].
  destruct (N.of_nat (length (Inodes fs)) <=? newparent) eqn:Hsz'; [intros [=]|].
  unfold bind at 1. unfold Inodes_at at 1.
  destruct (Inodes fs !! N.to_nat newparent) as [o'|] eqn:Ep'; [|intros [=]].
  destruct (null_or_unlinked o') eqn:Hl'; [intros [=]|].
  destruct (negb (is_Directory o')) eqn:Hd'; [intros [=]|].
  apply live_is_Some in Hl as (d & -> & Ld). apply live_is_Some in Hl' as (d' & -> & Ld').
  apply negb_false_iff in Hd.
  assert (Hp : inode_at fs parent = Some d) by (unfold inode_at; now rewrite Ep).
  assert (Hp' : inode_at fs newparent = Some d') by (unfold inode_at; now rewrite Ep').
  unfold bind at 1.
  (* the link removed when the new name exists *)
  assert (Hpre : forall fsA sentA,
            (if negb (child_number (Some d') newname =? INO_NOTFOUND)
             then _ <- Inodes_at parent ;; RemoveHardLink parent else ret tt) fs [] =
              Ok tt fsA sentA ->
            sentA = [] /\
            (forall m, m <> parent -> inode_at fsA m = inode_at fs m) /\
            exists j, inode_at fsA parent = Some j /\ is_Directory (Some j) = true).
  { intros fsA sentA.
    destruct (negb (child_number (Some d') newname =? INO_NOTFOUND)).
    - unfold bind, Inodes_at. rewrite Ep. unfold RemoveHardLink. intros H.
      pose proof (method_inv _ _ _ _ _ _ H) as (_ & _ & _ & ->).
      split; [reflexivity|]. split.
      + intros m Hm. apply (method_other _ _ _ _ _ _ _ H Hm).
      + destruct (method_same _ _ _ _ _ _ H) as (j & Hj & Hj').
        rewrite Hp in Hj. injection Hj as <-. eauto.
    - intros [= <- <-]. eauto. }
  destruct ((if negb (child_number (Some d') newname =? INO_NOTFOUND)
             then _ <- Inodes_at parent ;; RemoveHardLink parent else ret tt) fs [])
    as [[] fsA sentA|] eqn:HA; [|intros [=]].
  destruct (Hpre _ _ eq_refl) as (-> & HotherA & j & HjA & DjA).
  intros H.
  destruct (rename_tail _ _ _ _ _ _ _ _ _ _ H HjA DjA) as (_ & Hother & dir & Hdir & Ddir & Fdir).
  split; [eauto|].
  intros H0.
  assert (P0 : parent <> 0).
  { intros ->. rewrite Hp in H0. cbn in H0. unfold HasNoLinks in H0.
    apply N.eqb_eq in H0. contradiction. }
  assert (P0' : newparent <> 0).
  { intros ->. rewrite Hp' in H0. cbn in H0. unfold HasNoLinks in H0.
    apply N.eqb_eq in H0. contradiction. }
  apply (FuseLookup_unused fs' parent name dir Hdir Ddir).
  - unfold ChildInodeNumberWithName. now rewrite Fdir.
  - rewrite Hother, HotherA by auto. exact H0.
Qed.

Lemma FuseRename_marks_the_old_name_unused_witness :
  (exists dir, inode_at Examples.renamed 1 = Some dir /\
               StdMap.find "a" (Children dir) = Some 0) /\
  run (FuseLookup 1 "a") Examples.renamed = Ok tt Examples.renamed [reply_err ENOENT].
Proof.
  destruct (FuseRename_marks_the_old_name_unused
              Examples.two_files 1 "a" 1 "b" Examples.renamed) as [Hbound Hlookup].
  - vm_compute. reflexivity.
  - split; [exact Hbound|]. apply Hlookup. vm_compute. reflexivity.
Defined.

(** C5, as stated, fails: after "a" is renamed over "b" in the root, "a" is
    still a key of the root's children, bound to 0 (while the lookup of "a"
    does reply ENOENT). *)
Lemma renamed_name_stays_in_the_directory :
  run (FuseRename 1 "a" 1 "b") Examples.two_files = Ok tt Examples.renamed [reply_err 0] /\
  (exists dir, inode_at Examples.renamed 1 = Some dir /\
               Children dir = [(".", 1); ("..", 1); ("a", 0); ("b", 2)]%string /\
               StdMap.find "a" (Children dir) <> None) /\
  replies (run (FuseLookup 1 "a") Examples.renamed) = [reply_err ENOENT].
Proof.
  split; [vm_compute; reflexivity|].
  split; [eexists; vm_compute; repeat split; discriminate|].
  vm_compute. reflexivity.
Qed.

(** ** Link to an existing name *)

Lemma FuseLink_existing_name fs ino newparent newname d t e :
  inode_at fs newparent = Some d -> i_nlink d <> 0 -> is_Directory (Some d) = true ->
  inode_at fs ino = Some t -> i_nlink t <> 0 ->
  ChildInodeNumberWithName newname d = e -> e <> INO_NOTFOUND -> e <> 0 ->
  exists fs' a,
    run (FuseLink ino newparent newname) fs = Ok tt fs' [reply_err EEXIST; reply_entry a] /\
    st_nlink a = add64 (i_nlink t) 1 /\
    option_map i_nlink (inode_at fs' ino) = Some (add64 (i_nlink t) 1).
Proof.
  intros Hd Ld Dd Ht Lt He Hne H0.
  pose proof (in_table _ _ _ Hd) as [Ed Sd]. pose proof (in_table _ _ _ Ht) as [Et St].
  unfold FuseLink, run.
  unfold bind at 1. unfold Inodes_size at 1. rewrite Sd.
  unfold bind at 1. unfold Inodes_at at 1. rewrite Ed.
  unfold null_or_unlinked at 1. unfold HasNoLinks.
  rewrite (proj2 (N.eqb_neq _ _) Ld), Dd. cbn [negb]. rewrite St. cbv zeta.
  unfold bind at 1. unfold Inodes_at at 1. rewrite Et.
  unfold null_or_unlinked at 1. unfold HasNoLinks.
  rewrite (proj2 (N.eqb_neq _ _) Lt).
  unfold child_number. rewrite He.
  rewrite (proj2 (N.eqb_neq _ _) Hne). cbn [negb andb].
  assert (Hpos : (0 <? e) = true) by (apply N.ltb_lt; lia). rewrite Hpos.
  unfold bind at 1. unfold fuse_reply_err at 1, fuse_reply at 1. cbn [app].
  unfold AddChild, AddHardLink, ReplyEntry.
  erewrite bind_run by (apply method_run; exact Hd).
  assert (H1 : exists t1, inode_at (store fs newparent (AddChild_obj newname ino d)) ino = Some t1
                          /\ i_nlink t1 = i_nlink t).
  { destruct (N.eq_dec ino newparent) as [->|Hneq].
    - rewrite Hd in Ht. injection Ht as <-.
      rewrite (inode_at_store_eq _ _ _ _ Hd). eexists. split; [reflexivity|].
      unfold AddChild_obj, with_children. now destruct (body d). 
    - rewrite inode_at_store_ne by assumption. eauto. }
  destruct H1 as (t1 & H1 & L1).
  erewrite bind_run by (apply method_run; exact H1).
  pose proof (inode_at_store_eq _ _ _ (AddHardLink_obj t1) H1) as H2.
  erewrite bind_run by (apply method_run; exact H2).
  pose proof (inode_at_store_eq _ _ _
                (with_nlookup (add64 (m_nlookup (AddHardLink_obj t1)) 1) (AddHardLink_obj t1))
                H2) as H3.
  erewrite bind_run by (apply deref_run; exact H3).
  unfold fuse_reply. cbn [app].
  eexists _, _. split; [reflexivity|].
  rewrite H3. cbn. rewrite L1. split; reflexivity.
Qed.

(** C2.  With files "a" (inode 2) and "b" (inode 3) in the root, linking
    inode 2 as "b" replies EEXIST and goes on: a second reply, an entry, is
    sent, and the link count and the lookup count of inode 2 both rise from 1
    to 2. *)
Theorem FuseLink_to_existing_name_goes_on :
  exists fs' a,
    child_number (inode_at Examples.two_files 1) "b" = 3 /\
    run (FuseLink 2 1 "b") Examples.two_files =
      Ok tt fs' [reply_err EEXIST; reply_entry a] /\
    option_map i_nlink (inode_at Examples.two_files 2) = Some 1 /\
    option_map i_nlink (inode_at fs' 2) = Some 2 /\
    option_map m_nlookup (inode_at Examples.two_files 2) = Some 1 /\
    option_map m_nlookup (inode_at fs' 2) = Some 2 /\
    fs' <> Examples.two_files.
Proof.
  eexists _, _. vm_compute. repeat split. discriminate.
Qed.

(** ** Forget *)

(** What [FuseForget] does when it releases an inode: the slot is emptied and
    queued, the free-inode counter is credited with the blocks the inode
    used, and the free-block counter is not touched. *)
Lemma FuseForget_release fs ino i nlookup :
  inode_at fs ino = Some i ->
  sub64 (m_nlookup i) nlookup = 0 ->
  i_nlink i = 0 ->
  run (FuseForget ino nlookup) fs =
    Ok tt (mkFs (<[N.to_nat ino := None]> (Inodes fs))
                (DeletedInodes fs ++ [ino])
                (m_reclaimingInodes fs)
                (debit_inodes (neg64 (UsedBlocks i)) (m_stbuf fs))
                (m_iterators fs))
          [reply_none].
Proof.
  unfold inode_at. destruct (Inodes fs !! N.to_nat ino) as [[j|]|] eqn:E; try discriminate.
  intros [= ->] Hk Hl.
  assert (Hlt : (N.to_nat ino < length (Inodes fs))%nat) by (eapply lookup_lt_Some; eauto).
  destruct fs as [table q rc s its]. cbn [Inodes] in *.
  unfold FuseForget, Forget, Forgotten, HasNoLinks. mred.
  repeat (first [ rewrite E
                | rewrite list_lookup_insert_eq by (rewrite ?length_insert; lia) ]; mred).
  cbn [m_nlookup i_nlink with_nlookup]. rewrite Hk, Hl. cbn [N.eqb].
  repeat (rewrite list_lookup_insert_eq by (rewrite ?length_insert; lia); mred).
  rewrite list_insert_insert_eq.
  reflexivity.
Qed.

(** C4.  A file of two blocks is created, unlinked and then forgotten with
    its one lookup.  The forget empties slot 2 and queues it, but the
    free-block counter stays at 998 of 1000, the two blocks are not given
    back, and the free-inode counter rises by two, from 97 to 99. *)
Theorem FuseForget_credits_the_inode_counter_with_blocks :
  exists i fs',
    inode_at Examples.unlinked_two_blocks 2 = Some i /\
    i_nlink i = 0 /\ m_nlookup i = 1 /\ UsedBlocks i = 2 /\
    run (FuseForget 2 1) Examples.unlinked_two_blocks = Ok tt fs' [reply_none] /\
    Inodes fs' !! 2%nat = Some None /\
    DeletedInodes fs' = [2] /\
    f_bfree (m_stbuf Examples.unlinked_two_blocks) = 998 /\
    f_bfree (m_stbuf fs') = 998 /\
    f_ffree (m_stbuf Examples.unlinked_two_blocks) = 97 /\
    f_ffree (m_stbuf fs') = 99.
Proof. eexists _, _. vm_compute. repeat split. Qed.

(** ** Past the end of the table *)

(** [FuseGetAttr] and [FuseSetAttr] with a number that is not a slot: the
    error is sent and then the table is indexed at that number. *)
Lemma FuseGetAttr_past_the_end fs ino :
  N.of_nat (length (Inodes fs)) <= ino ->
  run (FuseGetAttr ino) fs = Crash OutOfBounds fs [reply_err ENOENT].
Proof.
  intros H. unfold run, FuseGetAttr, bind, Inodes_size, fuse_reply_err, fuse_reply, Inodes_at.
  apply N.leb_le in H. rewrite H. cbn [app].
  apply N.leb_le in H.
  rewrite lookup_ge_None_2 by lia. reflexivity.
Qed.

Lemma FuseSetAttr_past_the_end fs ino attr to_set :
  N.of_nat (length (Inodes fs)) <= ino ->
  run (FuseSetAttr ino attr to_set) fs = Crash OutOfBounds fs [reply_err ENOENT].
Proof.
  intros H. unfold run, FuseSetAttr, bind, Inodes_size, fuse_reply_err, fuse_reply, Inodes_at.
  apply N.leb_le in H. rewrite H. cbn [app].
  apply N.leb_le in H.
  rewrite lookup_ge_None_2 by lia. reflexivity.
Qed.

(** C6.  On the mounted file system, whose table has two slots, [getattr]
    and [setattr] of inode 7 reply ENOENT and go on to read [Inodes[7]],
    which is past the end of the table. *)
Theorem FuseGetAttr_FuseSetAttr_index_past_the_end :
  length (Inodes Examples.mounted) = 2%nat /\
  run (FuseGetAttr 7) Examples.mounted =
    Crash OutOfBounds Examples.mounted [reply_err ENOENT] /\
  run (FuseSetAttr 7 (mkStat 0 0 0 0 0 0 0) 0) Examples.mounted =
    Crash OutOfBounds Examples.mounted [reply_err ENOENT] /\
  run (FuseGetAttr 2) Examples.mounted =
    Crash OutOfBounds Examples.mounted [reply_err ENOENT].
Proof. vm_compute. repeat split. Qed.

(** ** An inode without links *)

(** C3, amended.  For an inode that is in the table with a link count of
    zero: every callback that tests its inode for links replies ENOENT, once,
    and leaves the state as it is ([getattr], [setattr], [opendir],
    [releasedir], [readdir], [open], [release], [read], [write], [readlink],
    the four extended-attribute callbacks, [access], and with the inode as
    the directory, [mknod], [unlink], [rmdir], [rename], [link], [symlink]
    and [create]); so does [link] with the inode as its target under a new
    parent that is a directory with links.  [flush] and [fsync] look at the
    size of the table only and reply success, and [statfs] replies the
    statistics whatever the inode. *)
Theorem unlinked_inode_is_not_found fs ino i :
  inode_at fs ino = Some i -> i_nlink i = 0 ->
  (forall r, run (callback r ino) fs = Ok tt fs [reply_err ENOENT]) /\
  (forall newparent newname d,
     inode_at fs newparent = Some d -> i_nlink d <> 0 -> is_Directory (Some d) = true ->
     run (FuseLink ino newparent newname) fs = Ok tt fs [reply_err ENOENT]) /\
  run (FuseFlush ino) fs = Ok tt fs [reply_err 0] /\
  run (FuseFsync ino) fs = Ok tt fs [reply_err 0] /\
  run (FuseStatfs ino) fs = Ok tt fs [reply_statfs (m_stbuf fs)].
Proof.
  intros Hi Hl. apply in_table in Hi as [E S].
  assert (Hn : null_or_unlinked (Some i) = true).
  { cbn. unfold HasNoLinks. now rewrite Hl. }
  destruct fs as [table q rc s its]. cbn [Inodes m_stbuf] in *.
  split; [|split; [|repeat split]].
  - intros r. destruct r; cbn [callback]; unfold_callbacks;
      mred; rewrite S; mred; rewrite E; mred; rewrite Hn; reflexivity.
  - intros newparent newname d Hd Ld Dd. apply in_table in Hd as [Ed Sd].
    cbn [Inodes] in *.
    unfold FuseLink. mred. rewrite Sd. mred. rewrite Ed. mred.
    unfold null_or_unlinked at 1. unfold HasNoLinks.
    rewrite (proj2 (N.eqb_neq _ _) Ld), Dd. cbn [negb].
    rewrite S. mred. rewrite E. mred. rewrite Hn. reflexivity.
  - unfold FuseFlush. mred. now rewrite S.
  - unfold FuseFsync. mred. now rewrite S.
Qed.

Lemma unlinked_inode_is_not_found_witness :
  (forall r, run (callback r 2) Examples.unlinked = Ok tt Examples.unlinked [reply_err ENOENT]) /\
  run (FuseLink 2 1 "g") Examples.unlinked = Ok tt Examples.unlinked [reply_err ENOENT] /\
  run (FuseFlush 2) Examples.unlinked = Ok tt Examples.unlinked [reply_err 0] /\
  run (FuseFsync 2) Examples.unlinked = Ok tt Examples.unlinked [reply_err 0] /\
  run (FuseStatfs 2) Examples.unlinked =
    Ok tt Examples.unlinked [reply_statfs (m_stbuf Examples.unlinked)].
Proof.
  destruct (unlinked_inode_is_not_found Examples.unlinked 2
              (mkInode (File []) 2 Examples.reg 0 10 20 0 1 []))
    as (Hall & Hlink & Hflush & Hfsync & Hstatfs).
  - vm_compute. reflexivity.
  - reflexivity.
  - split; [exact Hall|]. split; [|auto].
    apply (Hlink 1 "g"%string
             (mkInode (Directory [(".", 1); ("..", 1)]%string) 1 (N.lor S_IFDIR 511)
                      3 6 5 0 0 [])).
    + vm_compute. reflexivity.
    + discriminate.
    + reflexivity.
Defined.

(** C3, as stated, fails: inode 2 is in the table with no link and one
    lookup, and [flush] and [fsync] of it reply success, [getlk] replies
    nothing and [statfs] replies the statistics; none of them replies
    ENOENT. *)
Lemma flush_of_unlinked_inode_succeeds :
  (exists i, inode_at Examples.unlinked 2 = Some i /\ i_nlink i = 0 /\ m_nlookup i = 1) /\
  replies (run (FuseFlush 2) Examples.unlinked) = [reply_err 0] /\
  replies (run (FuseFsync 2) Examples.unlinked) = [reply_err 0] /\
  replies (run (FuseGetLock 2) Examples.unlinked) = [] /\
  replies (run (FuseStatfs 2) Examples.unlinked) =
    [reply_statfs (m_stbuf Examples.unlinked)] /\
  replies (run (FuseFlush 2) Examples.unlinked) <> [reply_err ENOENT].
Proof.
  split; [eexists; vm_compute; repeat split|].
  vm_compute. repeat split. discriminate.
Qed.

(** ** Removing a directory that is not empty *)

(** C7, amended.  When the parent is a directory with links, [name] is bound
    in it to an inode other than the parent itself, and that inode is a
    directory with links that holds ".", ".." and at least one more entry,
    [rmdir] replies ENOTEMPTY and the state is what it was: no directory
    entry and no link count has changed. *)
Theorem FuseRmdir_not_empty fs parent name p ino d x :
  inode_at fs parent = Some p -> i_nlink p <> 0 -> is_Directory (Some p) = true ->
  ChildInodeNumberWithName name p = ino -> ino <> INO_NOTFOUND ->
  ino <> parent ->
  inode_at fs ino = Some d -> i_nlink d <> 0 -> is_Directory (Some d) = true ->
  StdMap.find "." (Children d) <> None ->
  StdMap.find ".." (Children d) <> None ->
  x <> "."%string -> x <> ".."%string -> StdMap.find x (Children d) <> None ->
  run (FuseRmdir parent name) fs = Ok tt fs [reply_err ENOTEMPTY].
Proof.
  intros Hp Lp Dp Hino Hfound Hself Hd Ld Dd F1 F2 X1 X2 F3.
  apply in_table in Hp as [Ep Sp]. apply in_table in Hd as [Ed Sd].
  assert (Hsize : (2 <? StdMap.size (Children d)) = true).
  { apply N.ltb_lt. apply (three_keys "." ".." x); auto; discriminate. }
  destruct fs as [table q rc s its]. cbn [Inodes] in *.
  unfold FuseRmdir. mred. rewrite Sp, Ep. mred.
  unfold null_or_unlinked, HasNoLinks.
  rewrite (proj2 (N.eqb_neq _ _) Lp), Dp. cbn [negb].
  unfold child_number. rewrite Hino.
  rewrite (proj2 (N.eqb_neq _ _) Hfound), (proj2 (N.eqb_neq _ _) Hself).
  rewrite Ed. mred.
  rewrite (proj2 (N.eqb_neq _ _) Ld), Dd. cbn [negb children_of].
  rewrite Hsize. reflexivity.
Qed.

Lemma FuseRmdir_not_empty_witness :
  run (FuseRmdir 1 "d") Examples.dir_with_file =
    Ok tt Examples.dir_with_file [reply_err ENOTEMPTY].
Proof.
  apply (FuseRmdir_not_empty Examples.dir_with_file 1 "d"
           (mkInode (Directory [(".", 1); ("..", 1); ("d", 2)]%string) 1 (N.lor S_IFDIR 511)
                    4 6 5 0 0 [])
           2
           (mkInode (Directory [(".", 2); ("..", 1); ("x", 3)]%string) 2 (N.lor 493 S_IFDIR)
                    2 10 20 0 1 [])
           "x");
    vm_compute; first [reflexivity | discriminate].
Defined.

(** C7, as stated, fails: in the root, which holds the file "a" besides "."
    and "..", the name "." is bound to the root itself, and [rmdir] of it
    replies EINVAL, not ENOTEMPTY.  And a directory made with [mknod] has
    no "." and "..": holding only the file "x" it has no more than two
    entries, so [rmdir] removes it and replies success. *)
Lemma FuseRmdir_of_dot_and_of_mknod_directory :
  (exists root, inode_at Examples.two_files 1 = Some root /\
                ChildInodeNumberWithName "." root = 1 /\
                ChildInodeNumberWithName "a" root = 2) /\
  run (FuseRmdir 1 ".") Examples.two_files = Ok tt Examples.two_files [reply_err EINVAL] /\
  (exists d, inode_at Examples.mknod_dir_with_file 2 = Some d /\
             Children d = [("x", 3)]%string /\ i_nlink d = 2) /\
  (exists fs', run (FuseRmdir 1 "d") Examples.mknod_dir_with_file = Ok tt fs' [reply_err 0] /\
               child_number (inode_at fs' 1) "d" = INO_NOTFOUND /\
               option_map i_nlink (inode_at fs' 2) = Some 0).
Proof.
  split; [eexists; vm_compute; repeat split|].
  split; [vm_compute; reflexivity|].
  split; [eexists; vm_compute; repeat split|].
  eexists. vm_compute. repeat split.
Qed.

(** ** Making a symbolic link *)

Lemma AddChild_obj_keeps_symlink req link ino name n j :
  is_new_symlink req link ino j -> is_new_symlink req link ino (AddChild_obj name n j).
Proof.
  intros Q. unfold AddChild_obj, with_children. now rewrite (proj1 Q).
Qed.

Lemma with_nlookup_keeps_symlink req link ino k j :
  is_new_symlink req link ino j -> is_new_symlink req link ino (with_nlookup k j).
Proof. intros Q. exact Q. Qed.

(** C9, amended.  After a symlink request that is answered with an entry, the
    inode the entry names is a symbolic link to the given target with mode
    [S_IFLNK | 0755], one hard link, and the uid and gid of the caller. *)
Theorem FuseSymlink_creates fs req link parent name fs' a :
  run (FuseSymlink req link parent name) fs = Ok tt fs' [reply_entry a] ->
  exists i,
    inode_at fs' (st_ino a) = Some i /\ a = GetAttr i /\
    body i = SymLink link /\
    i_mode i = N.lor S_IFLNK 493 /\ i_nlink i = 1 /\
    i_uid i = ctx_uid req /\ i_gid i = ctx_gid req.
Proof.
  destruct fs as [table q rc s its].
  unfold FuseSymlink, AddChild, ReplyEntry. mred_light.
  run_step Hsz. run_step Ep. run_step Hl. run_step Hd.
  run_step Hreg. apply RegisterInode_inv in Hreg as [-> Hnew].
  assert (Q0 : is_new_symlink req link a0
                 (Initialize a0 (N.lor S_IFLNK 493) 1 (ctx_gid req) (ctx_uid req)
                             (new_SymLink link))) by (repeat split).
  run_step Hadd.
  destruct (method_keeps _ _ _ _ _ _ _ _ _ Hadd
              (AddChild_obj_keeps_symlink req link a0 name a0) Hnew Q0)
    as (i1 & H1 & Q1).
  apply method_inv in Hadd as (_ & _ & _ & ->).
  run_step Hinc.
  destruct (method_keeps _ _ _ _ _ _ _ _ _ Hinc
              (fun j => with_nlookup_keeps_symlink req link a0 _ j) H1 Q1)
    as (i2 & H2 & Q2).
  apply method_inv in Hinc as (_ & _ & _ & ->).
  run_step Hget. apply deref_inv in Hget as (-> & -> & Hi).
  intros [= <- <-].
  rewrite H2 in Hi. injection Hi as <-.
  destruct Q2 as (B & I & Mo & L & U & G).
  exists i2. cbn [st_ino GetAttr]. rewrite I. auto 10.
Qed.

Lemma FuseSymlink_creates_witness :
  exists i,
    inode_at Examples.symlinked (st_ino Examples.symlink_entry) = Some i /\
    Examples.symlink_entry = GetAttr i /\
    body i = SymLink "/tmp/x" /\
    i_mode i = N.lor S_IFLNK 493 /\ i_nlink i = 1 /\
    i_uid i = ctx_uid Examples.caller /\ i_gid i = ctx_gid Examples.caller.
Proof.
  apply (FuseSymlink_creates Examples.mounted Examples.caller "/tmp/x" 1 "s").
  vm_compute. reflexivity.
Defined.

(** C9, as stated, fails: the symbolic link made in the root has mode
    [S_IFLNK | 0755], which is not [0777 | S_IFLNK]. *)
Lemma symlink_mode_is_0755 :
  run (FuseSymlink Examples.caller "/tmp/x" 1 "s") Examples.mounted =
    Ok tt Examples.symlinked [reply_entry Examples.symlink_entry] /\
  option_map i_mode (inode_at Examples.symlinked 2) = Some (N.lor S_IFLNK 493) /\
  option_map i_mode (inode_at Examples.symlinked 2) <> Some (N.lor 511 S_IFLNK).
Proof.
  vm_compute. repeat split. discriminate.
Qed.

(** * More properties of the callbacks *)

(** ** Inode numbers past the table, empty slots, inodes of the wrong kind *)

Ltac unfold_all_callbacks :=
  unfold FuseLookup, FuseForget, FuseGetAttr, FuseSetAttr, FuseOpenDir, FuseReleaseDir,
    FuseReadDir, FuseOpen, FuseRelease, FuseRead, FuseWrite, FuseReadLink, FuseSetXAttr,
    FuseGetXAttr, FuseListXAttr, FuseRemoveXAttr, FuseAccess, FuseMknod, FuseMkdir,
    FuseUnlink, FuseRmdir, FuseRename, FuseLink, FuseSymlink, FuseCreate, FuseFlush,
    FuseFsync, FuseFsyncDir, FuseStatfs, FuseGetLock.

(** X1.  A callback that tests its inode number against the size of the
    table and returns replies ENOENT, once, for a number that is not a slot,
    and changes nothing. *)
Theorem past_the_table_is_ENOENT fs ino o :
  tests_bound o = true ->
  N.of_nat (length (Inodes fs)) <= ino ->
  run (perform o ino) fs = Ok tt fs [reply_err ENOENT].
Proof.
  intros Ho Hge. apply N.leb_le in Hge.
  destruct fs as [table q rc s its]. cbn [Inodes] in *.
  destruct o as [| | | | | | | | | | | | | |[buf|]| | | | | | | | | | | | | | |];
    try discriminate Ho; cbn [perform]; unfold_all_callbacks; mred;
    rewrite Hge; reflexivity.
Qed.

Lemma past_the_table_is_ENOENT_witness :
  run (perform (Op_rename "a" 1 "b") 9) Examples.mounted =
    Ok tt Examples.mounted [reply_err ENOENT].
Proof.
  apply (past_the_table_is_ENOENT Examples.mounted 9 (Op_rename "a" 1 "b")).
  - reflexivity.
  - vm_compute. discriminate.
Defined.

(** X2.  [FuseForget] has no test of the inode number: for a number that is
    not a slot it reads the table past its end, and nothing has been sent. *)
Theorem FuseForget_past_the_table fs ino nlookup :
  N.of_nat (length (Inodes fs)) <= ino ->
  run (FuseForget ino nlookup) fs = Crash OutOfBounds fs [].
Proof.
  intros H. unfold FuseForget, run, bind, Inodes_at.
  rewrite lookup_ge_None_2 by lia. reflexivity.
Qed.

Lemma FuseForget_past_the_table_witness :
  run (FuseForget 2 1) Examples.mounted = Crash OutOfBounds Examples.mounted [].
Proof.
  apply (FuseForget_past_the_table Examples.mounted 2 1). vm_compute. discriminate.
Defined.

(** X3.  When the slot of the inode holds [nullptr], no callback changes the
    state or goes wrong.  [forget] and [getlk] send nothing, [flush] and
    [fsync] reply success, [statfs] the statistics; [lookup], [mkdir] and
    [fsyncdir], which cast before they test, reply ENOTDIR; [write] with a
    null buffer replies EINVAL; every other callback replies ENOENT. *)
Theorem empty_slot_replies fs ino o :
  Inodes fs !! N.to_nat ino = Some None ->
  run (perform o ino) fs = Ok tt fs (replies_on_empty_slot o fs).
Proof.
  intros E.
  assert (S : (N.of_nat (length (Inodes fs)) <=? ino) = false).
  { apply lookup_lt_Some in E. apply N.leb_gt. lia. }
  destruct fs as [table q rc s its]. cbn [Inodes] in *.
  destruct o as [| | | | | | | | | | | | | |[buf|]| | | | | | | | | | | | | | |];
    cbn [perform replies_on_empty_slot]; unfold_all_callbacks; mred;
    rewrite ?S; mred; rewrite ?E; mred; reflexivity.
Qed.

Lemma empty_slot_replies_witness :
  run (perform (Op_mkdir Examples.caller "d" 493) 2) Examples.released =
    Ok tt Examples.released [reply_err ENOTDIR].
Proof.
  apply (empty_slot_replies Examples.released 2 (Op_mkdir Examples.caller "d" 493)).
  vm_compute. reflexivity.
Defined.

(** X4.  A callback that needs a directory, given an inode that has links
    and is not a directory, replies ENOTDIR ([mknod] replies EISDIR) and
    changes nothing. *)
Theorem non_directory_is_refused fs ino i o e :
  inode_at fs ino = Some i -> i_nlink i <> 0 -> is_Directory (Some i) = false ->
  errno_on_non_directory o = Some e ->
  run (perform o ino) fs = Ok tt fs [reply_err e].
Proof.
  intros Hi Hl Hd Ho. apply in_table in Hi as [E S].
  assert (Hn : null_or_unlinked (Some i) = false).
  { cbn. unfold HasNoLinks. now apply N.eqb_neq. }
  destruct fs as [table q rc s its]. cbn [Inodes] in *.
  destruct o; try discriminate Ho; injection Ho as <-;
    cbn [perform]; unfold_all_callbacks; mred;
    rewrite S; mred; rewrite E; mred; rewrite ?Hn, Hd; reflexivity.
Qed.

Lemma non_directory_is_refused_witness :
  run (perform (Op_mknod Examples.caller "x" Examples.reg 0) 2) Examples.two_files =
    Ok tt Examples.two_files [reply_err EISDIR].
Proof.
  apply (non_directory_is_refused Examples.two_files 2
           (mkInode (File []) 2 Examples.reg 1 10 20 0 1 [])
           (Op_mknod Examples.caller "x" Examples.reg 0) EISDIR).
  - vm_compute. reflexivity.
  - discriminate.
  - reflexivity.
  - reflexivity.
Defined.

(** X5.  [open] and [release] refuse a directory with EISDIR and accept any
    other inode that has links, symbolic links included; [opendir] and
    [releasedir] refuse a regular file with ENOTDIR and accept any other
    inode that has links; [readlink] refuses what is not a symbolic link with
    EINVAL.  None of them changes the state. *)
Theorem open_and_opendir_test_the_kind fs ino i :
  inode_at fs ino = Some i -> i_nlink i <> 0 ->
  run (FuseOpen ino) fs =
    Ok tt fs [if is_Directory (Some i) then reply_err EISDIR else reply_open] /\
  run (FuseRelease ino) fs =
    Ok tt fs [reply_err (if is_Directory (Some i) then EISDIR else 0)] /\
  run (FuseOpenDir ino) fs =
    Ok tt fs [if is_File (Some i) then reply_err ENOTDIR else reply_open] /\
  run (FuseReleaseDir ino) fs =
    Ok tt fs [reply_err (if is_File (Some i) then ENOTDIR else 0)] /\
  run (FuseReadLink ino) fs =
    Ok tt fs [if is_SymLink (Some i) then reply_readlink (Link i) else reply_err EINVAL].
Proof.
  intros Hi Hl. apply in_table in Hi as [E S].
  assert (Hn : null_or_unlinked (Some i) = false).
  { cbn. unfold HasNoLinks. now apply N.eqb_neq. }
  destruct fs as [table q rc s its]. cbn [Inodes] in *.
  repeat split; unfold_all_callbacks; mred; rewrite S; mred; rewrite E; mred; rewrite Hn.
  - now destruct (is_Directory (Some i)).
  - now destruct (is_Directory (Some i)).
  - now destruct (is_File (Some i)).
  - now destruct (is_File (Some i)).
  - destruct (is_SymLink (Some i)); cbn [negb]; [|reflexivity].
    mred. rewrite E. reflexivity.
Qed.

Lemma open_and_opendir_test_the_kind_witness :
  run (FuseOpen 2) Examples.symlinked = Ok tt Examples.symlinked [reply_open] /\
  run (FuseRelease 2) Examples.symlinked = Ok tt Examples.symlinked [reply_err 0] /\
  run (FuseOpenDir 2) Examples.symlinked = Ok tt Examples.symlinked [reply_open] /\
  run (FuseReleaseDir 2) Examples.symlinked = Ok tt Examples.symlinked [reply_err 0] /\
  run (FuseReadLink 2) Examples.symlinked =
    Ok tt Examples.symlinked [reply_readlink "/tmp/x"].
Proof.
  apply (open_and_opendir_test_the_kind Examples.symlinked 2
           (mkInode (SymLink "/tmp/x") 2 (N.lor S_IFLNK 493) 1 10 20 6 1 [])).
  - vm_compute. reflexivity.
  - discriminate.
Defined.

(** X6.  [mknod] in a directory that has links, with a mode that is neither
    a directory's nor a regular file's, replies ENOENT and changes nothing:
    no inode is registered and no name is bound. *)
Theorem FuseMknod_other_types fs req parent name mode rdev p :
  inode_at fs parent = Some p -> i_nlink p <> 0 -> is_Directory (Some p) = true ->
  S_ISDIR mode = false -> S_ISREG mode = false ->
  run (FuseMknod req parent name mode rdev) fs = Ok tt fs [reply_err ENOENT].
Proof.
  intros Hp Hl Hd Hdir Hreg. apply in_table in Hp as [E S].
  assert (Hn : null_or_unlinked (Some p) = false).
  { cbn. unfold HasNoLinks. now apply N.eqb_neq. }
  destruct fs as [table q rc s its]. cbn [Inodes] in *.
  unfold FuseMknod. mred. rewrite S. mred. rewrite E. mred.
  rewrite Hn, Hd, Hdir, Hreg. reflexivity.
Qed.

Lemma FuseMknod_other_types_witness :
  run (FuseMknod Examples.caller 1 "fifo" 4516 0) Examples.mounted =
    Ok tt Examples.mounted [reply_err ENOENT].
Proof.
  apply (FuseMknod_other_types Examples.mounted Examples.caller 1 "fifo" 4516 0
           (mkInode (Directory [(".", 1); ("..", 1)]%string) 1 (N.lor S_IFDIR 511)
                    3 6 5 0 0 []));
    first [reflexivity | discriminate].
Defined.

(** X7.  A name that is not bound in the directory: [lookup], [unlink],
    [rmdir] and [rename] of it reply ENOENT and change nothing ([lookup] in
    any directory, the others in a directory that has links). *)
Theorem missing_name_is_ENOENT fs parent name p :
  inode_at fs parent = Some p -> is_Directory (Some p) = true ->
  StdMap.find name (Children p) = None ->
  run (FuseLookup parent name) fs = Ok tt fs [reply_err ENOENT] /\
  (i_nlink p <> 0 ->
   run (FuseUnlink parent name) fs = Ok tt fs [reply_err ENOENT] /\
   run (FuseRmdir parent name) fs = Ok tt fs [reply_err ENOENT] /\
   forall newparent newname,
     run (FuseRename parent name newparent newname) fs = Ok tt fs [reply_err ENOENT]).
Proof.
  intros Hp Hd Hf. apply in_table in Hp as [E S].
  assert (Hc : child_number (Some p) name = INO_NOTFOUND).
  { cbn. unfold ChildInodeNumberWithName. now rewrite Hf. }
  destruct fs as [table q rc s its]. cbn [Inodes] in *.
  split.
  - unfold FuseLookup. mred. rewrite S. mred. rewrite E. mred.
    rewrite Hd, Hc. reflexivity.
  - intros Hl.
    assert (Hn : null_or_unlinked (Some p) = false).
    { cbn. unfold HasNoLinks. now apply N.eqb_neq. }
    repeat split; [| |intros newparent newname]; unfold_all_callbacks; mred;
      rewrite S; mred; rewrite E; mred; rewrite Hn, Hd, Hc; reflexivity.
Qed.

Lemma missing_name_is_ENOENT_witness :
  run (FuseLookup 1 "c") Examples.two_files = Ok tt Examples.two_files [reply_err ENOENT] /\
  run (FuseUnlink 1 "c") Examples.two_files = Ok tt Examples.two_files [reply_err ENOENT] /\
  run (FuseRmdir 1 "c") Examples.two_files = Ok tt Examples.two_files [reply_err ENOENT] /\
  forall newparent newname,
    run (FuseRename 1 "c" newparent newname) Examples.two_files =
      Ok tt Examples.two_files [reply_err ENOENT].
Proof.
  destruct (missing_name_is_ENOENT Examples.two_files 1 "c"
              (mkInode (Directory [(".", 1); ("..", 1); ("a", 2); ("b", 3)]%string) 1
                       (N.lor S_IFDIR 511) 3 6 5 0 0 []))
    as [Hlookup Hrest]; try reflexivity.
  split; [exact Hlookup|]. apply Hrest. discriminate.
Defined.

(** X8.  [mkdir] of a name that is bound in the directory, to whatever
    number, replies EEXIST and changes nothing. *)
Theorem FuseMkdir_existing_name fs req parent name mode p n :
  inode_at fs parent = Some p -> is_Directory (Some p) = true ->
  StdMap.find name (Children p) = Some n -> n <> INO_NOTFOUND ->
  run (FuseMkdir req parent name mode) fs = Ok tt fs [reply_err EEXIST].
Proof.
  intros Hp Hd Hf Hn. apply in_table in Hp as [E S].
  assert (Hc : (child_number (Some p) name =? INO_NOTFOUND) = false).
  { cbn. unfold ChildInodeNumberWithName. rewrite Hf. now apply N.eqb_neq. }
  destruct fs as [table q rc s its]. cbn [Inodes] in *.
  unfold FuseMkdir. mred. rewrite S. mred. rewrite E. mred.
  rewrite Hd, Hc. reflexivity.
Qed.

Lemma FuseMkdir_existing_name_witness :
  run (FuseMkdir Examples.caller 1 "a" 493) Examples.renamed =
    Ok tt Examples.renamed [reply_err EEXIST].
Proof.
  apply (FuseMkdir_existing_name Examples.renamed Examples.caller 1 "a" 493
           (mkInode (Directory [(".", 1); ("..", 1); ("a", 0); ("b", 2)]%string) 1
                    (N.lor S_IFDIR 511) 2 6 5 0 0 []) 0);
    first [reflexivity | discriminate].
Defined.

(** ** Predicates that every callback keeps *)

(** The state after a registration, as a sequence of elementary updates. *)
Lemma appended_state fs i b :
  DeletedInodes fs = [] ->
  mkFs (Inodes fs ++ [Some i]) [] (m_reclaimingInodes fs)
       (debit_blocks b (debit_inodes 1 (m_stbuf fs))) (m_iterators fs) =
  let fs1 := with_Inodes (Inodes fs ++ [Some i]) fs in
  let fs2 := with_stbuf (debit_inodes 1 (m_stbuf fs1)) fs1 in
  with_stbuf (debit_blocks b (m_stbuf fs2)) fs2.
Proof. destruct fs. cbn. intros ->. reflexivity. Qed.

Lemma reused_state fs front rest i b :
  DeletedInodes fs = front :: rest ->
  mkFs (<[N.to_nat front := Some i]> (Inodes fs)) rest (m_reclaimingInodes fs)
       (debit_blocks b (m_stbuf fs)) (m_iterators fs) =
  let fs1 := with_Inodes (<[N.to_nat front := Some i]> (Inodes fs))
                         (with_DeletedInodes rest fs) in
  with_stbuf (debit_blocks b (m_stbuf fs1)) fs1.
Proof. destruct fs. cbn. intros ->. reflexivity. Qed.

Lemma released_state fs n b :
  with_DeletedInodes (DeletedInodes fs ++ [n])
    (with_stbuf (debit_inodes b (m_stbuf fs))
       (with_Inodes (<[N.to_nat n := None]> (Inodes fs)) fs)) =
  with_stbuf (debit_inodes b (m_stbuf (release fs n))) (release fs n).
Proof. destruct fs. reflexivity. Qed.

Section Invariant.

Variable P : FuseRamFs -> Prop.

(** The elementary updates of the state: an object replaced in a slot that
    holds one, a counter debited, the iterators changed, the flag cleared, a
    slot appended while the queue is empty, the front of the queue taken and
    its slot filled, a slot that holds an object emptied and queued. *)
Hypothesis P_store : forall fs n i j, P fs -> inode_at fs n = Some i -> P (store fs n j).
Hypothesis P_debit_blocks :
  forall fs b, P fs -> P (with_stbuf (debit_blocks b (m_stbuf fs)) fs).
Hypothesis P_debit_inodes :
  forall fs b, P fs -> P (with_stbuf (debit_inodes b (m_stbuf fs)) fs).
Hypothesis P_reset : forall fs, P fs -> P (with_stbuf (reset_stbuf (m_stbuf fs)) fs).
Hypothesis P_iterators : forall fs h, P fs -> P (with_iterators h fs).
Hypothesis P_reclaiming : forall fs b, P fs -> P (with_reclaiming b fs).
Hypothesis P_append :
  forall fs i, P fs -> DeletedInodes fs = [] -> P (with_Inodes (Inodes fs ++ [Some i]) fs).
Hypothesis P_reuse :
  forall fs front rest i,
    P fs -> DeletedInodes fs = front :: rest ->
    (N.to_nat front < length (Inodes fs))%nat ->
    P (with_Inodes (<[N.to_nat front := Some i]> (Inodes fs)) (with_DeletedInodes rest fs)).
Hypothesis P_release : forall fs n i, P fs -> inode_at fs n = Some i -> P (release fs n).

Lemma pres_ret {A} (a : A) : preserves P (ret a).
Proof. intros fs sent b fs' sent' H [= _ <- _]. exact H. Qed.

Lemma pres_crash {A} (f : Fault) : preserves P (crash (A := A) f).
Proof. intros fs sent b fs' sent' H [=]. Qed.

Lemma pres_bind {A B} (c : M A) (k : A -> M B) :
  preserves P c -> (forall a, preserves P (k a)) -> preserves P (bind c k).
Proof.
  intros Hc Hk fs sent b fs' sent' H. unfold bind.
  destruct (c fs sent) as [a fs1 sent1|] eqn:E; [|discriminate].
  intros Hrun. exact (Hk a _ _ _ _ _ (Hc _ _ _ _ _ H E) Hrun).
Qed.

Lemma pres_reply (r : Reply) : preserves P (fuse_reply r).
Proof. intros fs sent b fs' sent' H [= _ <- _]. exact H. Qed.

Lemma pres_reply_err (e : N) : preserves P (fuse_reply_err e).
Proof. apply pres_reply. Qed.

Lemma pres_size : preserves P Inodes_size.
Proof. intros fs sent b fs' sent' H [= _ <- _]. exact H. Qed.

Lemma pres_get : preserves P get_fs.
Proof. intros fs sent b fs' sent' H [= _ <- _]. exact H. Qed.

Lemma pres_at (n : N) : preserves P (Inodes_at n).
Proof.
  intros fs sent b fs' sent' H. unfold Inodes_at.
  destruct (Inodes fs !! N.to_nat n); [|discriminate]. intros [= _ <- _]. exact H.
Qed.

Lemma pres_deref (n : N) : preserves P (deref n).
Proof.
  intros fs sent i fs' sent' H E. apply deref_inv in E as (-> & _ & _). exact H.
Qed.

Lemma pres_method (n : N) (f : Inode -> Inode) : preserves P (method n f).
Proof.
  intros fs sent [] fs' sent' H E.
  destruct (method_same _ _ _ _ _ _ E) as (i & Hi & _).
  apply method_inv in E as (i' & Ei & -> & _).
  apply in_table in Hi as [Ei' _]. rewrite Ei' in Ei. injection Ei as <-.
  apply (P_store _ _ i _ H). unfold inode_at. now rewrite Ei'.
Qed.

Lemma pres_modify (f : FuseRamFs -> FuseRamFs) :
  (forall fs, P fs -> P (f fs)) -> preserves P (modify_fs f).
Proof. intros Hf fs sent b fs' sent' H [= _ <- _]. now apply Hf. Qed.

Lemma pres_UpdateUsedBlocks (b : N) : preserves P (UpdateUsedBlocks b).
Proof. apply pres_modify. intros fs. apply P_debit_blocks. Qed.

Lemma pres_UpdateUsedInodes (b : N) : preserves P (UpdateUsedInodes b).
Proof. apply pres_modify. intros fs. apply P_debit_inodes. Qed.

(** A store into a slot that was just read and held an object. *)
Lemma pres_store_after_deref {A} (n : N) (k : Inode -> M A) :
  (forall i fs sent a fs' sent',
     P fs -> inode_at fs n = Some i -> k i fs sent = Ok a fs' sent' -> P fs') ->
  preserves P (bind (deref n) k).
Proof.
  intros Hk fs sent a fs' sent' H. unfold bind.
  destruct (deref n fs sent) as [i fs1 sent1|] eqn:E; [|discriminate].
  apply deref_inv in E as (-> & -> & Hi). eauto.
Qed.

Lemma store_run fs sent n i j :
  inode_at fs n = Some i -> Inodes_store n (Some j) fs sent = Ok tt (store fs n j) sent.
Proof. intros H. apply in_table in H as [E _]. unfold Inodes_store. now rewrite E. Qed.

(** Splits a computation into its steps, down to the reads, the replies and
    the member functions. *)
Ltac pres_step :=
  lazymatch goal with
  | |- preserves _ (bind _ _) => apply pres_bind; [|intros ?]
  | |- preserves _ (ret _) => apply pres_ret
  | |- preserves _ (crash _) => apply pres_crash
  | |- preserves _ (fuse_reply _) => apply pres_reply
  | |- preserves _ (fuse_reply_err _) => apply pres_reply_err
  | |- preserves _ Inodes_size => apply pres_size
  | |- preserves _ get_fs => apply pres_get
  | |- preserves _ (Inodes_at _) => apply pres_at
  | |- preserves _ (deref _) => apply pres_deref
  | |- preserves _ (method _ _) => apply pres_method
  | |- preserves _ (UpdateUsedBlocks _) => apply pres_UpdateUsedBlocks
  | |- preserves _ (UpdateUsedInodes _) => apply pres_UpdateUsedInodes
  | |- preserves _ (match ?x with _ => _ end) => destruct x
  end.

Ltac pres := cbv zeta; repeat (pres_step; cbv zeta).

Lemma pres_ReplyEntry (this : N) : preserves P (ReplyEntry this).
Proof. unfold ReplyEntry. pres. Qed.

Lemma pres_ReplyCreate (this : N) : preserves P (ReplyCreate this).
Proof. unfold ReplyCreate. pres. Qed.

Lemma pres_Forget (this n : N) : preserves P (Forget this n).
Proof. unfold Forget. pres. Qed.

Lemma pres_ReplyAttr (this : N) : preserves P (ReplyAttr this).
Proof. unfold ReplyAttr. pres. Qed.

Lemma pres_ReplyAccess (this mask gid uid : N) : preserves P (ReplyAccess this mask gid uid).
Proof. unfold ReplyAccess. pres. Qed.

Lemma pres_ReadAndReply (this size off : N) : preserves P (ReadAndReply this size off).
Proof. unfold ReadAndReply. pres. Qed.

Lemma pres_GetXAttrAndReply (this : N) name (size position : N) :
  preserves P (GetXAttrAndReply this name size position).
Proof. unfold GetXAttrAndReply. pres. Qed.

Lemma pres_ListXAttrAndReply (this size : N) : preserves P (ListXAttrAndReply this size).
Proof. unfold ListXAttrAndReply. pres. Qed.

(** The member functions that store the object they have read. *)
Ltac pres_stored Hi :=
  apply pres_store_after_deref; intros i fs sent a fs' sent' H Hi; cbv zeta;
  unfold bind, fuse_reply_err, fuse_reply, ret, get_fs, UpdateUsedBlocks, modify_fs;
  repeat first
    [ rewrite (store_run _ _ _ _ _ Hi)
    | lazymatch goal with
      | |- ?lhs = _ -> _ =>
          let x := head_scrutinee lhs in
          lazymatch x with
          | Ok _ _ _ => fail
          | Crash _ _ _ => fail
          | Inodes_store _ _ _ _ => fail
          | _ => destruct x
          end
      end; cbv beta iota ];
  intros [= _ <- _];
  first [ assumption
        | eapply P_store; eassumption
        | refine (P_debit_blocks (store _ _ _) _ _); eapply P_store; eassumption ].

Lemma pres_Truncate (this size : N) : preserves P (Truncate this size).
Proof. unfold Truncate. pres_stored Hi. Qed.

Lemma pres_WriteAndReply (this : N) buf (size off : N) :
  preserves P (WriteAndReply this buf size off).
Proof. unfold WriteAndReply. pres_stored Hi. Qed.

Lemma pres_SetXAttrAndReply (this : N) name value (size flags position : N) :
  preserves P (SetXAttrAndReply this name value size flags position).
Proof. unfold SetXAttrAndReply. pres_stored Hi. Qed.

Lemma pres_RemoveXAttrAndReply (this : N) name :
  preserves P (RemoveXAttrAndReply this name).
Proof. unfold RemoveXAttrAndReply. pres_stored Hi. Qed.

Lemma pres_ReplySetAttr (this : N) attr (to_set : N) :
  preserves P (ReplySetAttr this attr to_set).
Proof.
  unfold ReplySetAttr. pres; first [apply pres_Truncate | apply pres_ReplyAttr].
Qed.

Lemma pres_RegisterInode inode_p (mode nlink gid uid : N) :
  preserves P (RegisterInode inode_p mode nlink gid uid).
Proof.
  intros fs sent ino fs' sent' H.
  destruct (DeletedInodes fs) as [|front rest] eqn:E.
  - rewrite (RegisterInode_append _ _ _ _ _ _ _ E). cbv zeta. intros [= _ <- _].
    rewrite (appended_state _ _ _ E). cbv zeta.
    apply P_debit_blocks, P_debit_inodes. now apply P_append.
  - destruct (Nat.lt_ge_cases (N.to_nat front) (length (Inodes fs))) as [Hlt|Hge].
    + rewrite (RegisterInode_reuse _ _ _ _ _ _ _ _ _ E Hlt). cbv zeta. intros [= _ <- _].
      rewrite (reused_state _ _ _ _ _ E). cbv zeta.
      apply P_debit_blocks. now apply P_reuse.
    + destruct (RegisterInode_stale _ sent inode_p mode nlink gid uid _ _ E Hge) as [fs1 ->].
      discriminate.
Qed.

Lemma pres_FuseForget (ino nlookup : N) : preserves P (FuseForget ino nlookup).
Proof.
  unfold FuseForget. apply pres_bind; [apply pres_at|]. intros [j|]; [|apply pres_ret].
  apply pres_bind; [apply pres_Forget|]. intros _.
  apply pres_store_after_deref. intros i fs sent a fs' sent' H Hi.
  destruct (Forgotten i); [|intros [= _ <- _]; exact H].
  destruct (HasNoLinks i); [|intros [= _ <- _]; exact H].
  pose proof (in_table _ _ _ Hi) as [E _].
  unfold bind, Inodes_store, UpdateUsedInodes, modify_fs. rewrite E.
  intros [= _ <- _]. cbn [m_stbuf with_Inodes DeletedInodes with_stbuf].
  rewrite released_state. apply P_debit_inodes. exact (P_release _ _ _ H Hi).
Qed.

Ltac pres_callback :=
  cbv zeta;
  repeat (first
    [ pres_step
    | apply pres_ReplyEntry | apply pres_ReplyCreate | apply pres_ReplyAttr
    | apply pres_ReplySetAttr | apply pres_ReplyAccess | apply pres_ReadAndReply
    | apply pres_WriteAndReply | apply pres_SetXAttrAndReply | apply pres_GetXAttrAndReply
    | apply pres_ListXAttrAndReply | apply pres_RemoveXAttrAndReply
    | apply pres_RegisterInode | apply pres_FuseForget
    | apply pres_modify; intros ?; first [apply P_iterators | apply P_reclaiming | apply P_reset] ];
    cbv zeta).

(** Every callback on an inode keeps the predicate. *)
Lemma pres_perform (o : Op) (ino : N) : preserves P (perform o ino).
Proof.
  destruct o; cbn [perform];
    unfold FuseLookup, FuseGetAttr, FuseSetAttr, FuseOpenDir, FuseReleaseDir,
      FuseReadDir, FuseOpen, FuseRelease, FuseRead, FuseWrite, FuseReadLink, FuseSetXAttr,
      FuseGetXAttr, FuseListXAttr, FuseRemoveXAttr, FuseAccess, FuseMknod, FuseMkdir,
      FuseUnlink, FuseRmdir, FuseRename, FuseLink, FuseSymlink, FuseCreate, FuseFlush,
      FuseFsync, FuseFsyncDir, FuseStatfs, FuseGetLock,
      AddHardLink, RemoveHardLink, AddChild, UpdateChild, RemoveChild;
    pres_callback.
Qed.

(** So does the initialization. *)
Lemma pres_FuseInit (gid uid : N) : preserves P (FuseInit gid uid).
Proof.
  unfold FuseInit, AddChild. pres_callback.
Qed.

End Invariant.

(** ** The queue holds the empty slots *)

Lemma sq_same_table fs fs' :
  Inodes fs' = Inodes fs -> DeletedInodes fs' = DeletedInodes fs ->
  slots_queued fs -> slots_queued fs'.
Proof. unfold slots_queued. intros -> ->. auto. Qed.

Lemma sq_store fs n i j : slots_queued fs -> inode_at fs n = Some i -> slots_queued (store fs n j).
Proof.
  intros [Hnd Hq] Hi. apply in_table in Hi as [E _].
  split; [exact Hnd|]. intros m. cbn [store DeletedInodes Inodes with_Inodes].
  rewrite Hq. destruct (decide (N.to_nat m = N.to_nat n)) as [Heq|Hne].
  - rewrite Heq, E. rewrite list_lookup_insert_eq by (eapply lookup_lt_Some; eauto).
    split; discriminate.
  - now rewrite list_lookup_insert_ne by congruence.
Qed.

Lemma sq_append fs i :
  slots_queued fs -> DeletedInodes fs = [] ->
  slots_queued (with_Inodes (Inodes fs ++ [Some i]) fs).
Proof.
  intros [Hnd Hq] E. split; [exact Hnd|]. intros m.
  cbn [DeletedInodes Inodes with_Inodes]. rewrite E. split.
  - intros H. inversion H.
  - intros H. apply lookup_app_Some in H as [H|[_ H]].
    + apply Hq in H. rewrite E in H. inversion H.
    + destruct (N.to_nat m - length (Inodes fs))%nat; discriminate.
Qed.

Lemma sq_reuse fs front rest i :
  slots_queued fs -> DeletedInodes fs = front :: rest ->
  (N.to_nat front < length (Inodes fs))%nat ->
  slots_queued (with_Inodes (<[N.to_nat front := Some i]> (Inodes fs))
                            (with_DeletedInodes rest fs)).
Proof.
  intros [Hnd Hq] E Hlt. rewrite E in Hnd. apply NoDup_cons in Hnd as [Hnotin Hnd].
  split; [exact Hnd|]. intros m.
  cbn [DeletedInodes Inodes with_Inodes with_DeletedInodes].
  destruct (decide (m = front)) as [->|Hne].
  - rewrite list_lookup_insert_eq by assumption. split; [contradiction|discriminate].
  - rewrite list_lookup_insert_ne by lia. rewrite <- Hq, E.
    rewrite elem_of_cons. tauto.
Qed.

Lemma sq_release fs n i : slots_queued fs -> inode_at fs n = Some i -> slots_queued (release fs n).
Proof.
  intros [Hnd Hq] Hi. apply in_table in Hi as [E _].
  assert (Hnotin : n ∉ DeletedInodes fs).
  { intros H. apply Hq in H. rewrite E in H. discriminate. }
  split; cbn [release DeletedInodes Inodes with_Inodes with_DeletedInodes].
  - apply NoDup_app. split; [exact Hnd|]. split.
    + intros x Hx Hx'. apply list_elem_of_singleton in Hx'. now subst.
    + apply NoDup_singleton.
  - intros m. rewrite elem_of_app, list_elem_of_singleton.
    destruct (decide (m = n)) as [->|Hne].
    + rewrite list_lookup_insert_eq by (eapply lookup_lt_Some; eauto). tauto.
    + rewrite list_lookup_insert_ne by lia. rewrite <- Hq. tauto.
Qed.

(** Every callback keeps the queue and the empty slots in step. *)
Lemma perform_keeps_slots_queued o ino : preserves slots_queued (perform o ino).
Proof.
  apply pres_perform.
  - exact sq_store.
  - intros fs b. now apply sq_same_table.
  - intros fs b. now apply sq_same_table.
  - intros fs h. now apply sq_same_table.
  - exact sq_append.
  - exact sq_reuse.
  - exact sq_release.
Qed.

Lemma FuseInit_keeps_slots_queued gid uid : preserves slots_queued (FuseInit gid uid).
Proof.
  apply pres_FuseInit.
  - exact sq_store.
  - intros fs b. now apply sq_same_table.
  - intros fs b. now apply sq_same_table.
  - intros fs. now apply sq_same_table.
  - intros fs b. now apply sq_same_table.
  - exact sq_append.
  - exact sq_reuse.
Qed.

Lemma session_keeps (P : FuseRamFs -> Prop) (cs : list Call) :
  (forall c, preserves P (call c)) ->
  forall fs fs', P fs -> session (map call cs) fs = Some fs' -> P fs'.
Proof.
  intros Hc. induction cs as [|c cs IH]; intros fs fs' H; cbn [map session].
  - intros [= <-]. exact H.
  - unfold run. destruct (call c fs []) as [[] fs1 sent1|] eqn:E; [|discriminate].
    apply IH. exact (Hc c _ _ _ _ _ H E).
Qed.

Lemma call_keeps_slots_queued c : preserves slots_queued (call c).
Proof.
  destruct c; [apply FuseInit_keeps_slots_queued | apply perform_keeps_slots_queued].
Qed.

Lemma new_slots_queued kTotalBlocks kTotalInodes kFilesystemId kMaxFilenameLength :
  slots_queued (FuseRamFs_new kTotalBlocks kTotalInodes kFilesystemId kMaxFilenameLength).
Proof.
  split; [constructor|]. intros n. cbn. split; [intros H; inversion H|discriminate].
Qed.

Lemma session_slots_queued (cs : list Call) fs fs' :
  slots_queued fs -> session (map call cs) fs = Some fs' -> slots_queued fs'.
Proof. apply (session_keeps slots_queued cs call_keeps_slots_queued). Qed.

(** X9.  In every state that calls of the callbacks reach from the file
    system as constructed, without going wrong, [DeletedInodes] holds no
    number twice and holds exactly the numbers of the slots that are
    [nullptr]. *)
Theorem queue_holds_the_empty_slots kTotalBlocks kTotalInodes kFilesystemId kMaxFilenameLength
    (cs : list Call) fs' :
  session (map call cs)
          (FuseRamFs_new kTotalBlocks kTotalInodes kFilesystemId kMaxFilenameLength) = Some fs' ->
  slots_queued fs'.
Proof. apply session_slots_queued, new_slots_queued. Qed.

Lemma queue_holds_the_empty_slots_witness : slots_queued Examples.released.
Proof.
  apply (queue_holds_the_empty_slots 1000 100 7 255 MoreExamples.create_unlink_forget).
  vm_compute. reflexivity.
Defined.

(** X10.  No callback changes the block sizes, the total numbers of blocks
    and of inodes, the identifier or the name limit of the statistics
    block. *)
Theorem capacity_is_constant (cs : list Call) fs fs' :
  session (map call cs) fs = Some fs' -> capacity fs' = capacity fs.
Proof.
  apply (session_keeps (fun x => capacity x = capacity fs) cs); [|reflexivity].
  intros [gid uid|o ino]; cbn [call].
  - apply pres_FuseInit; intros; destruct fs0; cbn in *; assumption.
  - apply pres_perform; intros; destruct fs0; cbn in *; assumption.
Qed.

Lemma capacity_is_constant_witness :
  capacity Examples.released = capacity Examples.fresh.
Proof.
  apply (capacity_is_constant MoreExamples.create_unlink_forget).
  vm_compute. reflexivity.
Defined.

(** X11.  The table never shrinks: a number that is a slot stays one. *)
Theorem table_never_shrinks (cs : list Call) fs fs' :
  session (map call cs) fs = Some fs' ->
  (length (Inodes fs) <= length (Inodes fs'))%nat.
Proof.
  apply (session_keeps (fun x => (length (Inodes fs) <= length (Inodes x))%nat) cs);
    [|reflexivity].
  intros [gid uid|o ino]; cbn [call];
    [apply pres_FuseInit | apply pres_perform];
    intros; cbn [store release Inodes with_Inodes with_stbuf with_iterators
                 with_reclaiming with_DeletedInodes];
    rewrite ?length_insert, ?length_app; try assumption; lia.
Qed.

Lemma table_never_shrinks_witness :
  (length (Inodes Examples.fresh) <= length (Inodes Examples.released))%nat.
Proof.
  apply (table_never_shrinks MoreExamples.create_unlink_forget).
  vm_compute. reflexivity.
Defined.

(** ** Forgetting *)

(** X12.  A [forget] that leaves the lookup count above zero, or finds the
    inode with links, changes the lookup count of the inode and nothing
    else: the count goes down by [nlookup], wrapping around in 64 bits, and
    the slot, the queue and the counters are as before. *)
Theorem FuseForget_keeps_the_inode fs ino i nlookup :
  inode_at fs ino = Some i ->
  sub64 (m_nlookup i) nlookup <> 0 \/ i_nlink i <> 0 ->
  run (FuseForget ino nlookup) fs =
    Ok tt (store fs ino (with_nlookup (sub64 (m_nlookup i) nlookup) i)) [reply_none].
Proof.
  intros Hi Hkeep.
  set (j := with_nlookup (sub64 (m_nlookup i) nlookup) i).
  pose proof (inode_at_store_eq _ _ _ j Hi) as Hj.
  pose proof (in_table _ _ _ Hi) as [E _].
  unfold FuseForget, run.
  erewrite bind_run by (apply Inodes_at_Some; exact E).
  unfold Forget.
  erewrite bind_run.
  2:{ erewrite bind_run by (apply method_run; exact Hi). reflexivity. }
  erewrite bind_run by (apply deref_run; exact Hj).
  unfold Forgotten, HasNoLinks. cbn [j m_nlookup i_nlink with_nlookup].
  destruct Hkeep as [Hk|Hl].
  - rewrite (proj2 (N.eqb_neq _ _) Hk). reflexivity.
  - rewrite (proj2 (N.eqb_neq _ _) Hl). now destruct (_ =? 0).
Qed.

Lemma FuseForget_keeps_the_inode_witness :
  run (FuseForget 2 1) Examples.two_files =
    Ok tt (store Examples.two_files 2
             (with_nlookup (sub64 (m_nlookup (MoreExamples.file 2)) 1) (MoreExamples.file 2)))
       [reply_none].
Proof.
  apply (FuseForget_keeps_the_inode Examples.two_files 2 (MoreExamples.file 2) 1).
  - vm_compute. reflexivity.
  - right. discriminate.
Defined.

(** X13.  When the queue is empty and [forget] releases an inode, its number
    is the one the next registration gives out, and the table is no longer
    than it was. *)
Theorem released_number_is_reused fs ino i nlookup inode_p mode nlink gid uid :
  inode_at fs ino = Some i ->
  sub64 (m_nlookup i) nlookup = 0 -> i_nlink i = 0 ->
  DeletedInodes fs = [] ->
  exists fs1 fs2,
    run (FuseForget ino nlookup) fs = Ok tt fs1 [reply_none] /\
    inode_at fs1 ino = None /\
    run (RegisterInode inode_p mode nlink gid uid) fs1 = Ok ino fs2 [] /\
    inode_at fs2 ino = Some (Initialize ino mode nlink gid uid inode_p) /\
    DeletedInodes fs2 = [] /\
    length (Inodes fs2) = length (Inodes fs).
Proof.
  intros Hi Hk Hl Hq.
  rewrite (FuseForget_release _ _ _ _ Hi Hk Hl), Hq. cbn [app].
  pose proof (in_table _ _ _ Hi) as [E _].
  assert (Hlt : (N.to_nat ino < length (Inodes fs))%nat) by (eapply lookup_lt_Some; eauto).
  eexists _, _. split; [reflexivity|]. split.
  { unfold inode_at. cbn [Inodes]. now rewrite list_lookup_insert_eq. }
  unfold run. erewrite RegisterInode_reuse; [|reflexivity|cbn [Inodes]; now rewrite length_insert].
  cbv zeta. split; [reflexivity|]. cbn [Inodes DeletedInodes]. split; [|split; [reflexivity|]].
  - unfold inode_at. cbn [Inodes].
    now rewrite list_lookup_insert_eq by (rewrite length_insert; lia).
  - now rewrite !length_insert.
Qed.

Lemma released_number_is_reused_witness :
  exists fs1 fs2,
    run (FuseForget 2 1) Examples.unlinked = Ok tt fs1 [reply_none] /\
    inode_at fs1 2 = None /\
    run (RegisterInode new_File Examples.reg 1 20 10) fs1 = Ok 2 fs2 [] /\
    inode_at fs2 2 = Some (Initialize 2 Examples.reg 1 20 10 new_File) /\
    DeletedInodes fs2 = [] /\
    length (Inodes fs2) = length (Inodes Examples.unlinked).
Proof.
  apply (released_number_is_reused Examples.unlinked 2
           (mkInode (File []) 2 Examples.reg 0 10 20 0 1 []) 1
           new_File Examples.reg 1 20 10); reflexivity.
Defined.

(** ** Names and the inodes they find *)

Lemma live (i : Inode) : i_nlink i <> 0 -> null_or_unlinked (Some i) = false.
Proof. intros H. cbn. unfold HasNoLinks. now apply N.eqb_neq. Qed.

Lemma at_run fs sent n i :
  inode_at fs n = Some i -> Inodes_at n fs sent = Ok (Some i) fs sent.
Proof. intros H. apply in_table in H as [E _]. now apply Inodes_at_Some. Qed.

Lemma ReplyEntry_run fs sent n i :
  inode_at fs n = Some i ->
  ReplyEntry n fs sent =
    let j := with_nlookup (add64 (m_nlookup i) 1) i in
    Ok tt (store fs n j) (sent ++ [reply_entry (GetAttr j)]).
Proof.
  intros Hi. unfold ReplyEntry.
  erewrite bind_run by (apply method_run; exact Hi).
  erewrite bind_run by (apply deref_run; apply (inode_at_store_eq _ _ _ _ Hi)).
  reflexivity.
Qed.

(** What [FuseLookup] does for a name that is bound to an inode with links. *)
Lemma FuseLookup_run fs parent name p ino c :
  inode_at fs parent = Some p -> is_Directory (Some p) = true ->
  ChildInodeNumberWithName name p = ino -> ino <> INO_NOTFOUND ->
  inode_at fs ino = Some c -> i_nlink c <> 0 ->
  run (FuseLookup parent name) fs =
    let j := with_nlookup (add64 (m_nlookup c) 1) c in
    Ok tt (store fs ino j) [reply_entry (GetAttr j)].
Proof.
  intros Hp Hd Hino Hfound Hc Hl. pose proof (in_table _ _ _ Hp) as [_ S].
  unfold FuseLookup, run.
  erewrite bind_run by reflexivity. rewrite S.
  erewrite bind_run by (apply at_run; exact Hp).
  rewrite Hd. cbn [negb child_number]. cbv zeta. rewrite Hino.
  rewrite (proj2 (N.eqb_neq _ _) Hfound).
  erewrite bind_run by (apply at_run; exact Hc).
  rewrite (live _ Hl). now rewrite (ReplyEntry_run _ _ _ _ Hc).
Qed.

(** X14.  [lookup] of a name that is bound, in a directory, to an inode with
    links replies the entry of that inode and adds one to its lookup count;
    nothing else changes.  The directory itself is not tested for links. *)
Theorem FuseLookup_finds_the_inode fs parent name p ino c :
  inode_at fs parent = Some p -> is_Directory (Some p) = true ->
  ChildInodeNumberWithName name p = ino -> ino <> INO_NOTFOUND ->
  inode_at fs ino = Some c -> i_nlink c <> 0 ->
  run (FuseLookup parent name) fs =
    Ok tt (store fs ino (with_nlookup (add64 (m_nlookup c) 1) c))
       [reply_entry (GetAttr (with_nlookup (add64 (m_nlookup c) 1) c))].
Proof. exact (FuseLookup_run fs parent name p ino c). Qed.

Lemma FuseLookup_finds_the_inode_witness :
  run (FuseLookup 1 "b") Examples.two_files =
    Ok tt (store Examples.two_files 3
             (with_nlookup (add64 (m_nlookup (MoreExamples.file 3)) 1) (MoreExamples.file 3)))
       [reply_entry (GetAttr (with_nlookup (add64 (m_nlookup (MoreExamples.file 3)) 1)
                                           (MoreExamples.file 3)))].
Proof.
  apply (FuseLookup_finds_the_inode Examples.two_files 1 "b" MoreExamples.root_ab 3
           (MoreExamples.file 3)); first [reflexivity | discriminate].
Defined.

(** The inode in a slot after objects have been stored. *)
Ltac solve_at :=
  first [ eassumption
        | rewrite inode_at_store_ne by (first [assumption | apply not_eq_sym; assumption]);
          solve_at
        | erewrite inode_at_store_eq; [reflexivity | solve_at] ].

(** One step of a run: a member function, a read or a reply. *)
Ltac step :=
  first [ erewrite bind_run by (first [apply method_run | apply deref_run | apply at_run];
                                solve_at)
        | erewrite bind_run by reflexivity ].

(** What registration does when the queue holds the empty slots: the number
    it gives out was no inode, now it is the initialized object, and the
    other slots are as before. *)
Lemma RegisterInode_fresh fs sent inode_p mode nlink gid uid :
  slots_queued fs ->
  exists fs1,
    RegisterInode inode_p mode nlink gid uid fs sent = Ok (next_ino fs) fs1 sent /\
    inode_at fs (next_ino fs) = None /\
    inode_at fs1 (next_ino fs) = Some (Initialize (next_ino fs) mode nlink gid uid inode_p) /\
    (forall m, m <> next_ino fs -> inode_at fs1 m = inode_at fs m).
Proof.
  intros [_ Hq]. unfold next_ino.
  destruct (DeletedInodes fs) as [|front rest] eqn:E.
  - rewrite (RegisterInode_append _ _ _ _ _ _ _ E). cbv zeta.
    eexists. split; [reflexivity|]. unfold inode_at. cbn [Inodes].
    rewrite lookup_push_back. split; [|split; [reflexivity|]].
    + rewrite Nat2N.id. now rewrite lookup_ge_None_2.
    + intros m Hm. destruct (Nat.lt_ge_cases (N.to_nat m) (length (Inodes fs))) as [Hlt|Hge].
      * now rewrite lookup_app_l.
      * rewrite !lookup_ge_None_2; [reflexivity|lia|].
        rewrite length_app. cbn [length]. lia.
  - assert (Hslot : Inodes fs !! N.to_nat front = Some None).
    { apply Hq. apply elem_of_cons. now left. }
    assert (Hlt : (N.to_nat front < length (Inodes fs))%nat)
      by (eapply lookup_lt_Some; eauto).
    rewrite (RegisterInode_reuse _ _ _ _ _ _ _ _ _ E Hlt). cbv zeta.
    eexists. split; [reflexivity|]. unfold inode_at. cbn [Inodes].
    rewrite Hslot, list_lookup_insert_eq by assumption.
    split; [reflexivity|]. split; [reflexivity|].
    intros m Hm. now rewrite list_lookup_insert_ne by lia.
Qed.

Lemma find_insert_absent {V} (k : string) (v : V) (m : StdMap.t V) :
  StdMap.find k m = None -> StdMap.insert k v m = StdMap.assign k v m.
Proof. intros H. unfold StdMap.insert. now rewrite H. Qed.

Lemma FuseMkdir_run fs req parent name mode p :
  slots_queued fs ->
  inode_at fs parent = Some p -> is_Directory (Some p) = true ->
  StdMap.find name (Children p) = None ->
  exists fs' d p',
    run (FuseMkdir req parent name mode) fs = Ok tt fs' [reply_entry (GetAttr d)] /\
    inode_at fs (next_ino fs) = None /\
    inode_at fs' (next_ino fs) = Some d /\
    d = mkInode (Directory [(".", next_ino fs); ("..", parent)]%string) (next_ino fs)
                (N.lor mode S_IFDIR) 2 (ctx_uid req) (ctx_gid req) 0 1 [] /\
    inode_at fs' parent = Some p' /\
    p' = with_body (Directory (StdMap.assign name (next_ino fs) (Children p)))
                   (with_nlink (add64 (i_nlink p) 1) p) /\
    (forall m, m <> next_ino fs -> m <> parent -> inode_at fs' m = inode_at fs m).
Proof.
  intros Hq Hp Hd Hf. pose proof (in_table _ _ _ Hp) as [_ S].
  destruct (RegisterInode_fresh fs [] new_Directory (N.lor mode S_IFDIR) 2
              (ctx_gid req) (ctx_uid req) Hq) as (fs1 & Hreg & Hnone & Hnew & Hother).
  set (ino := next_ino fs) in *.
  assert (Hne : parent <> ino) by (intros ->; congruence).
  assert (Hp1 : inode_at fs1 parent = Some p) by (now rewrite Hother).
  unfold FuseMkdir, run.
  step. rewrite S. step.
  rewrite Hd. cbn [negb child_number]. unfold ChildInodeNumberWithName at 1. rewrite Hf.
  rewrite N.eqb_refl. cbn [negb].
  erewrite bind_run by exact Hreg.
  unfold AddChild, AddHardLink. do 4 step.
  erewrite ReplyEntry_run by solve_at. cbv zeta. cbn [app].
  eexists _, _, _. split; [reflexivity|]. split; [exact Hnone|].
  split; [solve_at|]. split; [reflexivity|].
  split; [solve_at|]. split.
  - unfold AddChild_obj, AddHardLink_obj, with_children.
    unfold is_Directory in Hd. destruct (body p) eqn:B; try discriminate.
    cbn [body with_nlink Children]. rewrite B.
    now rewrite (find_insert_absent _ _ _ Hf).
  - intros m Hm Hm'. rewrite !inode_at_store_ne by assumption. now apply Hother.
Qed.

(** X15.  [mkdir] of a name that is not bound, in a directory (which is not
    tested for links), when the queue holds the empty slots: the directory
    made has the number registration gives out, the entries "." for itself
    and ".." for the parent, two links, the mode with [S_IFDIR] set, the
    owner of the caller and one lookup; the parent gains the name and one
    link; no other slot changes; and a lookup of the name then replies the
    entry of the new directory. *)
Theorem FuseMkdir_makes_a_directory fs req parent name mode p :
  slots_queued fs ->
  inode_at fs parent = Some p -> is_Directory (Some p) = true ->
  StdMap.find name (Children p) = None ->
  next_ino fs <> INO_NOTFOUND ->
  exists fs' d p' fs'',
    run (FuseMkdir req parent name mode) fs = Ok tt fs' [reply_entry (GetAttr d)] /\
    inode_at fs (next_ino fs) = None /\
    inode_at fs' (next_ino fs) = Some d /\
    d = mkInode (Directory [(".", next_ino fs); ("..", parent)]%string) (next_ino fs)
                (N.lor mode S_IFDIR) 2 (ctx_uid req) (ctx_gid req) 0 1 [] /\
    inode_at fs' parent = Some p' /\
    p' = with_body (Directory (StdMap.assign name (next_ino fs) (Children p)))
                   (with_nlink (add64 (i_nlink p) 1) p) /\
    (forall m, m <> next_ino fs -> m <> parent -> inode_at fs' m = inode_at fs m) /\
    run (FuseLookup parent name) fs' =
      Ok tt fs'' [reply_entry (GetAttr (with_nlookup 2 d))].
Proof.
  intros Hq Hp Hd Hf Hmax.
  destruct (FuseMkdir_run fs req parent name mode p Hq Hp Hd Hf)
    as (fs' & d & p' & Hrun & Hnone & Hd' & Ed & Hp' & Ep & Hother).
  exists fs', d, p'. eexists. repeat (split; [eassumption|]).
  rewrite (FuseLookup_run fs' parent name p' (next_ino fs) d Hp'); try assumption.
  - cbv zeta. subst d. reflexivity.
  - subst p'. reflexivity.
  - subst p'. unfold ChildInodeNumberWithName. cbn [Children body with_body].
    now rewrite find_assign_eq.
  - subst d. discriminate.
Qed.

Lemma FuseMkdir_makes_a_directory_witness :
  exists fs' d p' fs'',
    run (FuseMkdir Examples.caller 1 "d" 493) Examples.mounted =
      Ok tt fs' [reply_entry (GetAttr d)] /\
    inode_at Examples.mounted (next_ino Examples.mounted) = None /\
    inode_at fs' (next_ino Examples.mounted) = Some d /\
    d = mkInode (Directory [(".", next_ino Examples.mounted); ("..", 1)]%string)
                (next_ino Examples.mounted) (N.lor 493 S_IFDIR) 2
                (ctx_uid Examples.caller) (ctx_gid Examples.caller) 0 1 [] /\
    inode_at fs' 1 = Some p' /\
    p' = with_body (Directory (StdMap.assign "d" (next_ino Examples.mounted)
                                             (Children MoreExamples.root)))
                   (with_nlink (add64 (i_nlink MoreExamples.root) 1) MoreExamples.root) /\
    (forall m, m <> next_ino Examples.mounted -> m <> 1 ->
               inode_at fs' m = inode_at Examples.mounted m) /\
    run (FuseLookup 1 "d") fs' = Ok tt fs'' [reply_entry (GetAttr (with_nlookup 2 d))].
Proof.
  apply (FuseMkdir_makes_a_directory Examples.mounted Examples.caller 1 "d" 493
           MoreExamples.root); try reflexivity.
  - apply (session_slots_queued [Call_init 5 6] Examples.fresh);
      [apply new_slots_queued | reflexivity].
  - discriminate.
Defined.

(** A lookup of a name just bound to an inode with links and one lookup. *)
Lemma lookup_of_new_entry fs parent name q ch ino c :
  inode_at fs parent = Some (with_body (Directory (StdMap.assign name ino ch)) q) ->
  ino <> INO_NOTFOUND ->
  inode_at fs ino = Some c -> i_nlink c <> 0 -> m_nlookup c = 1 ->
  exists fs', run (FuseLookup parent name) fs =
                Ok tt fs' [reply_entry (GetAttr (with_nlookup 2 c))].
Proof.
  intros Hp Hmax Hc Hl Hn.
  rewrite (FuseLookup_run fs parent name _ ino c Hp); try assumption.
  - cbv zeta. rewrite Hn. eexists. reflexivity.
  - reflexivity.
  - unfold ChildInodeNumberWithName. cbn [Children body with_body].
    now rewrite find_assign_eq.
Qed.

Lemma FuseCreate_run fs req parent name mode p :
  slots_queued fs ->
  inode_at fs parent = Some p -> i_nlink p <> 0 -> is_Directory (Some p) = true ->
  StdMap.find name (Children p) = None ->
  exists fs' f p',
    run (FuseCreate req parent name mode) fs = Ok tt fs' [reply_create (GetAttr f)] /\
    inode_at fs (next_ino fs) = None /\
    inode_at fs' (next_ino fs) = Some f /\
    f = mkInode (File []) (next_ino fs) mode 1 (ctx_uid req) (ctx_gid req) 0 1 [] /\
    inode_at fs' parent = Some p' /\
    p' = with_body (Directory (StdMap.assign name (next_ino fs) (Children p))) p /\
    (forall m, m <> next_ino fs -> m <> parent -> inode_at fs' m = inode_at fs m).
Proof.
  intros Hq Hp Hl Hd Hf. pose proof (in_table _ _ _ Hp) as [_ S].
  destruct (RegisterInode_fresh fs [] new_File mode 1
              (ctx_gid req) (ctx_uid req) Hq) as (fs1 & Hreg & Hnone & Hnew & Hother).
  set (ino := next_ino fs) in *.
  assert (Hne : parent <> ino) by (intros ->; congruence).
  assert (Hp1 : inode_at fs1 parent = Some p) by (now rewrite Hother).
  unfold FuseCreate, run.
  step. rewrite S. step. rewrite (live _ Hl), Hd. cbn [negb].
  erewrite bind_run by exact Hreg.
  unfold AddChild, ReplyCreate. do 3 step. unfold fuse_reply. cbn [app].
  eexists _, _, _. split; [reflexivity|]. split; [exact Hnone|].
  split; [solve_at|]. split; [reflexivity|].
  split; [solve_at|]. split.
  - unfold AddChild_obj, with_children.
    unfold is_Directory in Hd. destruct (body p) eqn:B; try discriminate.
    now rewrite (find_insert_absent _ _ _ Hf).
  - intros m Hm Hm'. rewrite !inode_at_store_ne by assumption. now apply Hother.
Qed.

(** X16.  [create] of a name that is not bound, in a directory with links,
    when the queue holds the empty slots: the file made has the number
    registration gives out, no bytes, one link, the mode as given, the owner
    of the caller and one lookup; the parent gains the name and keeps its
    link count; no other slot changes; and a lookup of the name then replies
    the entry of the new file. *)
Theorem FuseCreate_makes_a_file fs req parent name mode p :
  slots_queued fs ->
  inode_at fs parent = Some p -> i_nlink p <> 0 -> is_Directory (Some p) = true ->
  StdMap.find name (Children p) = None ->
  next_ino fs <> INO_NOTFOUND ->
  exists fs' f p' fs'',
    run (FuseCreate req parent name mode) fs = Ok tt fs' [reply_create (GetAttr f)] /\
    inode_at fs (next_ino fs) = None /\
    inode_at fs' (next_ino fs) = Some f /\
    f = mkInode (File []) (next_ino fs) mode 1 (ctx_uid req) (ctx_gid req) 0 1 [] /\
    inode_at fs' parent = Some p' /\
    p' = with_body (Directory (StdMap.assign name (next_ino fs) (Children p))) p /\
    (forall m, m <> next_ino fs -> m <> parent -> inode_at fs' m = inode_at fs m) /\
    run (FuseLookup parent name) fs' =
      Ok tt fs'' [reply_entry (GetAttr (with_nlookup 2 f))].
Proof.
  intros Hq Hp Hl Hd Hf Hmax.
  destruct (FuseCreate_run fs req parent name mode p Hq Hp Hl Hd Hf)
    as (fs' & f & p' & Hrun & Hnone & Hf' & Ef & Hp' & Ep & Hother).
  rewrite Ep in Hp'.
  destruct (lookup_of_new_entry fs' parent name p (Children p) (next_ino fs) f Hp' Hmax Hf')
    as (fs'' & Hlook).
  - subst f. discriminate.
  - subst f. reflexivity.
  - exists fs', f, p', fs''. rewrite <- Ep in Hp'. repeat (split; [eassumption|]). exact Hlook.
Qed.

Lemma FuseCreate_makes_a_file_witness :
  exists fs' f p' fs'',
    run (FuseCreate Examples.caller 1 "f" Examples.reg) Examples.mounted =
      Ok tt fs' [reply_create (GetAttr f)] /\
    inode_at Examples.mounted (next_ino Examples.mounted) = None /\
    inode_at fs' (next_ino Examples.mounted) = Some f /\
    f = mkInode (File []) (next_ino Examples.mounted) Examples.reg 1
                (ctx_uid Examples.caller) (ctx_gid Examples.caller) 0 1 [] /\
    inode_at fs' 1 = Some p' /\
    p' = with_body (Directory (StdMap.assign "f" (next_ino Examples.mounted)
                                             (Children MoreExamples.root)))
                   MoreExamples.root /\
    (forall m, m <> next_ino Examples.mounted -> m <> 1 ->
               inode_at fs' m = inode_at Examples.mounted m) /\
    run (FuseLookup 1 "f") fs' = Ok tt fs'' [reply_entry (GetAttr (with_nlookup 2 f))].
Proof.
  apply (FuseCreate_makes_a_file Examples.mounted Examples.caller 1 "f" Examples.reg
           MoreExamples.root); try reflexivity.
  - apply (session_slots_queued [Call_init 5 6] Examples.fresh);
      [apply new_slots_queued | reflexivity].
  - discriminate.
  - discriminate.
Defined.

Lemma next_ino_store fs n j : next_ino (store fs n j) = next_ino fs.
Proof.
  unfold next_ino, store. destruct fs. cbn [DeletedInodes Inodes with_Inodes].
  now rewrite length_insert.
Qed.

(** X17.  [mknod] of a name that is not bound, in a directory with links,
    with the mode of a directory or of a regular file: a directory is made
    with two links and no entry at all, neither "." nor "..", and the parent
    gains a link; a regular file is made with one link.  Either way the
    object has the mode as given and the owner of the caller, the parent
    gains the name, and no other slot changes. *)
Theorem FuseMknod_makes_the_inode fs req parent name mode rdev p :
  slots_queued fs ->
  inode_at fs parent = Some p -> i_nlink p <> 0 -> is_Directory (Some p) = true ->
  StdMap.find name (Children p) = None ->
  S_ISDIR mode = true \/ S_ISREG mode = true ->
  exists fs' c p',
    run (FuseMknod req parent name mode rdev) fs = Ok tt fs' [reply_entry (GetAttr c)] /\
    inode_at fs (next_ino fs) = None /\
    inode_at fs' (next_ino fs) = Some c /\
    c = mkInode (if S_ISDIR mode then Directory [] else File []) (next_ino fs) mode
                (if S_ISDIR mode then 2 else 1) (ctx_uid req) (ctx_gid req) 0 1 [] /\
    inode_at fs' parent = Some p' /\
    p' = with_body (Directory (StdMap.assign name (next_ino fs) (Children p)))
                   (if S_ISDIR mode then with_nlink (add64 (i_nlink p) 1) p else p) /\
    (forall m, m <> next_ino fs -> m <> parent -> inode_at fs' m = inode_at fs m).
Proof.
  intros Hq Hp Hl Hd Hf Hmode. pose proof (in_table _ _ _ Hp) as [_ S].
  assert (Ep : forall n q, body q = body p -> StdMap.find name (Children q) = None ->
                 AddChild_obj name n q =
                 with_body (Directory (StdMap.assign name n (Children q))) q).
  { intros n q B F. unfold AddChild_obj, with_children. rewrite B.
    unfold is_Directory in Hd. destruct (body p) eqn:Bp; try discriminate.
    now rewrite (find_insert_absent _ _ _ F). }
  unfold FuseMknod, run.
  step. rewrite S. step. rewrite (live _ Hl), Hd. cbn [negb].
  destruct (S_ISDIR mode) eqn:Hdir.
  - unfold AddHardLink. step.
    assert (Hq1 : slots_queued (store fs parent (AddHardLink_obj p))) by (eapply sq_store; eauto).
    destruct (RegisterInode_fresh (store fs parent (AddHardLink_obj p)) [] new_Directory mode 2
                (ctx_gid req) (ctx_uid req) Hq1) as (fs1 & Hreg & Hnone & Hnew & Hother).
    rewrite next_ino_store in Hreg, Hnone, Hnew, Hother.
    set (ino := next_ino fs) in *.
    assert (Hne : parent <> ino).
    { intros ->. rewrite (inode_at_store_eq _ _ _ _ Hp) in Hnone. discriminate. }
    assert (Hp1 : inode_at fs1 parent = Some (AddHardLink_obj p)).
    { rewrite Hother by assumption. apply (inode_at_store_eq _ _ _ _ Hp). }
    erewrite bind_run by exact Hreg.
    unfold AddChild. step. erewrite ReplyEntry_run by solve_at. cbv zeta. cbn [app].
    eexists _, _, _. split; [reflexivity|]. split.
    { rewrite inode_at_store_ne in Hnone by (apply not_eq_sym; exact Hne). exact Hnone. }
    split; [solve_at|]. split; [reflexivity|].
    split; [solve_at|]. split; [rewrite Ep; [reflexivity|reflexivity|exact Hf]|].
    intros m Hm Hm'. rewrite !inode_at_store_ne by assumption.
    rewrite Hother by assumption. now rewrite inode_at_store_ne.
  - destruct Hmode as [Hm|Hreg']; [discriminate|]. rewrite Hreg'.
    destruct (RegisterInode_fresh fs [] new_File mode 1
                (ctx_gid req) (ctx_uid req) Hq) as (fs1 & Hreg & Hnone & Hnew & Hother).
    set (ino := next_ino fs) in *.
    assert (Hne : parent <> ino) by (intros ->; congruence).
    assert (Hp1 : inode_at fs1 parent = Some p) by (now rewrite Hother).
    erewrite bind_run by exact Hreg.
    unfold AddChild. step. erewrite ReplyEntry_run by solve_at. cbv zeta. cbn [app].
    eexists _, _, _. split; [reflexivity|]. split; [exact Hnone|].
    split; [solve_at|]. split; [reflexivity|].
    split; [solve_at|]. split; [now apply Ep|].
    intros m Hm Hm'. rewrite !inode_at_store_ne by assumption. now apply Hother.
Qed.

Lemma FuseMknod_makes_the_inode_witness :
  exists fs' c p',
    run (FuseMknod Examples.caller 1 "d" (N.lor S_IFDIR 493) 0) Examples.mounted =
      Ok tt fs' [reply_entry (GetAttr c)] /\
    inode_at Examples.mounted (next_ino Examples.mounted) = None /\
    inode_at fs' (next_ino Examples.mounted) = Some c /\
    c = mkInode (if S_ISDIR (N.lor S_IFDIR 493) then Directory [] else File [])
                (next_ino Examples.mounted) (N.lor S_IFDIR 493)
                (if S_ISDIR (N.lor S_IFDIR 493) then 2 else 1)
                (ctx_uid Examples.caller) (ctx_gid Examples.caller) 0 1 [] /\
    inode_at fs' 1 = Some p' /\
    p' = with_body (Directory (StdMap.assign "d" (next_ino Examples.mounted)
                                             (Children MoreExamples.root)))
                   (if S_ISDIR (N.lor S_IFDIR 493)
                    then with_nlink (add64 (i_nlink MoreExamples.root) 1) MoreExamples.root
                    else MoreExamples.root) /\
    (forall m, m <> next_ino Examples.mounted -> m <> 1 ->
               inode_at fs' m = inode_at Examples.mounted m).
Proof.
  apply (FuseMknod_makes_the_inode Examples.mounted Examples.caller 1 "d"
           (N.lor S_IFDIR 493) 0 MoreExamples.root); try reflexivity.
  - apply (session_slots_queued [Call_init 5 6] Examples.fresh);
      [apply new_slots_queued | reflexivity].
  - discriminate.
  - left. reflexivity.
Defined.

(** ** Symbolic links *)

(** What [FuseReadLink] does for a symbolic link with links. *)
Lemma FuseReadLink_run fs ino i :
  inode_at fs ino = Some i -> i_nlink i <> 0 -> is_SymLink (Some i) = true ->
  run (FuseReadLink ino) fs = Ok tt fs [reply_readlink (Link i)].
Proof.
  intros Hi Hl Hk. pose proof (in_table _ _ _ Hi) as [_ S].
  unfold FuseReadLink, run.
  step. rewrite S. step. rewrite (live _ Hl), Hk. cbn [negb].
  step. reflexivity.
Qed.

(** The entry a symlink request replies names a symbolic link to the target,
    with one link, in the table. *)
Lemma FuseSymlink_entry fs req link parent name fs' a :
  run (FuseSymlink req link parent name) fs = Ok tt fs' [reply_entry a] ->
  exists i, inode_at fs' (st_ino a) = Some i /\ is_new_symlink req link (st_ino a) i.
Proof.
  destruct fs as [table q rc s its].
  unfold FuseSymlink, AddChild, ReplyEntry. mred_light.
  run_step Hsz. run_step Ep. run_step Hl. run_step Hd.
  run_step Hreg. apply RegisterInode_inv in Hreg as [-> Hnew].
  assert (Q0 : is_new_symlink req link a0
                 (Initialize a0 (N.lor S_IFLNK 493) 1 (ctx_gid req) (ctx_uid req)
                             (new_SymLink link))) by (repeat split).
  run_step Hadd.
  destruct (method_keeps _ _ _ _ _ _ _ _ _ Hadd
              (AddChild_obj_keeps_symlink req link a0 name a0) Hnew Q0)
    as (i1 & H1 & Q1).
  apply method_inv in Hadd as (_ & _ & _ & ->).
  run_step Hinc.
  destruct (method_keeps _ _ _ _ _ _ _ _ _ Hinc
              (fun j => with_nlookup_keeps_symlink req link a0 _ j) H1 Q1)
    as (i2 & H2 & Q2).
  apply method_inv in Hinc as (_ & _ & _ & ->).
  run_step Hget. apply deref_inv in Hget as (-> & -> & Hi).
  intros [= <- <-].
  rewrite H2 in Hi. injection Hi as <-.
  exists i2. cbn [st_ino GetAttr].
  destruct Q2 as (B & I & R). rewrite I. repeat split; tauto.
Qed.

(** X18.  A [readlink] of the inode that a symlink request answered with
    replies the target the link was made with, and changes nothing. *)
Theorem FuseReadLink_after_FuseSymlink fs req link parent name fs' a :
  run (FuseSymlink req link parent name) fs = Ok tt fs' [reply_entry a] ->
  run (FuseReadLink (st_ino a)) fs' = Ok tt fs' [reply_readlink link].
Proof.
  intros H. apply FuseSymlink_entry in H as (i & Hi & B & _ & _ & L & _).
  rewrite (FuseReadLink_run fs' (st_ino a) i Hi).
  - unfold Link. now rewrite B.
  - rewrite L. discriminate.
  - unfold is_SymLink. now rewrite B.
Qed.

Lemma FuseReadLink_after_FuseSymlink_witness :
  run (FuseReadLink (st_ino Examples.symlink_entry)) Examples.symlinked =
    Ok tt Examples.symlinked [reply_readlink "/tmp/x"].
Proof.
  apply (FuseReadLink_after_FuseSymlink Examples.mounted Examples.caller "/tmp/x" 1 "s").
  vm_compute. reflexivity.
Defined.

(** ** Removing names *)

Lemma find_erase_eq {V} (k : string) (m : StdMap.t V) :
  StdMap.find k (StdMap.erase k m) = None.
Proof.
  induction m as [|[k0 v0] m IH]; cbn; [reflexivity|].
  destruct (String.eqb k k0) eqn:E; [exact IH|]. cbn. now rewrite E.
Qed.

Lemma Children_RemoveChild_obj name j :
  is_Directory (Some j) = true ->
  Children (RemoveChild_obj name j) = StdMap.erase name (Children j).
Proof.
  unfold is_Directory, RemoveChild_obj, with_children, Children.
  destruct (body j) eqn:B; try discriminate. intros _. cbn. reflexivity.
Qed.

Lemma RemoveChild_obj_keeps_dir name j :
  is_Directory (Some j) = true -> is_Directory (Some (RemoveChild_obj name j)) = true.
Proof.
  unfold is_Directory, RemoveChild_obj, with_children.
  destruct (body j) eqn:B; try discriminate. intros _. cbn. reflexivity.
Qed.

(** What [FuseLookup] does for a name that is not bound. *)
Lemma FuseLookup_missing fs parent name p :
  inode_at fs parent = Some p -> is_Directory (Some p) = true ->
  StdMap.find name (Children p) = None ->
  run (FuseLookup parent name) fs = Ok tt fs [reply_err ENOENT].
Proof.
  intros Hp Hd Hf. pose proof (in_table _ _ _ Hp) as [_ S].
  unfold FuseLookup, run. step. rewrite S. step.
  rewrite Hd. cbn [negb child_number]. cbv zeta.
  unfold ChildInodeNumberWithName. rewrite Hf. rewrite N.eqb_refl. reflexivity.
Qed.

(** X19.  [unlink] of a name bound, in a directory with links, to another
    slot that holds an inode: the name is erased from the directory, the link
    count of the inode goes down by one (modulo 2^64, and whatever the kind
    of the inode), no other slot changes, 0 is replied, and a lookup of the
    name then replies ENOENT. *)
Theorem FuseUnlink_removes_the_name fs parent name p ino c :
  inode_at fs parent = Some p -> i_nlink p <> 0 -> is_Directory (Some p) = true ->
  StdMap.find name (Children p) = Some ino -> ino <> INO_NOTFOUND ->
  ino <> parent -> inode_at fs ino = Some c ->
  exists fs' p',
    run (FuseUnlink parent name) fs = Ok tt fs' [reply_err 0] /\
    inode_at fs' parent = Some p' /\ i_nlink p' = i_nlink p /\
    Children p' = StdMap.erase name (Children p) /\
    inode_at fs' ino = Some (with_nlink (sub64 (i_nlink c) 1) c) /\
    (forall m, m <> parent -> m <> ino -> inode_at fs' m = inode_at fs m) /\
    run (FuseLookup parent name) fs' = Ok tt fs' [reply_err ENOENT].
Proof.
  intros Hp Hl Hd Hf Hmax Hne Hc. pose proof (in_table _ _ _ Hp) as [_ S].
  assert (Hino : ChildInodeNumberWithName name p = ino).
  { unfold ChildInodeNumberWithName. now rewrite Hf. }
  unfold FuseUnlink. unfold run at 1.
  step. rewrite S. step. rewrite (live _ Hl), Hd. cbn [negb child_number]. cbv zeta.
  rewrite Hino, (proj2 (N.eqb_neq _ _) Hmax).
  unfold RemoveChild, RemoveHardLink. do 3 step. unfold fuse_reply_err. cbn [app].
  eexists _, _. split; [reflexivity|].
  assert (Hp' : inode_at (store (store fs parent (RemoveChild_obj name p)) ino
                            (RemoveHardLink_obj c)) parent
                = Some (RemoveChild_obj name p)) by solve_at.
  split; [exact Hp'|]. split.
  { unfold RemoveChild_obj, with_children. now destruct (body p). }
  split; [now apply Children_RemoveChild_obj|].
  split; [solve_at|]. split.
  - intros m Hm Hm'. now rewrite !inode_at_store_ne by assumption.
  - apply (FuseLookup_missing _ _ _ _ Hp').
    + now apply RemoveChild_obj_keeps_dir.
    + rewrite Children_RemoveChild_obj by assumption. apply find_erase_eq.
Qed.

Lemma FuseUnlink_removes_the_name_witness :
  exists fs' p',
    run (FuseUnlink 1 "a") Examples.two_files = Ok tt fs' [reply_err 0] /\
    inode_at fs' 1 = Some p' /\ i_nlink p' = i_nlink MoreExamples.root_ab /\
    Children p' = StdMap.erase "a" (Children MoreExamples.root_ab) /\
    inode_at fs' 2 = Some (with_nlink (sub64 (i_nlink (MoreExamples.file 2)) 1)
                                      (MoreExamples.file 2)) /\
    (forall m, m <> 1 -> m <> 2 -> inode_at fs' m = inode_at Examples.two_files m) /\
    run (FuseLookup 1 "a") fs' = Ok tt fs' [reply_err ENOENT].
Proof.
  apply (FuseUnlink_removes_the_name Examples.two_files 1 "a" MoreExamples.root_ab 2
           (MoreExamples.file 2)); first [reflexivity | discriminate].
Defined.

Lemma sub64_one_le n : n <> 0 -> sub64 n 1 <= n - 1.
Proof.
  intros Hn. unfold sub64.
  assert (H1 : 1 mod two64 = 1) by reflexivity. rewrite H1.
  replace (n + (two64 - 1)) with ((n - 1) + 1 * two64) by (unfold two64; lia).
  rewrite N.Div0.mod_add. apply N.Div0.mod_le.
Qed.

(** The loop that removes hard links until none is left leaves none. *)
Lemma RemoveAllHardLinks_obj_nlink i : RemoveAllHardLinks_obj i = with_nlink 0 i.
Proof.
  unfold RemoveAllHardLinks_obj.
  set (f := fun j => if HasNoLinks j then j else RemoveHardLink_obj j).
  assert (H : forall k j, i_nlink j <= k -> N.iter k f j = with_nlink 0 j).
  { intros k. induction k as [|k IH] using N.peano_ind; intros j Hj.
    - cbn. assert (E : i_nlink j = 0) by lia. destruct j. cbn in E. now subst.
    - rewrite N.iter_succ_r. unfold f at 2. unfold HasNoLinks.
      destruct (i_nlink j =? 0) eqn:E.
      + apply IH. apply N.eqb_eq in E. lia.
      + apply N.eqb_neq in E. rewrite IH.
        * reflexivity.
        * unfold RemoveHardLink_obj. cbn [i_nlink with_nlink].
          pose proof (sub64_one_le _ E). lia. }
  apply H. lia.
Qed.

(** X20.  [rmdir] of a name bound, in a directory with links, to another slot
    that holds a directory with links and at most two entries: the name is
    erased from the parent, whose link count goes down by one; the directory
    is left with no link at all; no other slot changes; 0 is replied; and a
    lookup of the name then replies ENOENT. *)
Theorem FuseRmdir_removes_the_directory fs parent name p ino d :
  inode_at fs parent = Some p -> i_nlink p <> 0 -> is_Directory (Some p) = true ->
  StdMap.find name (Children p) = Some ino -> ino <> INO_NOTFOUND ->
  ino <> parent ->
  inode_at fs ino = Some d -> i_nlink d <> 0 -> is_Directory (Some d) = true ->
  StdMap.size (Children d) <= 2 ->
  exists fs' p',
    run (FuseRmdir parent name) fs = Ok tt fs' [reply_err 0] /\
    inode_at fs' parent = Some p' /\ i_nlink p' = sub64 (i_nlink p) 1 /\
    Children p' = StdMap.erase name (Children p) /\
    inode_at fs' ino = Some (with_nlink 0 d) /\
    (forall m, m <> parent -> m <> ino -> inode_at fs' m = inode_at fs m) /\
    run (FuseLookup parent name) fs' = Ok tt fs' [reply_err ENOENT].
Proof.
  intros Hp Hl Hd Hf Hmax Hne Hc Hlc Hdc Hsize. pose proof (in_table _ _ _ Hp) as [_ S].
  assert (Hino : ChildInodeNumberWithName name p = ino).
  { unfold ChildInodeNumberWithName. now rewrite Hf. }
  unfold FuseRmdir. unfold run at 1.
  step. rewrite S. step. rewrite (live _ Hl), Hd. cbn [negb child_number]. cbv zeta.
  rewrite Hino, (proj2 (N.eqb_neq _ _) Hmax), (proj2 (N.eqb_neq _ _) Hne).
  step. rewrite (live _ Hlc), Hdc. cbn [negb children_of].
  rewrite (proj2 (N.ltb_ge _ _) Hsize).
  unfold RemoveChild, RemoveHardLink. do 3 step. unfold fuse_reply_err. cbn [app].
  rewrite RemoveAllHardLinks_obj_nlink.
  eexists _, _. split; [reflexivity|].
  assert (Hp' : inode_at (store (store (store fs parent (RemoveChild_obj name p)) parent
                                   (RemoveHardLink_obj (RemoveChild_obj name p)))
                            ino (with_nlink 0 d)) parent
                = Some (RemoveHardLink_obj (RemoveChild_obj name p))) by solve_at.
  assert (Hch : Children (RemoveHardLink_obj (RemoveChild_obj name p))
                = StdMap.erase name (Children p)).
  { rewrite <- (Children_RemoveChild_obj name p Hd). reflexivity. }
  split; [exact Hp'|]. split.
  { unfold RemoveChild_obj, with_children. now destruct (body p). }
  split; [exact Hch|].
  split; [solve_at|]. split.
  - intros m Hm Hm'. now rewrite !inode_at_store_ne by assumption.
  - apply (FuseLookup_missing _ _ _ _ Hp').
    + apply RemoveHardLink_obj_keeps_dir. now apply RemoveChild_obj_keeps_dir.
    + rewrite Hch. apply find_erase_eq.
Qed.

Lemma FuseRmdir_removes_the_directory_witness :
  exists fs' p',
    run (FuseRmdir 1 "d") MoreExamples.with_dir = Ok tt fs' [reply_err 0] /\
    inode_at fs' 1 = Some p' /\ i_nlink p' = sub64 (i_nlink MoreExamples.root_d) 1 /\
    Children p' = StdMap.erase "d" (Children MoreExamples.root_d) /\
    inode_at fs' 2 = Some (with_nlink 0 MoreExamples.dir_d) /\
    (forall m, m <> 1 -> m <> 2 -> inode_at fs' m = inode_at MoreExamples.with_dir m) /\
    run (FuseLookup 1 "d") fs' = Ok tt fs' [reply_err ENOENT].
Proof.
  apply (FuseRmdir_removes_the_directory MoreExamples.with_dir 1 "d" MoreExamples.root_d 2
           MoreExamples.dir_d); first [reflexivity | discriminate].
Defined.

(** ** Rename and link to a name that is not bound *)






(** ** Reading a directory *)

Lemma seek_suffix {V} (k : string) (m : StdMap.t V) prev p rest :
  seek k prev m = Some (p, rest) -> exists before, m = before ++ rest.
Proof.
  revert prev. induction m as [|[k' v] m IH]; intros prev; cbn; [discriminate|].
  destruct (String.eqb k k').
  - intros [= <- <-]. now exists [].
  - intros H. apply IH in H as [before ->]. now exists ((k', v) :: before).
Qed.

Ltac loop_left :=
  split; [reflexivity|]; split; [now rewrite app_nil_r|]; split; [apply Forall2_nil|];
  cbn; lia.

Lemma ReadDir_loop_inv table kE bufSize cookie rest :
  forall prev n b buf it' b' buf',
    ReadDir_loop table kE bufSize cookie prev rest n b buf = inr (it', b', buf') ->
    b <= bufSize -> n <= kE ->
    exists done tail more,
      rest = done ++ tail /\ buf' = buf ++ more /\
      Forall2 (entry_for table cookie) done more /\
      b' = b + dirents_size (map d_name more) /\ b' <= bufSize /\
      n + N.of_nat (length more) <= kE.
Proof.
  induction rest as [|[name c] rest IH]; intros prev n b buf it' b' buf' H Hb Hn;
    cbn [ReadDir_loop] in H.
  - injection H as <- <- <-. exists [], [], []. cbn.
    loop_left.
  - destruct (negb (n <? kE)) eqn:E.
    { injection H as <- <- <-. exists [], ((name, c) :: rest), []. cbn.
      loop_left. }
    apply negb_false_iff, N.ltb_lt in E.
    destruct (table !! N.to_nat c) as [[i|]|] eqn:T; try discriminate.
    cbv zeta in H.
    destruct (bufSize <? b + fuse_dirent_size name) eqn:F.
    { destruct prev; [|discriminate]. injection H as <- <- <-.
      exists [], ((name, c) :: rest), []. cbn.
      loop_left. }
    apply N.ltb_ge in F.
    apply IH in H as (done & tail & more & -> & -> & HF & -> & Hle & Hcount); [|lia|lia].
    eexists ((name, c) :: done), tail, (_ :: more).
    split; [reflexivity|]. split; [now rewrite <- app_assoc|].
    split; [constructor; [|exact HF]|].
    { split; [reflexivity|]. split; [reflexivity|]. exists i. split; [exact T|reflexivity]. }
    cbn [map d_name dirents_size fold_right length].
    fold (dirents_size (map d_name more)).
    split; [lia|]. split; [lia|]. lia.
Qed.

(** X23.  When [readdir] replies a directory buffer, the entries in it are
    those of consecutive bindings of the directory, in the order of the map
    and from its first binding when [off] is null; each has the name of its
    binding, the attributes of the inode in the slot the binding names with
    [st_ino] set to that number, and the pointer to the iterator as offset.
    The byte count replied is the sum of the padded sizes of the entries and
    exceeds neither [size] nor [kReadDirBufSize]; there are at most
    [kReadDirEntriesPerResponse] entries; and the table is not changed. *)
Theorem FuseReadDir_reply_fits kB kE ino size off fs fs' buf bytes :
  run (FuseReadDir kB kE ino size off) fs = Ok tt fs' [reply_dirbuf buf bytes] ->
  exists d before done tail,
    inode_at fs ino = Some d /\ Children d = before ++ done ++ tail /\
    (off = 0 -> before = []) /\
    Forall2 (entry_for (Inodes fs)
                       (if off =? 0 then N.of_nat (length (m_iterators fs)) + 1 else off))
            done buf /\
    bytes = dirents_size (map d_name buf) /\
    bytes <= size /\ bytes <= kB /\ N.of_nat (length buf) <= kE /\
    Inodes fs' = Inodes fs.
Proof.
  unfold FuseReadDir, run.
  unfold bind at 1. unfold Inodes_size at 1.
  destruct (N.of_nat (length (Inodes fs)) <=? ino) eqn:Hsz; [intros [=]|].
  unfold bind at 1. unfold Inodes_at at 1.
  destruct (Inodes fs !! N.to_nat ino) as [o|] eqn:Ei; [|intros [=]].
  destruct (null_or_unlinked o) eqn:Hl; [intros [=]|].
  destruct (negb (is_Directory o)) eqn:Hd; [intros [=]|].
  apply live_is_Some in Hl as (d & -> & Ld).
  assert (Hi : inode_at fs ino = Some d) by (unfold inode_at; now rewrite Ei).
  unfold bind at 1. unfold get_fs at 1. cbn [children_of].
  set (cookie := if off =? 0 then N.of_nat (length (m_iterators fs)) + 1 else off).
  set (bufSize := if kB <? size then kB else size).
  assert (Hbuf : bufSize <= size /\ bufSize <= kB).
  { unfold bufSize. destruct (kB <? size) eqn:E.
    - apply N.ltb_lt in E. lia.
    - apply N.ltb_ge in E. lia. }
  assert (Hloop : forall fs1 sent1 prev rest before,
    Children d = before ++ rest -> Inodes fs1 = Inodes fs ->
    match ReadDir_loop (Inodes fs) kE bufSize cookie prev rest 0 0 [] with
    | inl f => crash f
    | inr (it', bytesAdded, buf) =>
        modify_fs (fun fs =>
          with_iterators (<[N.to_nat (cookie - 1) := it']> (m_iterators fs)) fs) ;;
        fuse_reply (reply_dirbuf buf bytesAdded)
    end fs1 sent1 = Ok tt fs' [reply_dirbuf buf bytes] ->
    exists done tail,
      rest = done ++ tail /\
      Forall2 (entry_for (Inodes fs) cookie) done buf /\
      bytes = dirents_size (map d_name buf) /\
      bytes <= size /\ bytes <= kB /\ N.of_nat (length buf) <= kE /\
      Inodes fs' = Inodes fs).
  { intros fs1 sent1 prev rest before Hch Ht.
    destruct (ReadDir_loop (Inodes fs) kE bufSize cookie prev rest 0 0 [])
      as [f|[[it' b'] buf']] eqn:L; [intros [=]|].
    apply ReadDir_loop_inv in L as (done & tail & more & -> & -> & HF & -> & Hle & Hcount);
      [|lia|lia].
    unfold bind, modify_fs, fuse_reply. intros [= <- Hsent].
    assert (E : [reply_dirbuf more (0 + dirents_size (map d_name more))] =
                [reply_dirbuf buf bytes]).
    { destruct sent1; [exact Hsent|].
      cbn in Hsent. injection Hsent as _ Hsent. destruct sent1; discriminate. }
    injection E as <- <-. exists done, tail. cbn [app] in *.
    repeat split; try assumption; try lia. }
  destruct (off =? 0) eqn:Hoff.
  - unfold bind at 1. unfold modify_fs at 1.
    destruct (begin (Children d)) as [k|] eqn:B.
    + destruct (seek k None (Children d)) as [[prev rest]|] eqn:Sk; [|intros [=]].
      assert (rest = Children d) as ->.
      { unfold begin in B. destruct (Children d) as [|[k0 v0] m]; [discriminate|].
        injection B as <-. cbn in Sk. rewrite String.eqb_refl in Sk. now injection Sk. }
      intros H. apply (Hloop _ _ _ _ []) in H
        as (done & tail & E & HF & R); [|reflexivity|reflexivity].
      exists d, [], done, tail. split; [exact Hi|]. split; [exact E|].
      split; [reflexivity|]. split; [exact HF|exact R].
    + intros H. apply (Hloop _ _ _ [] (Children d)) in H
        as (done & tail & E & HF & R); [|now rewrite app_nil_r|reflexivity].
      exists d, [], done, tail.
      unfold begin in B. destruct (Children d) as [|[k0 v0] m] eqn:C; [|discriminate].
      split; [exact Hi|]. split; [exact E|].
      split; [reflexivity|]. split; [exact HF|exact R].
  - destruct (m_iterators fs !! N.to_nat (off - 1)) as [[k|]|] eqn:It; cbn [option_map].
    + unfold bind at 1. unfold ret at 1.
      destruct (seek k None (Children d)) as [[prev rest]|] eqn:Sk; [|intros [=]].
      destruct (seek_suffix _ _ _ _ _ Sk) as [before Hb].
      intros H. apply (Hloop _ _ _ _ before) in H
        as (done & tail & -> & HF & R); [|exact Hb|reflexivity].
      exists d, before, done, tail. split; [exact Hi|]. split; [exact Hb|].
      split; [|split; [exact HF|exact R]].
      intros ->. discriminate.
    + intros [=].
    + intros [=].
Qed.

Lemma FuseReadDir_reply_fits_witness :
  exists d before done tail,
    inode_at Examples.two_files 1 = Some d /\ Children d = before ++ done ++ tail /\
    (0 = 0 -> before = []) /\
    Forall2 (entry_for (Inodes Examples.two_files)
                       (if 0 =? 0 then N.of_nat (length (m_iterators Examples.two_files)) + 1
                        else 0))
            done MoreExamples.listing /\
    128 = dirents_size (map d_name MoreExamples.listing) /\
    128 <= 4096 /\ 128 <= 8192 /\ N.of_nat (length MoreExamples.listing) <= 255 /\
    Inodes MoreExamples.listed = Inodes Examples.two_files.
Proof.
  apply (FuseReadDir_reply_fits 8192 255 1 4096 0 Examples.two_files MoreExamples.listed MoreExamples.listing 128).
  vm_compute. reflexivity.
Defined.

Lemma dirents_size_app l l' : dirents_size (l ++ l') = dirents_size l + dirents_size l'.
Proof.
  induction l as [|x l IH]; cbn; [reflexivity|].
  fold (dirents_size (l ++ l')). fold (dirents_size l). lia.
Qed.

(** The loop over bindings that all fit and all name an inode goes on with
    what follows them. *)
Lemma ReadDir_loop_app table kE bufSize cookie done rest :
  forall prev n b buf,
    Forall (fun binding => exists i, table !! N.to_nat (snd binding) = Some (Some i)) done ->
    n + N.of_nat (length done) <= kE ->
    b + dirents_size (map fst done) <= bufSize ->
    exists more prev',
      Forall2 (entry_for table cookie) done more /\
      ReadDir_loop table kE bufSize cookie prev (done ++ rest) n b buf =
      ReadDir_loop table kE bufSize cookie prev' rest
                   (n + N.of_nat (length done)) (b + dirents_size (map fst done))
                   (buf ++ more).
Proof.
  induction done as [|[name c] done IH]; intros prev n b buf Hall Hn Hb.
  - exists [], prev. split; [constructor|]. cbn. now rewrite !N.add_0_r, app_nil_r.
  - apply Forall_cons in Hall as [[i Hi] Hall]. cbn [snd] in Hi.
    cbn [map fst dirents_size fold_right length] in *.
    fold (dirents_size (map fst done)) in *.
    cbn [app ReadDir_loop].
    assert (E : (n <? kE) = true) by (apply N.ltb_lt; lia). rewrite E. cbn [negb].
    rewrite Hi. cbv zeta.
    assert (F : (bufSize <? b + fuse_dirent_size name) = false) by (apply N.ltb_ge; lia).
    rewrite F.
    set (e := mkDirent name
                (mkStat c (i_mode i) (i_nlink i) (i_uid i) (i_gid i) (i_size i)
                        (UsedBlocks i)) cookie).
    destruct (IH (Some name) (n + 1) (b + fuse_dirent_size name) (buf ++ [e]) Hall)
      as (more & prev' & HF & ->); [lia|lia|].
    exists (e :: more), prev'. split.
    + constructor; [|exact HF]. split; [reflexivity|]. split; [reflexivity|].
      exists i. split; [exact Hi|reflexivity].
    + rewrite <- app_assoc. cbn [app]. f_equal; lia.
Qed.

Lemma insert_at_the_end {A} (l : list A) (x y : A) : <[length l := y]> (l ++ [x]) = l ++ [y].
Proof. induction l as [|a l IH]; cbn; [reflexivity|]. f_equal. exact IH. Qed.

Lemma lookup_at_the_end {A} (l : list A) (x : A) : (l ++ [x]) !! length l = Some x.
Proof. induction l as [|a l IH]; [reflexivity|exact IH]. Qed.

Lemma seek_begin {V} (m : StdMap.t V) k :
  begin m = Some k -> seek k None m = Some (None, m).
Proof.
  destruct m as [|[k0 v0] m]; [discriminate|]. cbn. intros [= ->].
  now rewrite String.eqb_refl.
Qed.

(** The start of [FuseReadDir] on a directory with links, for a null [off]:
    the tests pass, an iterator is allocated at the first entry, and the loop
    runs from there. *)
Lemma FuseReadDir_from_the_start kB kE ino size fs d :
  inode_at fs ino = Some d -> i_nlink d <> 0 -> is_Directory (Some d) = true ->
  run (FuseReadDir kB kE ino size 0) fs =
    let cookie := N.of_nat (length (m_iterators fs)) + 1 in
    let fs1 := with_iterators (m_iterators fs ++ [begin (Children d)]) fs in
    match ReadDir_loop (Inodes fs) kE (if kB <? size then kB else size) cookie
                       None (Children d) 0 0 [] with
    | inl f => Crash f fs1 []
    | inr (it', bytesAdded, buf) =>
        Ok tt (with_iterators (m_iterators fs ++ [it']) fs) [reply_dirbuf buf bytesAdded]
    end.
Proof.
  intros Hi Hl Hd. pose proof (in_table _ _ _ Hi) as [E S].
  unfold FuseReadDir, run.
  unfold bind at 1. unfold Inodes_size at 1. rewrite S.
  unfold bind at 1. unfold Inodes_at at 1. rewrite E.
  rewrite (live _ Hl), Hd. cbn [negb children_of].
  unfold bind at 1. unfold get_fs at 1.
  rewrite N.eqb_refl. unfold bind at 1. unfold modify_fs at 1. cbv zeta.
  assert (Hseek : match begin (Children d) with
                  | Some k => seek k None (Children d)
                  | None => Some (None, [])
                  end = Some (None, Children d)).
  { destruct (begin (Children d)) as [k|] eqn:B.
    - now apply seek_begin.
    - destruct (Children d); [reflexivity|]. destruct p. discriminate. }
  rewrite Hseek.
  destruct (ReadDir_loop _ _ _ _ _ _ _ _ _) as [f|[[it' b'] buf']]; [reflexivity|].
  unfold bind, modify_fs, fuse_reply. cbn [app].
  f_equal. unfold with_iterators. cbn [m_iterators Inodes DeletedInodes m_reclaimingInodes m_stbuf].
  f_equal.
  replace (N.to_nat (N.of_nat (length (m_iterators fs)) + 1 - 1))
    with (length (m_iterators fs)) by lia.
  apply insert_at_the_end.
Qed.

Lemma table_inode fs n i : inode_at fs n = Some i -> Inodes fs !! N.to_nat n = Some (Some i).
Proof. intros H. now apply in_table in H as [E _]. Qed.

(** [FuseReadDir] with the pointer to an iterator that is at the end. *)
Lemma FuseReadDir_at_the_end kB kE ino size off fs d :
  inode_at fs ino = Some d -> i_nlink d <> 0 -> is_Directory (Some d) = true ->
  off <> 0 -> m_iterators fs !! N.to_nat (off - 1) = Some None ->
  run (FuseReadDir kB kE ino size off) fs = Ok tt fs [reply_buf []].
Proof.
  intros Hi Hl Hd Hoff Hit. pose proof (in_table _ _ _ Hi) as [E S].
  unfold FuseReadDir, run.
  unfold bind at 1. unfold Inodes_size at 1. rewrite S.
  unfold bind at 1. unfold Inodes_at at 1. rewrite E.
  rewrite (live _ Hl), Hd. cbn [negb children_of].
  unfold bind at 1. unfold get_fs at 1.
  rewrite (proj2 (N.eqb_neq _ _) Hoff), Hit. reflexivity.
Qed.

(** [FuseReadDir] with the pointer to an iterator that is at key [k]. *)
Lemma FuseReadDir_from_a_key kB kE ino size off fs d k prev rest :
  inode_at fs ino = Some d -> i_nlink d <> 0 -> is_Directory (Some d) = true ->
  off <> 0 -> m_iterators fs !! N.to_nat (off - 1) = Some (Some k) ->
  seek k None (Children d) = Some (prev, rest) ->
  run (FuseReadDir kB kE ino size off) fs =
    match ReadDir_loop (Inodes fs) kE (if kB <? size then kB else size) off
                       prev rest 0 0 [] with
    | inl f => Crash f fs []
    | inr (it', bytesAdded, buf) =>
        Ok tt (with_iterators (<[N.to_nat (off - 1) := it']> (m_iterators fs)) fs)
           [reply_dirbuf buf bytesAdded]
    end.
Proof.
  intros Hi Hl Hd Hoff Hit Hseek. pose proof (in_table _ _ _ Hi) as [E S].
  unfold FuseReadDir, run.
  unfold bind at 1. unfold Inodes_size at 1. rewrite S.
  unfold bind at 1. unfold Inodes_at at 1. rewrite E.
  rewrite (live _ Hl), Hd. cbn [negb children_of].
  unfold bind at 1. unfold get_fs at 1.
  rewrite (proj2 (N.eqb_neq _ _) Hoff), Hit. cbn [option_map].
  unfold bind at 1. unfold ret at 1. rewrite Hseek.
  destruct (ReadDir_loop _ _ _ _ _ _ _ _ _) as [f|[[it' b'] buf']]; reflexivity.
Qed.

(** X24.  When every binding of a directory with links names a slot that
    holds an inode, and all of them fit in the buffer and in the number of
    entries of one response, a [readdir] with a null [off] replies an entry
    for each binding, in the order of the map, and leaves a new iterator at
    the end; a [readdir] with the pointer to that iterator as [off] then
    replies the empty buffer and changes nothing. *)
Theorem FuseReadDir_lists_the_directory kB kE ino size fs d :
  inode_at fs ino = Some d -> i_nlink d <> 0 -> is_Directory (Some d) = true ->
  Forall (fun binding => exists i, inode_at fs (snd binding) = Some i) (Children d) ->
  StdMap.size (Children d) <= kE ->
  dirents_size (map fst (Children d)) <= size ->
  dirents_size (map fst (Children d)) <= kB ->
  exists buf,
    let cookie := N.of_nat (length (m_iterators fs)) + 1 in
    let fs' := with_iterators (m_iterators fs ++ [None]) fs in
    run (FuseReadDir kB kE ino size 0) fs =
      Ok tt fs' [reply_dirbuf buf (dirents_size (map fst (Children d)))] /\
    Forall2 (entry_for (Inodes fs) cookie) (Children d) buf /\
    run (FuseReadDir kB kE ino size cookie) fs' = Ok tt fs' [reply_buf []].
Proof.
  intros Hi Hl Hd Hall Hcount Hsize HkB.
  destruct (ReadDir_loop_app (Inodes fs) kE (if kB <? size then kB else size)
              (N.of_nat (length (m_iterators fs)) + 1) (Children d) []
              None 0 0 [])
    as (buf & prev' & HF & Hloop).
  { eapply Forall_impl; [exact Hall|]. intros b [i Hb]. exists i. now apply table_inode. }
  { exact Hcount. }
  { destruct (kB <? size); lia. }
  exists buf. cbv zeta. split; [|split; [exact HF|]].
  - rewrite (FuseReadDir_from_the_start kB kE ino size fs d Hi Hl Hd). cbv zeta.
    rewrite app_nil_r in Hloop. rewrite Hloop. reflexivity.
  - apply (FuseReadDir_at_the_end kB kE ino size _ _ d); try assumption.
    + lia.
    + cbn [m_iterators with_iterators].
      replace (N.to_nat (N.of_nat (length (m_iterators fs)) + 1 - 1))
        with (length (m_iterators fs)) by lia.
      apply lookup_at_the_end.
Qed.

Lemma FuseReadDir_lists_the_directory_witness :
  exists buf,
    let cookie := N.of_nat (length (m_iterators Examples.two_files)) + 1 in
    let fs' := with_iterators (m_iterators Examples.two_files ++ [None]) Examples.two_files in
    run (FuseReadDir 8192 255 1 4096 0) Examples.two_files =
      Ok tt fs' [reply_dirbuf buf (dirents_size (map fst (Children MoreExamples.root_ab)))] /\
    Forall2 (entry_for (Inodes Examples.two_files) cookie) (Children MoreExamples.root_ab) buf /\
    run (FuseReadDir 8192 255 1 4096 cookie) fs' = Ok tt fs' [reply_buf []].
Proof.
  apply (FuseReadDir_lists_the_directory 8192 255 1 4096 Examples.two_files
           MoreExamples.root_ab).
  - vm_compute. reflexivity.
  - discriminate.
  - reflexivity.
  - constructor; [exists MoreExamples.root_ab; vm_compute; reflexivity|].
    constructor; [exists MoreExamples.root_ab; vm_compute; reflexivity|].
    constructor; [exists (MoreExamples.file 2); vm_compute; reflexivity|].
    constructor; [exists (MoreExamples.file 3); vm_compute; reflexivity|].
    constructor.
  - vm_compute. discriminate.
  - vm_compute. discriminate.
  - vm_compute. discriminate.
Defined.

(** X25.  When the first entry of a directory fits in the buffer and the
    second does not, a [readdir] with a null [off] replies the first entry
    and moves the iterator back onto it; the [readdir] that continues with
    that iterator replies the same entry again and leaves the state as it is,
    so the listing does not get past the first entry. *)
Theorem FuseReadDir_sends_the_last_entry_again kB kE ino size fs d n1 c1 i1 n2 c2 i2 rest :
  inode_at fs ino = Some d -> i_nlink d <> 0 -> is_Directory (Some d) = true ->
  Children d = (n1, c1) :: (n2, c2) :: rest ->
  inode_at fs c1 = Some i1 -> inode_at fs c2 = Some i2 ->
  1 < kE ->
  fuse_dirent_size n1 <= size -> fuse_dirent_size n1 <= kB ->
  (size < fuse_dirent_size n1 + fuse_dirent_size n2 \/
   kB < fuse_dirent_size n1 + fuse_dirent_size n2) ->
  let cookie := N.of_nat (length (m_iterators fs)) + 1 in
  let fs' := with_iterators (m_iterators fs ++ [Some n1]) fs in
  let e := mkDirent n1 (mkStat c1 (i_mode i1) (i_nlink i1) (i_uid i1) (i_gid i1)
                               (i_size i1) (UsedBlocks i1)) cookie in
  run (FuseReadDir kB kE ino size 0) fs = Ok tt fs' [reply_dirbuf [e] (fuse_dirent_size n1)] /\
  run (FuseReadDir kB kE ino size cookie) fs' =
    Ok tt fs' [reply_dirbuf [e] (fuse_dirent_size n1)].
Proof.
  intros Hi Hl Hd Hch H1 H2 HkE Hs1 Hk1 Hs2 cookie fs' e.
  apply table_inode in H1, H2.
  set (bufSize := if kB <? size then kB else size).
  assert (F1 : (bufSize <? 0 + fuse_dirent_size n1) = false).
  { apply N.ltb_ge. unfold bufSize. destruct (kB <? size); lia. }
  assert (F2 : (bufSize <? 0 + fuse_dirent_size n1 + fuse_dirent_size n2) = true).
  { apply N.ltb_lt. unfold bufSize.
    destruct (kB <? size) eqn:E; [apply N.ltb_lt in E|apply N.ltb_ge in E]; lia. }
  assert (E0 : (0 <? kE) = true) by (apply N.ltb_lt; lia).
  assert (E1 : (0 + 1 <? kE) = true) by (apply N.ltb_lt; lia).
  assert (Hloop : forall ck,
            ReadDir_loop (Inodes fs) kE bufSize ck None (Children d) 0 0 [] =
            inr (Some n1, 0 + fuse_dirent_size n1,
                 [mkDirent n1 (mkStat c1 (i_mode i1) (i_nlink i1) (i_uid i1) (i_gid i1)
                                      (i_size i1) (UsedBlocks i1)) ck])).
  { intros ck. rewrite Hch. cbn [ReadDir_loop].
    rewrite E0. cbn [negb]. rewrite H1. cbv zeta. rewrite F1, E1. cbn [negb].
    rewrite H2, F2. reflexivity. }
  split.
  - rewrite (FuseReadDir_from_the_start kB kE ino size fs d Hi Hl Hd). cbv zeta.
    fold bufSize. rewrite Hloop. reflexivity.
  - assert (Hit : m_iterators fs' !! N.to_nat (cookie - 1) = Some (Some n1)).
    { unfold fs', cookie. cbn [m_iterators with_iterators].
      replace (N.to_nat (N.of_nat (length (m_iterators fs)) + 1 - 1))
        with (length (m_iterators fs)) by lia.
      apply lookup_at_the_end. }
    rewrite (FuseReadDir_from_a_key kB kE ino size cookie fs' d n1 None (Children d));
      try assumption.
    + fold bufSize. change (Inodes fs') with (Inodes fs). rewrite Hloop.
      f_equal. rewrite list_insert_id by exact Hit. now destruct fs.
    + unfold cookie. lia.
    + rewrite Hch. cbn. now rewrite String.eqb_refl.
Qed.

Lemma FuseReadDir_sends_the_last_entry_again_witness :
  let cookie := N.of_nat (length (m_iterators Examples.two_files)) + 1 in
  let fs' := with_iterators (m_iterators Examples.two_files ++ [Some "."%string])
                            Examples.two_files in
  let e := mkDirent "." (mkStat 1 (i_mode MoreExamples.root_ab) (i_nlink MoreExamples.root_ab)
                                (i_uid MoreExamples.root_ab) (i_gid MoreExamples.root_ab)
                                (i_size MoreExamples.root_ab) (UsedBlocks MoreExamples.root_ab))
                    cookie in
  run (FuseReadDir 8192 255 1 40 0) Examples.two_files =
    Ok tt fs' [reply_dirbuf [e] (fuse_dirent_size ".")] /\
  run (FuseReadDir 8192 255 1 40 cookie) fs' =
    Ok tt fs' [reply_dirbuf [e] (fuse_dirent_size ".")].
Proof.
  apply (FuseReadDir_sends_the_last_entry_again 8192 255 1 40 Examples.two_files
           MoreExamples.root_ab "." 1 MoreExamples.root_ab ".." 1 MoreExamples.root_ab
           [("a", 2); ("b", 3)]%string).
  - vm_compute. reflexivity.
  - discriminate.
  - reflexivity.
  - reflexivity.
  - vm_compute. reflexivity.
  - vm_compute. reflexivity.
  - reflexivity.
  - vm_compute. discriminate.
  - vm_compute. discriminate.
  - left. reflexivity.
Defined.

(** X26.  When a binding of the directory names a slot that holds
    [nullptr], and the bindings before it name inodes and fit in one
    response, a [readdir] with a null [off] never replies: the loop goes on
    without moving the iterator. *)
Theorem FuseReadDir_loops_on_an_empty_slot kB kE ino size fs d done name c rest :
  inode_at fs ino = Some d -> i_nlink d <> 0 -> is_Directory (Some d) = true ->
  Children d = done ++ (name, c) :: rest ->
  Forall (fun binding => exists i, inode_at fs (snd binding) = Some i) done ->
  Inodes fs !! N.to_nat c = Some None ->
  N.of_nat (length done) < kE ->
  dirents_size (map fst done) <= size -> dirents_size (map fst done) <= kB ->
  run (FuseReadDir kB kE ino size 0) fs =
    Crash Diverges (with_iterators (m_iterators fs ++ [begin (Children d)]) fs) [].
Proof.
  intros Hi Hl Hd Hch Hall Hc HkE Hsize HkB.
  destruct (ReadDir_loop_app (Inodes fs) kE (if kB <? size then kB else size)
              (N.of_nat (length (m_iterators fs)) + 1) done ((name, c) :: rest)
              None 0 0 [])
    as (buf & prev' & HF & Hloop).
  { eapply Forall_impl; [exact Hall|]. intros b [i Hb]. exists i. now apply table_inode. }
  { lia. }
  { destruct (kB <? size); lia. }
  rewrite (FuseReadDir_from_the_start kB kE ino size fs d Hi Hl Hd). cbv zeta.
  rewrite Hch, Hloop. cbn [ReadDir_loop].
  assert (E : (0 + N.of_nat (length done) <? kE) = true) by (apply N.ltb_lt; lia).
  rewrite E. cbn [negb]. rewrite Hc. reflexivity.
Qed.

Lemma FuseReadDir_loops_on_an_empty_slot_witness :
  run (FuseReadDir 8192 255 1 4096 0) MoreExamples.dangling =
    Crash Diverges (with_iterators (m_iterators MoreExamples.dangling ++ [begin (Children MoreExamples.root_e)]) MoreExamples.dangling)
          [].
Proof.
  apply (FuseReadDir_loops_on_an_empty_slot 8192 255 1 4096 MoreExamples.dangling MoreExamples.root_e
           [(".", 1); ("..", 1)]%string "e" 2 []).
  - vm_compute. reflexivity.
  - discriminate.
  - reflexivity.
  - reflexivity.
  - constructor; [exists MoreExamples.root_e; vm_compute; reflexivity|].
    constructor; [exists MoreExamples.root_e; vm_compute; reflexivity|].
    constructor.
  - vm_compute. reflexivity.
  - reflexivity.
  - vm_compute. discriminate.
  - vm_compute. discriminate.
Defined.

(** X27.  When the first entry of a directory does not fit in the buffer, a
    [readdir] with a null [off] moves the iterator back from [begin()], and
    replies nothing before that. *)
Theorem FuseReadDir_first_entry_does_not_fit kB kE ino size fs d name c i rest :
  inode_at fs ino = Some d -> i_nlink d <> 0 -> is_Directory (Some d) = true ->
  Children d = (name, c) :: rest -> inode_at fs c = Some i ->
  0 < kE ->
  (size < fuse_dirent_size name \/ kB < fuse_dirent_size name) ->
  run (FuseReadDir kB kE ino size 0) fs =
    Crash InvalidIterator (with_iterators (m_iterators fs ++ [Some name]) fs) [].
Proof.
  intros Hi Hl Hd Hch Hc HkE Hsize. apply table_inode in Hc.
  rewrite (FuseReadDir_from_the_start kB kE ino size fs d Hi Hl Hd). cbv zeta.
  rewrite Hch. cbn [ReadDir_loop begin].
  rewrite (proj2 (N.ltb_lt _ _) HkE). cbn [negb]. rewrite Hc. cbv zeta.
  assert (F : ((if kB <? size then kB else size) <? 0 + fuse_dirent_size name) = true).
  { apply N.ltb_lt. destruct (kB <? size) eqn:E; [apply N.ltb_lt in E|apply N.ltb_ge in E]; lia. }
  rewrite F. reflexivity.
Qed.

Lemma FuseReadDir_first_entry_does_not_fit_witness :
  run (FuseReadDir 8192 255 1 20 0) Examples.two_files =
    Crash InvalidIterator
          (with_iterators (m_iterators Examples.two_files ++ [Some "."%string])
                          Examples.two_files) [].
Proof.
  apply (FuseReadDir_first_entry_does_not_fit 8192 255 1 20 Examples.two_files
           MoreExamples.root_ab "." 1 MoreExamples.root_ab
           [("..", 1); ("a", 2); ("b", 3)]%string).
  - vm_compute. reflexivity.
  - discriminate.
  - reflexivity.
  - reflexivity.
  - vm_compute. reflexivity.
  - reflexivity.
  - left. reflexivity.
Defined.
